(** * VersionManager: a shallow embedding of the core and its properties

    The development follows the Python sources:
    - [database/models.py]      → [Module Models]
    - [database/db_manager.py]  → [Module Sqlite] (schema, DDL, migration)
                                  and [Module DatabaseManager] (row CRUD)
    - [core/verification.py]    → [Module Verification]
    - [core/file_service.py]    → [Module FileService]
    - [core/job_queue.py]       → [Module JobQueue]

    Conventions of the embedding.
    - A [pathlib.Path] is the list of its components below the root; the
      strings stored in the database are identified with the paths they
      denote, so [str(Path(s))] and [Path(str(p))] are the identity.
    - [st_mtime] and the clock are exact integers (ticks), so the float
      comparisons [!=], [<] and [abs(a - b)] of the source are [Z] ones.
    - Nondeterministic inputs ([uuid.uuid4()], [datetime.now()],
      [time.time()]) are explicit arguments.
    - Python exceptions are values of [exn]; a computation that raises
      keeps the effects performed before the raise. *)

From Stdlib Require Import ZArith String List Ascii Bool Lia.
From Stdlib.Strings Require Import Byte.
From Stdlib Require Import DecimalString.
From Stdlib Require Import Sorted DecimalZ DecimalPos.
From stdpp Require Import gmap strings list fin_maps.

Open Scope string_scope.
Open Scope list_scope.
Open Scope Z_scope.

(* ===================================================================== *)
(** * Part I: definitions                                                 *)
(* ===================================================================== *)

(** ** Python exceptions and results *)
Module Py.

Inductive exn : Type :=
| FileNotFoundError (msg : string)
| FileExistsError (msg : string)
| IsADirectoryError (msg : string)
| NotADirectoryError (msg : string)
| SameFileError (msg : string)
| OSError (msg : string)
| ValueError (msg : string)
| NameError (name : string)
| UnboundLocalError (name : string)
| IntegrityError (msg : string)
| OperationalError (msg : string)
| RuntimeError (msg : string).

(** [str(exc)] *)
Definition str_exn (e : exn) : string :=
  match e with
  | FileNotFoundError m | FileExistsError m | IsADirectoryError m
  | NotADirectoryError m | SameFileError m | OSError m | ValueError m
  | IntegrityError m | OperationalError m | RuntimeError m => m
  | NameError n => "name '" +:+ n +:+ "' is not defined"
  | UnboundLocalError n =>
      "cannot access local variable '" +:+ n +:+
      "' where it is not associated with a value"
  end.

Inductive result (A : Type) : Type :=
| Ok (a : A)
| Raise (e : exn).
Arguments Ok {A} a.
Arguments Raise {A} e.

Definition is_ok {A} (r : result A) : bool :=
  match r with Ok _ => true | Raise _ => false end.

(** State-and-exception computations over a state [S]. *)
Definition M (S A : Type) : Type := S -> S * result A.

Definition ret {S A} (a : A) : M S A := fun s => (s, Ok a).
Definition raise {S A} (e : exn) : M S A := fun s => (s, Raise e).
Definition bind {S A B} (m : M S A) (k : A -> M S B) : M S B :=
  fun s => match m s with
           | (s', Ok a) => k a s'
           | (s', Raise e) => (s', Raise e)
           end.
Definition get {S} : M S S := fun s => (s, Ok s).
Definition put {S} (s : S) : M S unit := fun _ => (s, Ok tt).
Definition modify {S} (f : S -> S) : M S unit := fun s => (f s, Ok tt).
(** lift a pure fallible step that computes the next state *)
Definition step {S} (f : S -> result S) : M S unit :=
  fun s => match f s with
           | Ok s' => (s', Ok tt)
           | Raise e => (s, Raise e)
           end.

(** Truthiness of [Optional[str]]: [None] and the empty string are falsy. *)
Definition truthy_str (o : option string) : bool :=
  match o with
  | Some s => negb (String.eqb s "")
  | None => false
  end.

(** Truthiness of [Optional[int]]: [None] and [0] are falsy. *)
Definition truthy_int (o : option Z) : bool :=
  match o with
  | Some n => negb (n =? 0)
  | None => false
  end.

End Py.

Notation "'let*' x ':=' m 'in' k" := (Py.bind m (fun x => k))
  (at level 10, x name, m at level 100, k at level 200).
Notation "'let*' ' p ':=' m 'in' k" := (Py.bind m (fun p => k))
  (at level 10, p strict pattern, m at level 100, k at level 200).
Notation "'run!' m 'in' k" := (Py.bind m (fun _ => k))
  (at level 10, m at level 100, k at level 200).

(** ** [pathlib]: pure path arithmetic *)
Module Pathlib.

(** A path is the list of its components, outermost first. *)
Abbreviation path := (list string).

(** [p / name] *)
Definition joinpath (p : path) (name : string) : path := p ++ [name].

(** [p.parent]; the parent of the root is the root. *)
Definition parent (p : path) : path := List.removelast p.

(** [p.name]; the root has the empty name. *)
Definition name (p : path) : string := List.last p "".

(** [s.rfind('.')]: the index of the last dot. *)
Fixpoint rfind_dot_from (i : nat) (s : string) (acc : option nat) : option nat :=
  match s with
  | EmptyString => acc
  | String c s' =>
      rfind_dot_from (S i) s'
        (if Ascii.eqb c "."%char then Some i else acc)
  end.
Definition rfind_dot (s : string) : option nat := rfind_dot_from 0 s None.

(** The split point of [PurePath.suffix] / [PurePath.stem]:
    [i = name.rfind('.')] when [0 < i < len(name) - 1]. *)
Definition suffix_index (nm : string) : option nat :=
  match rfind_dot nm with
  | Some i =>
      if (0 <? i)%nat && (i <? String.length nm - 1)%nat
      then Some i else None
  | None => None
  end.

Definition suffix_of_name (nm : string) : string :=
  match suffix_index nm with
  | Some i => substring i (String.length nm - i) nm
  | None => ""
  end.

Definition stem_of_name (nm : string) : string :=
  match suffix_index nm with
  | Some i => substring 0 i nm
  | None => nm
  end.

(** Splitting a string at ['/'], as [Path(s)] does. *)
Fixpoint split_slash (s : string) (cur : string) : list string :=
  match s with
  | EmptyString => [cur]
  | String c s' =>
      if Ascii.eqb c "/"%char then cur :: split_slash s' ""
      else split_slash s' (cur +:+ String c "")
  end.

(** [Path(s)]: empty components and ["."] components are dropped. *)
Definition Path (s : string) : path :=
  filter (fun c => c <> "" /\ c <> ".") (split_slash s "").

(** [Path(s).suffix] and [Path(s).stem] for a string [s]. *)
Definition suffix (s : string) : string := suffix_of_name (name (Path s)).
Definition stem (s : string) : string := stem_of_name (name (Path s)).

(** [str(n)] for an integer. *)
Definition str_int (n : Z) : string := NilZero.string_of_int (Z.to_int n).

(** ASCII [str.lower()]. *)
Definition lower_ascii (c : ascii) : ascii :=
  let n := nat_of_ascii c in
  if (65 <=? n)%nat && (n <=? 90)%nat then ascii_of_nat (n + 32) else c.
Fixpoint lower (s : string) : string :=
  match s with
  | EmptyString => EmptyString
  | String c s' => String (lower_ascii c) (lower s')
  end.

(** [s.lstrip(".")] *)
Fixpoint lstrip_dots (s : string) : string :=
  match s with
  | String c s' => if Ascii.eqb c "."%char then lstrip_dots s' else s
  | EmptyString => EmptyString
  end.

(** [str(p)] *)
Definition str_path (p : path) : string :=
  fold_right (fun c acc => "/" +:+ c +:+ acc) "" p.

(** [q] lies strictly below [p]. *)
Definition strictly_below (p q : path) : bool :=
  bool_decide (p `prefix_of` q) && negb (bool_decide (p = q)).

End Pathlib.


(** ** The file system seen through [os], [pathlib] and [shutil] *)
Module Os.
Import Py Pathlib.

Record stat_result : Type := { st_size : Z; st_mtime : Z }.

(** A regular file has its bytes and its modification time; a directory
    has only the [stat] values the operating system reports for it. *)
Inductive node : Type :=
| File (data : list byte) (mtime : Z)
| Dir (st : stat_result).

Abbreviation filesystem := (gmap path node).

(** The [stat] of the root and of a directory made by [mkdir]. The
    program compares them only when a tracked path is a directory; the
    values are fixed here. *)
Definition root_stat : stat_result := {| st_size := 0; st_mtime := 0 |}.
Definition fresh_dir_stat : stat_result := {| st_size := 0; st_mtime := 0 |}.

(** The root always exists and is a directory. *)
Definition node_at (fs : filesystem) (p : path) : option node :=
  match p with
  | [] => Some (Dir root_stat)
  | _ => fs !! p
  end.

(** [p.exists()] *)
Definition exists_ (fs : filesystem) (p : path) : bool :=
  match node_at fs p with Some _ => true | None => false end.

(** [p.is_dir()] *)
Definition is_dir (fs : filesystem) (p : path) : bool :=
  match node_at fs p with Some (Dir _) => true | _ => false end.

(** [p.is_file()] *)
Definition is_file (fs : filesystem) (p : path) : bool :=
  match node_at fs p with Some (File _ _) => true | _ => false end.

(** [p.stat()], [None] when it raises [OSError]. *)
Definition stat (fs : filesystem) (p : path) : option stat_result :=
  match node_at fs p with
  | Some (File data mtime) =>
      Some {| st_size := Z.of_nat (length data); st_mtime := mtime |}
  | Some (Dir st) => Some st
  | None => None
  end.

(** [open(p, "rb").read()] *)
Definition read_bytes (fs : filesystem) (p : path) : result (list byte) :=
  match node_at fs p with
  | Some (File data _) => Ok data
  | Some (Dir _) => Raise (IsADirectoryError "Is a directory")
  | None => Raise (FileNotFoundError "No such file or directory")
  end.

(** The non-empty prefixes of a path, shortest first. *)
Fixpoint ancestors_and_self (pre : path) (p : path) : list path :=
  match p with
  | [] => []
  | c :: p' => (pre ++ [c]) :: ancestors_and_self (pre ++ [c]) p'
  end.

(** One step of [mkdir(parents=True, exist_ok=True)]: make [q] unless
    it is a directory already. *)
Definition mkdir_step (target : path) (acc : result filesystem) (q : path)
  : result filesystem :=
  match acc with
  | Raise e => Raise e
  | Ok fs =>
      match node_at fs q with
      | Some (Dir _) => Ok fs
      | Some (File _ _) =>
          if bool_decide (q = target)
          then Raise (FileExistsError "File exists")
          else Raise (NotADirectoryError "Not a directory")
      | None => Ok (<[q := Dir fresh_dir_stat]> fs)
      end
  end.

(** [p.mkdir(parents=True, exist_ok=True)] *)
Definition mkdir_p (p : path) (fs : filesystem) : result filesystem :=
  fold_left (mkdir_step p) (ancestors_and_self [] p) (Ok fs).

(** [shutil.copy2(src, dst)]: the bytes and the modification time of
    [src] are written to [dst] (into [dst], under the name of [src],
    when [dst] is a directory). *)
Definition copy2 (src dst : path) (fs : filesystem) : result filesystem :=
  let dst' := if is_dir fs dst then joinpath dst (name src) else dst in
  if bool_decide (src = dst') && exists_ fs src
  then Raise (SameFileError "are the same file")
  else
    match node_at fs src with
    | None => Raise (FileNotFoundError "No such file or directory")
    | Some (Dir _) => Raise (IsADirectoryError "Is a directory")
    | Some (File data mtime) =>
        match node_at fs dst' with
        | Some (Dir _) => Raise (IsADirectoryError "Is a directory")
        | _ =>
            match node_at fs (parent dst') with
            | Some (Dir _) => Ok (<[dst' := File data mtime]> fs)
            | Some (File _ _) => Raise (NotADirectoryError "Not a directory")
            | None => Raise (FileNotFoundError "No such file or directory")
            end
        end
    end.

(** [p.unlink()] *)
Definition unlink (p : path) (fs : filesystem) : result filesystem :=
  match node_at fs p with
  | Some (File _ _) => Ok (delete p fs)
  | Some (Dir _) => Raise (IsADirectoryError "Is a directory")
  | None => Raise (FileNotFoundError "No such file or directory")
  end.

(** [q] is an entry of the directory [p]. *)
Definition is_child (p q : path) : bool :=
  bool_decide (q <> [] /\ parent q = p).

(** [list(p.iterdir())] *)
Definition iterdir (fs : filesystem) (p : path) : list path :=
  List.filter (is_child p) (map fst (map_to_list fs)).

(** [any(p.iterdir())] *)
Definition any_iterdir (fs : filesystem) (p : path) : bool :=
  match iterdir fs p with [] => false | _ :: _ => true end.

(** [p.rmdir()] *)
Definition rmdir (p : path) (fs : filesystem) : result filesystem :=
  match p, node_at fs p with
  | [], _ => Raise (OSError "Device or resource busy")
  | _, Some (Dir _) =>
      if any_iterdir fs p then Raise (OSError "Directory not empty")
      else Ok (delete p fs)
  | _, Some (File _ _) => Raise (NotADirectoryError "Not a directory")
  | _, None => Raise (FileNotFoundError "No such file or directory")
  end.

(** [shutil.rmtree(p)] *)
Definition rmtree (p : path) (fs : filesystem) : result filesystem :=
  match node_at fs p with
  | Some (Dir _) =>
      Ok (filter (fun kv => ~ p `prefix_of` (kv.1)) fs)
  | Some (File _ _) => Raise (NotADirectoryError "Not a directory")
  | None => Raise (FileNotFoundError "No such file or directory")
  end.

(** One file met by [os.walk(root)]: its directory, its name and the
    result of [stat]. *)
Record walk_entry : Type :=
  { we_dirpath : path; we_name : string; we_stat : option stat_result }.

(** [os.walk(top)], top-down, flattened as the two nested loops of the
    scan meet it: the regular files of [top] first, then the walk of each
    of its sub-directories in turn. The order in which a directory is
    listed is the operating system's; the model lists in key order.
    [depth] bounds the nesting of directories that is followed. *)
Fixpoint walk_top_down (depth : nat) (fs : filesystem) (top : path)
  : list walk_entry :=
  match depth with
  | O => []
  | S depth =>
      let listing := iterdir fs top in
      omap (fun q =>
              match node_at fs q with
              | Some (File _ _) =>
                  Some {| we_dirpath := top;
                          we_name := name q;
                          we_stat := stat fs q |}
              | _ => None
              end) listing
      ++ flat_map (fun q =>
                     match node_at fs q with
                     | Some (Dir _) => walk_top_down depth fs q
                     | _ => []
                     end) listing
  end.

(** The length of the longest path of the file system: no directory is
    nested deeper. *)
Definition deepest (fs : filesystem) : nat :=
  fold_right Nat.max 0%nat (map (fun kv : path * node => length kv.1)
                              (map_to_list fs)).

(** The files [for dirpath, _, filenames in os.walk(root): for name in
    filenames] meets, in that order. *)
Definition walk_files (fs : filesystem) (root : path) : list walk_entry :=
  walk_top_down (S (deepest fs)) fs root.

(** Every entry lies in a directory. *)
Definition well_formed (fs : filesystem) : Prop :=
  forall q n, fs !! q = Some n -> q <> [] /\ is_dir fs (parent q) = true.

(** [fs'] is [fs] with, possibly, some new empty directories. *)
Definition only_new_dirs (fs fs' : filesystem) : Prop :=
  forall q, fs' !! q = fs !! q
            \/ (fs !! q = None /\ fs' !! q = Some (Dir fresh_dir_stat)).

(** [open(p, "wb").write(data)] at time [now]. *)
Definition write_bytes (p : path) (data : list byte) (now : Z)
  (fs : filesystem) : result filesystem :=
  match node_at fs p with
  | Some (Dir _) => Raise (IsADirectoryError "Is a directory")
  | _ =>
      match node_at fs (parent p) with
      | Some (Dir _) => Ok (<[p := File data now]> fs)
      | Some (File _ _) => Raise (NotADirectoryError "Not a directory")
      | None => Raise (FileNotFoundError "No such file or directory")
      end
  end.

End Os.

(** ** [database/models.py] *)
Module Models.
Import Pathlib.

Inductive FileStatus : Type := OK | MODIFIED | MISSING.

Inductive EventType : Type :=
| RESTORE | PIN | UNPIN | DELETE
| VERIFY_OK | VERIFY_MODIFIED | VERIFY_MISSING | RELINK.

#[global] Instance FileStatus_eq_dec : EqDecision FileStatus.
Proof. solve_decision. Defined.
#[global] Instance EventType_eq_dec : EqDecision EventType.
Proof. solve_decision. Defined.

Module TrackedFile.
Record t : Type := mk
  { id : string;
    display_name : string;
    file_path : path;
    file_size : Z;
    modified_time : Z;
    status : FileStatus;
    created_at : string;
    file_hash : option string;
    is_favorite : bool;
    is_archived : bool;
    project_id : option string }.
End TrackedFile.

Module Version.
Record t : Type := mk
  { id : string;
    file_id : string;
    version_number : Z;
    commit_message : string;
    file_size : Z;
    modified_time : Z;
    created_at : string;
    file_hash : option string;
    is_pinned : bool;
    pinned_path : option path }.
End Version.

Module Event.
Record t : Type := mk
  { id : string;
    file_id : string;
    event_type : EventType;
    description : option string;
    created_at : string }.
End Event.

(** A row of [metadata] and a row of [tag_links]. *)
Module Metadata.
Record t : Type := mk
  { file_id : string; data : string;
    created_at : string; updated_at : string }.
End Metadata.

Module TagLink.
Record t : Type := mk
  { id : string; tag_id : string;
    file_id : option string; version_id : option string;
    created_at : string }.
End TagLink.

End Models.

(** ** [core/verification.py] *)
Module Verification.
Import Py Pathlib Os Models.

(** The hash algorithm chosen at import time ([xxhash.xxh64] when it can
    be imported, [hashlib.sha256] otherwise). Both digests print as a
    fixed, positive number of hexadecimal digits. *)
Class HashAlgorithm : Type :=
  { hexdigest : list byte -> string;
    hexdigest_nonempty : forall data, hexdigest data <> "" }.

Record FileState : Type :=
  { exists_ : bool;
    file_size : Z;
    modified_time : Z;
    file_hash : option string }.

Section WithHash.
Context `{HashAlgorithm}.

(** [compute_file_hash(file_path)]: [None] when the path does not
    exist or reading it raises [IOError]/[OSError]. *)
Definition compute_file_hash (fs : filesystem) (file_path : path)
  : option string :=
  if negb (Os.exists_ fs file_path) then None
  else
    match read_bytes fs file_path with
    | Ok data => Some (hexdigest data)
    | Raise _ => None
    end.

(** [get_file_state(file_path, compute_hash)] *)
Definition get_file_state (fs : filesystem) (file_path : path)
  (compute_hash : bool) : FileState :=
  match Os.stat fs file_path with
  | None =>
      {| exists_ := false; file_size := 0; modified_time := 0;
         file_hash := None |}
  | Some st =>
      {| exists_ := true;
         file_size := st_size st;
         modified_time := st_mtime st;
         file_hash :=
           if compute_hash then compute_file_hash fs file_path else None |}
  end.

(** [check_file_status(tracked_file, use_hash)] *)
Definition check_file_status (fs : filesystem) (tracked_file : TrackedFile.t)
  (use_hash : bool) : FileStatus :=
  let state := get_file_state fs (TrackedFile.file_path tracked_file) false in
  if negb (exists_ state) then MISSING
  else if negb (file_size state =? TrackedFile.file_size tracked_file)
          || negb (modified_time state =? TrackedFile.modified_time tracked_file)
  then
    if use_hash && truthy_str (TrackedFile.file_hash tracked_file)
    then
      let current_hash :=
        compute_file_hash fs (TrackedFile.file_path tracked_file) in
      if truthy_str current_hash
         && bool_decide (current_hash = TrackedFile.file_hash tracked_file)
      then OK else MODIFIED
    else MODIFIED
  else OK.

End WithHash.

(** [has_file_changed(tracked_file, current_state)] *)
Definition has_file_changed (tracked_file : TrackedFile.t)
  (current_state : FileState) : bool :=
  if negb (exists_ current_state) then true
  else negb (file_size current_state =? TrackedFile.file_size tracked_file)
       || negb (modified_time current_state
                =? TrackedFile.modified_time tracked_file).

Record VerificationResult : Type :=
  { is_valid : bool;
    expected_hash : option string;
    actual_hash : option string;
    error : option string }.

Section WithHash.
Context `{HashAlgorithm}.

(** [verify_file_hash(file_path, expected_hash)]. [compute_file_hash]
    catches [IOError] and [OSError] itself, so the [except Exception]
    arm is not reached from the file system. *)
Definition verify_file_hash (fs : filesystem) (file_path : path)
  (expected : string) : VerificationResult :=
  if negb (Os.exists_ fs file_path)
  then {| is_valid := false; expected_hash := Some expected;
          actual_hash := None; error := Some "File not found" |}
  else
    match compute_file_hash fs file_path with
    | None =>
        {| is_valid := false; expected_hash := Some expected;
           actual_hash := None; error := Some "Failed to compute hash" |}
    | Some actual =>
        let valid := String.eqb actual expected in
        {| is_valid := valid; expected_hash := Some expected;
           actual_hash := Some actual;
           error := if valid then None else Some "Hash mismatch" |}
    end.

End WithHash.

End Verification.

(** ** [database/db_manager.py]: rows and CRUD operations

    Each table is the list of its rows in insertion (rowid) order. Every
    operation of the source opens a connection, runs its statements and
    commits, so an operation is a function from the database before to
    the database after. *)
Module DatabaseManager.
Import Py Pathlib Models.

Record Db : Type := mkDb
  { files : list TrackedFile.t;
    versions : list Version.t;
    events : list Event.t;
    metadata : list Metadata.t;
    tag_links : list TagLink.t }.

Definition empty_db : Db := mkDb [] [] [] [] [].

(** The per-connection settings of SQLite that matter here. *)
Record Connection : Type := { foreign_keys : bool }.

(** [_get_connection]: [sqlite3.connect(self.db_path)] and nothing else.
    A new SQLite connection does not enforce foreign keys until
    [PRAGMA foreign_keys = ON] is issued on it. *)
Definition _get_connection : Connection := {| foreign_keys := false |}.

(** *** SQL statements on rows *)

(** [DELETE FROM t WHERE p] *)
Definition delete_where {A} (p : A -> bool) (rows : list A) : list A :=
  List.filter (fun r => negb (p r)) rows.

(** [UPDATE t SET ... WHERE p] *)
Definition update_where {A} (p : A -> bool) (f : A -> A) (rows : list A)
  : list A :=
  map (fun r => if p r then f r else r) rows.

(** [SELECT ... WHERE p] followed by [fetchone()] *)
Definition fetchone_where {A} (p : A -> bool) (rows : list A) : option A :=
  List.find p rows.

Definition opt_is (s : string) (o : option string) : bool :=
  match o with Some x => String.eqb x s | None => false end.

(** The effect of [ON DELETE CASCADE] when the row of file [file_id] is
    deleted: the schema declares it on [versions.file_id],
    [tag_links.file_id], [tag_links.version_id], [events.file_id] and
    [metadata.file_id]. *)
Definition cascade_file_delete (file_id : string) (db : Db) : Db :=
  let gone_versions :=
    map Version.id
      (List.filter (fun v => String.eqb (Version.file_id v) file_id)
         (versions db)) in
  {| files := files db;
     versions :=
       delete_where (fun v => String.eqb (Version.file_id v) file_id)
         (versions db);
     events :=
       delete_where (fun e => String.eqb (Event.file_id e) file_id)
         (events db);
     metadata :=
       delete_where (fun m => String.eqb (Metadata.file_id m) file_id)
         (metadata db);
     tag_links :=
       delete_where
         (fun l => opt_is file_id (TagLink.file_id l)
                   || match TagLink.version_id l with
                      | Some v => existsb (String.eqb v) gone_versions
                      | None => false
                      end)
         (tag_links db) |}.

(** [DELETE FROM files WHERE id = ?] on a connection. *)
Definition sql_delete_file_row (conn : Connection) (file_id : string)
  (db : Db) : Db :=
  let db' := if foreign_keys conn && existsb
                  (fun f => String.eqb (TrackedFile.id f) file_id) (files db)
             then cascade_file_delete file_id db else db in
  {| files :=
       delete_where (fun f => String.eqb (TrackedFile.id f) file_id)
         (files db');
     versions := versions db';
     events := events db';
     metadata := metadata db';
     tag_links := tag_links db' |}.

(** *** File operations *)

(** [create_file]: the INSERT fails on a duplicate primary key or a
    duplicate [file_path] (declared UNIQUE). *)
Definition create_file (new_id now : string)
  (display_name : string) (file_path : path) (file_size modified_time : Z)
  (file_hash : option string) (db : Db) : result (Db * TrackedFile.t) :=
  let row :=
    TrackedFile.mk new_id display_name file_path file_size modified_time
      OK now file_hash false false None in
  if existsb (fun f => String.eqb (TrackedFile.id f) new_id) (files db)
  then Raise (IntegrityError "UNIQUE constraint failed: files.id")
  else if existsb (fun f => bool_decide (TrackedFile.file_path f = file_path))
            (files db)
  then Raise (IntegrityError "UNIQUE constraint failed: files.file_path")
  else Ok ({| files := files db ++ [row];
              versions := versions db;
              events := events db;
              metadata := metadata db;
              tag_links := tag_links db |}, row).

Definition get_file (db : Db) (file_id : string) : option TrackedFile.t :=
  fetchone_where (fun f => String.eqb (TrackedFile.id f) file_id) (files db).

Definition get_file_by_path (db : Db) (file_path : path)
  : option TrackedFile.t :=
  fetchone_where (fun f => bool_decide (TrackedFile.file_path f = file_path))
    (files db).

(** [ORDER BY created_at DESC], keeping rows with equal keys in rowid
    order. *)
Fixpoint insert_created_desc (f : TrackedFile.t) (l : list TrackedFile.t)
  : list TrackedFile.t :=
  match l with
  | [] => [f]
  | g :: l' =>
      if String.leb (TrackedFile.created_at g) (TrackedFile.created_at f)
      then f :: l
      else g :: insert_created_desc f l'
  end.
Definition order_by_created_at_desc (l : list TrackedFile.t)
  : list TrackedFile.t :=
  fold_right insert_created_desc [] l.

Definition get_all_files (db : Db) (include_archived : bool)
  : list TrackedFile.t :=
  order_by_created_at_desc
    (if include_archived then files db
     else List.filter (fun f => negb (TrackedFile.is_archived f)) (files db)).

Definition with_files (db : Db) (fl : list TrackedFile.t) : Db :=
  {| files := fl; versions := versions db; events := events db;
     metadata := metadata db; tag_links := tag_links db |}.

Definition with_versions (db : Db) (vl : list Version.t) : Db :=
  {| files := files db; versions := vl; events := events db;
     metadata := metadata db; tag_links := tag_links db |}.

Definition with_events (db : Db) (el : list Event.t) : Db :=
  {| files := files db; versions := versions db; events := el;
     metadata := metadata db; tag_links := tag_links db |}.

Definition with_metadata (db : Db) (ml : list Metadata.t) : Db :=
  {| files := files db; versions := versions db; events := events db;
     metadata := ml; tag_links := tag_links db |}.

Definition update_file_status (file_id : string) (status : FileStatus)
  (db : Db) : Db :=
  with_files db
    (update_where (fun f => String.eqb (TrackedFile.id f) file_id)
       (fun f =>
          TrackedFile.mk (TrackedFile.id f) (TrackedFile.display_name f)
            (TrackedFile.file_path f) (TrackedFile.file_size f)
            (TrackedFile.modified_time f) status (TrackedFile.created_at f)
            (TrackedFile.file_hash f) (TrackedFile.is_favorite f)
            (TrackedFile.is_archived f) (TrackedFile.project_id f))
       (files db)).

(** [update_file_metadata]: [file_hash] defaults to [None], and the
    UPDATE always assigns the column. *)
Definition set_metadata_fields (file_size modified_time : Z)
  (status : FileStatus) (file_hash : option string) (f : TrackedFile.t)
  : TrackedFile.t :=
  TrackedFile.mk (TrackedFile.id f) (TrackedFile.display_name f)
    (TrackedFile.file_path f) file_size modified_time status
    (TrackedFile.created_at f) file_hash (TrackedFile.is_favorite f)
    (TrackedFile.is_archived f) (TrackedFile.project_id f).

Definition update_file_metadata (file_id : string)
  (file_size modified_time : Z) (status : FileStatus)
  (file_hash : option string) (db : Db) : Db :=
  with_files db
    (update_where (fun f => String.eqb (TrackedFile.id f) file_id)
       (set_metadata_fields file_size modified_time status file_hash)
       (files db)).

Definition set_location_fields (file_path : path)
  (file_size modified_time : Z) (status : FileStatus)
  (file_hash : option string) (f : TrackedFile.t) : TrackedFile.t :=
  TrackedFile.mk (TrackedFile.id f) (TrackedFile.display_name f)
    file_path file_size modified_time status
    (TrackedFile.created_at f) file_hash (TrackedFile.is_favorite f)
    (TrackedFile.is_archived f) (TrackedFile.project_id f).

(** [update_file_location]: the UPDATE fails when another row already
    has the new [file_path]. *)
Definition update_file_location (file_id : string) (file_path : path)
  (file_size modified_time : Z) (status : FileStatus)
  (file_hash : option string) (db : Db) : result Db :=
  if existsb (fun f => String.eqb (TrackedFile.id f) file_id) (files db)
     && existsb (fun f => bool_decide (TrackedFile.file_path f = file_path)
                          && negb (String.eqb (TrackedFile.id f) file_id))
          (files db)
  then Raise (IntegrityError "UNIQUE constraint failed: files.file_path")
  else
    Ok (with_files db
          (update_where (fun f => String.eqb (TrackedFile.id f) file_id)
             (set_location_fields file_path file_size modified_time status
                file_hash)
             (files db))).

Definition update_display_name (file_id display_name : string) (db : Db)
  : Db :=
  with_files db
    (update_where (fun f => String.eqb (TrackedFile.id f) file_id)
       (fun f =>
          TrackedFile.mk (TrackedFile.id f) display_name
            (TrackedFile.file_path f) (TrackedFile.file_size f)
            (TrackedFile.modified_time f) (TrackedFile.status f)
            (TrackedFile.created_at f) (TrackedFile.file_hash f)
            (TrackedFile.is_favorite f) (TrackedFile.is_archived f)
            (TrackedFile.project_id f))
       (files db)).

(** [delete_file]: three DELETE statements on one connection. *)
Definition delete_file (file_id : string) (db : Db) : Db :=
  let conn := _get_connection in
  let db1 :=
    with_versions db
      (delete_where (fun v => String.eqb (Version.file_id v) file_id)
         (versions db)) in
  let db2 :=
    with_metadata db1
      (delete_where (fun m => String.eqb (Metadata.file_id m) file_id)
         (metadata db1)) in
  sql_delete_file_row conn file_id db2.

(** *** Version operations *)

(** [SELECT MAX(version_number) FROM versions WHERE file_id = ?]:
    NULL when no row matches. *)
Definition max_step (file_id : string) (acc : option Z) (v : Version.t)
  : option Z :=
  if String.eqb (Version.file_id v) file_id
  then match acc with
       | None => Some (Version.version_number v)
       | Some m => Some (Z.max m (Version.version_number v))
       end
  else acc.

Definition max_version_number (db : Db) (file_id : string) : option Z :=
  fold_left (max_step file_id) (versions db) None.

(** [get_next_version_number]: [(result or 0) + 1]. *)
Definition get_next_version_number (db : Db) (file_id : string) : Z :=
  let result := max_version_number db file_id in
  (if truthy_int result then default 0 result else 0) + 1.

(** [create_version]: the INSERT names eight columns; [is_pinned] takes
    its default [0] and [pinned_path] is NULL. It fails on a duplicate
    primary key, and on a missing parent row when the connection
    enforces foreign keys. *)
Definition create_version (new_id now : string)
  (file_id commit_message : string) (file_size modified_time : Z)
  (file_hash : option string) (db : Db) : result (Db * Version.t) :=
  let conn := _get_connection in
  let version_number := get_next_version_number db file_id in
  let row :=
    Version.mk new_id file_id version_number commit_message file_size
      modified_time now file_hash false None in
  if existsb (fun v => String.eqb (Version.id v) new_id) (versions db)
  then Raise (IntegrityError "UNIQUE constraint failed: versions.id")
  else if foreign_keys conn
          && negb (existsb (fun f => String.eqb (TrackedFile.id f) file_id)
                     (files db))
  then Raise (IntegrityError "FOREIGN KEY constraint failed")
  else Ok (with_versions db (versions db ++ [row]), row).

(** [ORDER BY version_number DESC] *)
Fixpoint insert_version_desc (v : Version.t) (l : list Version.t)
  : list Version.t :=
  match l with
  | [] => [v]
  | w :: l' =>
      if Version.version_number w <=? Version.version_number v
      then v :: l
      else w :: insert_version_desc v l'
  end.

Definition get_versions (db : Db) (file_id : string) : list Version.t :=
  fold_right insert_version_desc []
    (List.filter (fun v => String.eqb (Version.file_id v) file_id)
       (versions db)).

Definition get_version_by_number (db : Db) (file_id : string)
  (version_number : Z) : option Version.t :=
  fetchone_where
    (fun v => String.eqb (Version.file_id v) file_id
              && (Version.version_number v =? version_number))
    (versions db).

Definition set_pin_fields (is_pinned : bool) (pinned_path : option path)
  (v : Version.t) : Version.t :=
  Version.mk (Version.id v) (Version.file_id v) (Version.version_number v)
    (Version.commit_message v) (Version.file_size v)
    (Version.modified_time v) (Version.created_at v) (Version.file_hash v)
    is_pinned pinned_path.

Definition set_version_pinned (file_id : string) (version_number : Z)
  (is_pinned : bool) (pinned_path : option path) (db : Db) : Db :=
  with_versions db
    (update_where
       (fun v => String.eqb (Version.file_id v) file_id
                 && (Version.version_number v =? version_number))
       (set_pin_fields is_pinned pinned_path)
       (versions db)).

(** *** Event operations *)

Definition create_event (new_id now : string) (file_id : string)
  (event_type : EventType) (description : option string) (db : Db)
  : result (Db * Event.t) :=
  let conn := _get_connection in
  let row := Event.mk new_id file_id event_type description now in
  if existsb (fun e => String.eqb (Event.id e) new_id) (events db)
  then Raise (IntegrityError "UNIQUE constraint failed: events.id")
  else if foreign_keys conn
          && negb (existsb (fun f => String.eqb (TrackedFile.id f) file_id)
                     (files db))
  then Raise (IntegrityError "FOREIGN KEY constraint failed")
  else Ok (with_events db (events db ++ [row]), row).

Definition delete_events_for_file (file_id : string) (db : Db) : Db * Z :=
  let kept :=
    delete_where (fun e => String.eqb (Event.file_id e) file_id) (events db) in
  (with_events db kept,
   Z.of_nat (length (events db)) - Z.of_nat (length kept)).

(** The version numbers of a file, in insertion order. *)
Definition version_numbers (db : Db) (file_id : string) : list Z :=
  map Version.version_number
    (List.filter (fun v => String.eqb (Version.file_id v) file_id)
       (versions db)).

(** *** Favorites and the archive *)

Definition set_favorite_field (is_favorite : bool) (f : TrackedFile.t)
  : TrackedFile.t :=
  TrackedFile.mk (TrackedFile.id f) (TrackedFile.display_name f)
    (TrackedFile.file_path f) (TrackedFile.file_size f)
    (TrackedFile.modified_time f) (TrackedFile.status f)
    (TrackedFile.created_at f) (TrackedFile.file_hash f) is_favorite
    (TrackedFile.is_archived f) (TrackedFile.project_id f).

Definition set_archived_field (is_archived : bool) (f : TrackedFile.t)
  : TrackedFile.t :=
  TrackedFile.mk (TrackedFile.id f) (TrackedFile.display_name f)
    (TrackedFile.file_path f) (TrackedFile.file_size f)
    (TrackedFile.modified_time f) (TrackedFile.status f)
    (TrackedFile.created_at f) (TrackedFile.file_hash f)
    (TrackedFile.is_favorite f) is_archived (TrackedFile.project_id f).

Definition set_project_field (project_id : option string) (f : TrackedFile.t)
  : TrackedFile.t :=
  TrackedFile.mk (TrackedFile.id f) (TrackedFile.display_name f)
    (TrackedFile.file_path f) (TrackedFile.file_size f)
    (TrackedFile.modified_time f) (TrackedFile.status f)
    (TrackedFile.created_at f) (TrackedFile.file_hash f)
    (TrackedFile.is_favorite f) (TrackedFile.is_archived f) project_id.

(** [WHERE is_archived = 1 ORDER BY created_at DESC] *)
Definition get_archived_files (db : Db) : list TrackedFile.t :=
  order_by_created_at_desc (List.filter TrackedFile.is_archived (files db)).

Definition set_favorite (file_id : string) (is_favorite : bool) (db : Db)
  : Db :=
  with_files db
    (update_where (fun f => String.eqb (TrackedFile.id f) file_id)
       (set_favorite_field is_favorite) (files db)).

(** [toggle_favorite]: [SET is_favorite = NOT COALESCE(is_favorite, 0)],
    then the new value is read back; [False] when there is no row. *)
Definition toggle_favorite (file_id : string) (db : Db) : Db * bool :=
  let db' :=
    with_files db
      (update_where (fun f => String.eqb (TrackedFile.id f) file_id)
         (fun f => set_favorite_field (negb (TrackedFile.is_favorite f)) f)
         (files db)) in
  (db',
   match fetchone_where (fun f => String.eqb (TrackedFile.id f) file_id)
           (files db') with
   | Some row => TrackedFile.is_favorite row
   | None => false
   end).

Definition set_archived (file_id : string) (is_archived : bool) (db : Db)
  : Db :=
  with_files db
    (update_where (fun f => String.eqb (TrackedFile.id f) file_id)
       (set_archived_field is_archived) (files db)).

Definition unarchive_file (file_id : string) (db : Db) : Db :=
  set_archived file_id false db.

(** *** The project of a file *)

Definition set_file_project (file_id : string) (project_id : option string)
  (db : Db) : Db :=
  with_files db
    (update_where (fun f => String.eqb (TrackedFile.id f) file_id)
       (set_project_field project_id) (files db)).

(** [get_files_by_project]: [if project_id:] sends [None] and the empty
    string to the [project_id IS NULL] queries. *)
Definition get_files_by_project (db : Db) (project_id : option string)
  (include_archived : bool) : list TrackedFile.t :=
  let in_project (f : TrackedFile.t) : bool :=
    if truthy_str project_id
    then opt_is (default "" project_id) (TrackedFile.project_id f)
    else match TrackedFile.project_id f with
         | None => true
         | Some _ => false
         end in
  order_by_created_at_desc
    (List.filter
       (fun f => in_project f
                 && (include_archived || negb (TrackedFile.is_archived f)))
       (files db)).

(** [get_project_file_count]: the number of rows of [files] with
    [project_id = ?]. *)
Definition get_project_file_count (db : Db) (project_id : string) : Z :=
  Z.of_nat
    (length
       (List.filter (fun f => opt_is project_id (TrackedFile.project_id f))
          (files db))).

(** *** More version queries *)

(** [get_latest_version]: the query of [get_versions] with [LIMIT 1]. *)
Definition get_latest_version (db : Db) (file_id : string)
  : option Version.t :=
  List.head
    (firstn 1
       (fold_right insert_version_desc []
          (List.filter (fun v => String.eqb (Version.file_id v) file_id)
             (versions db)))).

(** [ORDER BY created_at DESC] on versions, rows with equal keys in rowid
    order. *)
Fixpoint insert_version_created_desc (v : Version.t) (l : list Version.t)
  : list Version.t :=
  match l with
  | [] => [v]
  | w :: l' =>
      if String.leb (Version.created_at w) (Version.created_at v)
      then v :: l
      else w :: insert_version_created_desc v l'
  end.

(** [get_pinned_versions(file_id)]: [if file_id:] sends [None] and the
    empty string to the query over all files. *)
Definition get_pinned_versions (db : Db) (file_id : option string)
  : list Version.t :=
  if truthy_str file_id
  then
    fold_right insert_version_desc []
      (List.filter
         (fun v => String.eqb (Version.file_id v) (default "" file_id)
                   && Version.is_pinned v)
         (versions db))
  else
    fold_right insert_version_created_desc []
      (List.filter Version.is_pinned (versions db)).

(** *** More event queries *)

(** [ORDER BY created_at DESC] or [ASC] on events, rows with equal keys in
    rowid order. *)
Fixpoint insert_event (order_desc : bool) (e : Event.t) (l : list Event.t)
  : list Event.t :=
  match l with
  | [] => [e]
  | g :: l' =>
      if (if order_desc
          then String.leb (Event.created_at g) (Event.created_at e)
          else String.leb (Event.created_at e) (Event.created_at g))
      then e :: l
      else g :: insert_event order_desc e l'
  end.

(** The integers SQLite stores: signed, 64 bits. *)
Definition is_int64 (n : Z) : bool :=
  (- 2 ^ 63 <=? n) && (n <=? 2 ^ 63 - 1).

(** [LIMIT n], with the decimal text of [n] written into the query: a
    negative [n] is no limit. A literal outside the 64-bit integers is
    read as a real number, which SQLite refuses as a limit when the
    statement runs ([sqlite3.IntegrityError]). *)
Definition sql_limit {A} (n : Z) (rows : list A) : result (list A) :=
  if is_int64 n
  then Ok (if n <? 0 then rows else firstn (Z.to_nat n) rows)
  else Raise (IntegrityError "datatype mismatch").

(** [get_events(file_id, limit, order_desc)]: [if limit:] adds the
    [LIMIT] clause, so [None] and [0] both list everything. *)
Definition get_events (db : Db) (file_id : string) (limit : option Z)
  (order_desc : bool) : result (list Event.t) :=
  let rows :=
    fold_right (insert_event order_desc) []
      (List.filter (fun e => String.eqb (Event.file_id e) file_id)
         (events db)) in
  if truthy_int limit then sql_limit (default 0 limit) rows else Ok rows.

(** Sorted by version number, highest first. *)
Definition by_number_desc (v w : Version.t) : Prop :=
  Version.version_number w <= Version.version_number v.

End DatabaseManager.

(** ** [database/models.py] and [database/db_manager.py]: tags

    The [tags] table stands beside the tables of [DatabaseManager.Db];
    the tag operations read and write [tags] and [tag_links] only. *)
Module Tags.
Import Py Pathlib Models.

Module Tag.
Record t : Type := mk
  { id : string;
    name : string;           (* stored lowercase, without # *)
    created_at : string }.

(** [f"#{self.name}"] *)
Definition display_name (tag : t) : string := "#" +:+ name tag.

(** The ASCII characters [str.strip()] removes: TAB, LF, VT, FF, CR, the
    separators FS, GS, RS, US, and the space. *)
Definition is_space (c : ascii) : bool :=
  let n := nat_of_ascii c in
  ((9 <=? n)%nat && (n <=? 13)%nat)
  || ((28 <=? n)%nat && (n <=? 32)%nat).

Fixpoint lstrip (s : string) : string :=
  match s with
  | String c s' => if is_space c then lstrip s' else s
  | EmptyString => EmptyString
  end.

Fixpoint rstrip (s : string) : string :=
  match s with
  | EmptyString => EmptyString
  | String c s' =>
      match rstrip s' with
      | EmptyString => if is_space c then EmptyString else String c EmptyString
      | r => String c r
      end
  end.

(** [s.strip()] *)
Definition strip (s : string) : string := rstrip (lstrip s).

(** [Tag.normalize(tag_name)], on ASCII text: strip, drop one leading
    [#], lowercase. *)
Definition normalize (tag_name : string) : string :=
  let name := strip tag_name in
  let name :=
    match name with
    | String "#" rest => rest
    | _ => name
    end in
  lower name.

End Tag.

Record Store : Type :=
  { db : DatabaseManager.Db;
    tags : list Tag.t }.

Definition with_tags (s : Store) (tl : list Tag.t) : Store :=
  {| db := db s; tags := tl |}.

Definition with_tag_links (s : Store) (ll : list TagLink.t) : Store :=
  {| db :=
       {| DatabaseManager.files := DatabaseManager.files (db s);
          DatabaseManager.versions := DatabaseManager.versions (db s);
          DatabaseManager.events := DatabaseManager.events (db s);
          DatabaseManager.metadata := DatabaseManager.metadata (db s);
          DatabaseManager.tag_links := ll |};
     tags := tags s |}.

Definition tag_links (s : Store) : list TagLink.t :=
  DatabaseManager.tag_links (db s).

(** [get_or_create_tag(tag_name)]: the row with the normalized name when
    there is one, otherwise a new row. The INSERT can only fail on its
    primary key: the SELECT has just shown the name to be free. *)
Definition get_or_create_tag (new_id now : string) (tag_name : string)
  (s : Store) : result (Store * Tag.t) :=
  let normalized_name := Tag.normalize tag_name in
  match DatabaseManager.fetchone_where
          (fun t => String.eqb (Tag.name t) normalized_name) (tags s) with
  | Some row => Ok (s, row)
  | None =>
      let row := Tag.mk new_id normalized_name now in
      if existsb (fun t => String.eqb (Tag.id t) new_id) (tags s)
      then Raise (IntegrityError "UNIQUE constraint failed: tags.id")
      else Ok (with_tags s (tags s ++ [row]), row)
  end.

(** [ORDER BY name] *)
Fixpoint insert_tag_by_name (t : Tag.t) (l : list Tag.t) : list Tag.t :=
  match l with
  | [] => [t]
  | u :: l' =>
      if String.leb (Tag.name t) (Tag.name u)
      then t :: l
      else u :: insert_tag_by_name t l'
  end.

Definition get_all_tags (s : Store) : list Tag.t :=
  fold_right insert_tag_by_name [] (tags s).

Definition links (tag_id file_id : string) (l : TagLink.t) : bool :=
  String.eqb (TagLink.tag_id l) tag_id
  && DatabaseManager.opt_is file_id (TagLink.file_id l).

(** [add_tag_to_file(tag_id, file_id)]: nothing when the link exists. No
    foreign key is enforced on the connection, so neither id is checked. *)
Definition add_tag_to_file (new_id now : string) (tag_id file_id : string)
  (s : Store) : result Store :=
  match DatabaseManager.fetchone_where (links tag_id file_id) (tag_links s) with
  | Some _ => Ok s
  | None =>
      if existsb (fun l => String.eqb (TagLink.id l) new_id) (tag_links s)
      then Raise (IntegrityError "UNIQUE constraint failed: tag_links.id")
      else
        Ok (with_tag_links s
              (tag_links s
               ++ [TagLink.mk new_id tag_id (Some file_id) None now]))
  end.

Definition remove_tag_from_file (tag_id file_id : string) (s : Store)
  : Store :=
  with_tag_links s
    (DatabaseManager.delete_where (links tag_id file_id) (tag_links s)).

(** [get_file_tags(file_id)]: [tags JOIN tag_links ON t.id = tl.tag_id
    WHERE tl.file_id = ? ORDER BY t.name], one row for each pair of a
    link and its tag. *)
Definition get_file_tags (s : Store) (file_id : string) : list Tag.t :=
  fold_right insert_tag_by_name []
    (flat_map
       (fun l =>
          List.filter (fun t => String.eqb (Tag.id t) (TagLink.tag_id l))
            (tags s))
       (List.filter
          (fun l => DatabaseManager.opt_is file_id (TagLink.file_id l))
          (tag_links s))).

(** [ORDER BY display_name] on files, rows with equal keys in join
    order. *)
Fixpoint insert_file_by_display_name (f : TrackedFile.t)
  (l : list TrackedFile.t) : list TrackedFile.t :=
  match l with
  | [] => [f]
  | g :: l' =>
      if String.leb (TrackedFile.display_name f) (TrackedFile.display_name g)
      then f :: l
      else g :: insert_file_by_display_name f l'
  end.

(** [get_files_by_tag(tag_id)]: [files JOIN tag_links ON f.id =
    tl.file_id WHERE tl.tag_id = ? ORDER BY f.display_name]. *)
Definition get_files_by_tag (s : Store) (tag_id : string)
  : list TrackedFile.t :=
  fold_right insert_file_by_display_name []
    (flat_map
       (fun l =>
          List.filter
            (fun f => DatabaseManager.opt_is (TrackedFile.id f)
                        (TagLink.file_id l))
            (DatabaseManager.files (db s)))
       (List.filter (fun l => String.eqb (TagLink.tag_id l) tag_id)
          (tag_links s))).

(** [tag_id IN (SELECT DISTINCT tag_id FROM tag_links)] *)
Definition is_linked (s : Store) (t : Tag.t) : bool :=
  existsb (fun l => String.eqb (TagLink.tag_id l) (Tag.id t)) (tag_links s).

(** [delete_unused_tags()]: the tags no link names are deleted; the
    result is [cursor.rowcount]. *)
Definition delete_unused_tags (s : Store) : Store * Z :=
  let kept := List.filter (is_linked s) (tags s) in
  (with_tags s kept,
   Z.of_nat (length (tags s)) - Z.of_nat (length kept)).

End Tags.

(** ** [database/models.py] and [database/db_manager.py]: projects

    The [projects] table stands beside the tables of
    [DatabaseManager.Db]; [delete_project] also writes [files]. *)
Module Projects.
Import Py Pathlib Models.

Module Project.
Record t : Type := mk
  { id : string;
    name : string;
    description : option string;
    color : string;
    created_at : string }.
End Project.

Record Store : Type :=
  { db : DatabaseManager.Db;
    projects : list Project.t }.

Definition with_projects (s : Store) (pl : list Project.t) : Store :=
  {| db := db s; projects := pl |}.

(** [create_project(name, description, color)]; [description] defaults
    to [None] and [color] to ["#007AFF"]. *)
Definition create_project (new_id now : string) (name : string)
  (description : option string) (color : string) (s : Store)
  : result (Store * Project.t) :=
  let row := Project.mk new_id name description color now in
  if existsb (fun p => String.eqb (Project.id p) new_id) (projects s)
  then Raise (IntegrityError "UNIQUE constraint failed: projects.id")
  else Ok (with_projects s (projects s ++ [row]), row).

Definition get_project (s : Store) (project_id : string)
  : option Project.t :=
  DatabaseManager.fetchone_where
    (fun p => String.eqb (Project.id p) project_id) (projects s).

(** [ORDER BY name] *)
Fixpoint insert_project_by_name (p : Project.t) (l : list Project.t)
  : list Project.t :=
  match l with
  | [] => [p]
  | q :: l' =>
      if String.leb (Project.name p) (Project.name q)
      then p :: l
      else q :: insert_project_by_name p l'
  end.

Definition get_all_projects (s : Store) : list Project.t :=
  fold_right insert_project_by_name [] (projects s).

(** The SET clauses [update_project] puts together: a column is
    assigned exactly when its argument is not [None]. *)
Definition apply_updates (name description color : option string)
  (p : Project.t) : Project.t :=
  Project.mk (Project.id p)
    (default (Project.name p) name)
    (match description with
     | Some d => Some d
     | None => Project.description p
     end)
    (default (Project.color p) color)
    (Project.created_at p).

(** [update_project(project_id, name, description, color)]: returns
    before touching the database when nothing is to be updated. *)
Definition update_project (project_id : string)
  (name description color : option string) (s : Store) : Store :=
  match name, description, color with
  | None, None, None => s
  | _, _, _ =>
      with_projects s
        (DatabaseManager.update_where
           (fun p => String.eqb (Project.id p) project_id)
           (apply_updates name description color) (projects s))
  end.

(** [delete_project(project_id)]: the files of the project are
    unassigned, then the project row is deleted. *)
Definition delete_project (project_id : string) (s : Store) : Store :=
  {| db :=
       DatabaseManager.with_files (db s)
         (DatabaseManager.update_where
            (fun f => DatabaseManager.opt_is project_id
                        (TrackedFile.project_id f))
            (DatabaseManager.set_project_field None)
            (DatabaseManager.files (db s)));
     projects :=
       DatabaseManager.delete_where
         (fun p => String.eqb (Project.id p) project_id) (projects s) |}.

End Projects.

(** ** [database/db_manager.py]: the schema and its migration

    The part of SQLite that [_init_database] drives: tables with their
    column declarations and rows, indexes, and the three statements
    [CREATE TABLE IF NOT EXISTS], [CREATE INDEX IF NOT EXISTS] and
    [ALTER TABLE ... ADD COLUMN], together with [PRAGMA table_info].
    The [sqlite3] module opens no transaction for these statements, so
    each one takes effect when it is executed. *)
Module Sqlite.
Import Py.

Inductive value : Type :=
| Null
| Integer (n : Z)
| Text (s : string).

Record column : Type :=
  { col_name : string;
    col_decl : string;        (* type and constraints, as written *)
    col_default : value }.    (* what rows older than the column read *)

Record table : Type :=
  { columns : list column;
    table_constraints : list string;
    rows : list (list value) }.

Record database : Type :=
  { tables : gmap string table;
    indexes : gmap string (string * string) }.   (* name ↦ (table, column) *)

(** The state behind a cursor: the database, and the statements that
    changed its schema so far. *)
Record cursor : Type :=
  { schema : database;
    changes : list string }.

Definition column_names (t : table) : list string := map col_name (columns t).

(** [CREATE TABLE IF NOT EXISTS name (cols, constraints)] *)
Definition create_table_if_not_exists (name : string) (cols : list column)
  (constraints : list string) : M cursor unit :=
fun c =>
  match tables (schema c) !! name with
  | Some _ => (c, Ok tt)
  | None =>
      match indexes (schema c) !! name with
      | Some _ =>
          (c, Raise (OperationalError ("there is already an index named " +:+ name)))
      | None =>
          ({| schema :=
                {| tables :=
                     <[name := {| columns := cols;
                                  table_constraints := constraints;
                                  rows := [] |}]> (tables (schema c));
                   indexes := indexes (schema c) |};
              changes := changes c ++ ["CREATE TABLE " +:+ name] |},
           Ok tt)
      end
  end.

(** [CREATE INDEX IF NOT EXISTS name ON tbl(col)] *)
Definition create_index_if_not_exists (name tbl col : string) : M cursor unit :=
fun c =>
  match tables (schema c) !! tbl with
  | None => (c, Raise (OperationalError ("no such table: main." +:+ tbl)))
  | Some t =>
      match tables (schema c) !! name with
      | Some _ =>
          (c, Raise (OperationalError ("there is already a table named " +:+ name)))
      | None =>
          match indexes (schema c) !! name with
          | Some _ => (c, Ok tt)
          | None =>
              if existsb (String.eqb col) (column_names t)
              then
                ({| schema :=
                      {| tables := tables (schema c);
                         indexes := <[name := (tbl, col)]> (indexes (schema c)) |};
                    changes := changes c ++ ["CREATE INDEX " +:+ name] |},
                 Ok tt)
              else
                (c, Raise (OperationalError ("no such column: " +:+ col)))
          end
      end
  end.

(** [PRAGMA table_info(tbl)] then [[row[1] for row in cursor.fetchall()]]:
    the column names, none for a table that does not exist. *)
Definition table_info (tbl : string) : M cursor (list string) :=
fun c =>
  (c, Ok match tables (schema c) !! tbl with
         | Some t => column_names t
         | None => []
         end).

(** [ALTER TABLE tbl ADD COLUMN col]: the rows that exist read the
    default of the new column. *)
Definition alter_table_add_column (tbl : string) (col : column) : M cursor unit :=
fun c =>
  match tables (schema c) !! tbl with
  | None => (c, Raise (OperationalError ("no such table: " +:+ tbl)))
  | Some t =>
      if existsb (String.eqb (col_name col)) (column_names t)
      then (c, Raise (OperationalError
                        ("duplicate column name: " +:+ col_name col)))
      else
        ({| schema :=
              {| tables :=
                   <[tbl := {| columns := columns t ++ [col];
                               table_constraints := table_constraints t;
                               rows := map (fun r => r ++ [col_default col])
                                         (rows t) |}]> (tables (schema c));
                 indexes := indexes (schema c) |};
            changes :=
              changes c ++ ["ALTER TABLE " +:+ tbl +:+ " ADD COLUMN "
                            +:+ col_name col] |},
         Ok tt)
  end.

(** [name not in columns] *)
Definition not_in (name : string) (cols : list string) : bool :=
  negb (existsb (String.eqb name) cols).

Definition col (name decl : string) : column :=
  {| col_name := name; col_decl := decl; col_default := Null |}.

(** *** The tables of [_init_database] *)

Definition files_columns : list column :=
  [ col "id" "TEXT PRIMARY KEY";
    col "display_name" "TEXT NOT NULL";
    col "file_path" "TEXT NOT NULL UNIQUE";
    col "file_size" "INTEGER NOT NULL";
    col "modified_time" "REAL NOT NULL";
    {| col_name := "status"; col_decl := "TEXT NOT NULL DEFAULT 'OK'";
       col_default := Text "OK" |};
    col "created_at" "TEXT NOT NULL";
    col "file_hash" "TEXT" ].

Definition versions_columns : list column :=
  [ col "id" "TEXT PRIMARY KEY";
    col "file_id" "TEXT NOT NULL";
    col "version_number" "INTEGER NOT NULL";
    col "commit_message" "TEXT NOT NULL";
    col "file_size" "INTEGER NOT NULL";
    col "modified_time" "REAL NOT NULL";
    col "created_at" "TEXT NOT NULL";
    col "file_hash" "TEXT" ].

Definition tags_columns : list column :=
  [ col "id" "TEXT PRIMARY KEY";
    col "name" "TEXT NOT NULL UNIQUE";
    col "created_at" "TEXT NOT NULL" ].

Definition tag_links_columns : list column :=
  [ col "id" "TEXT PRIMARY KEY";
    col "tag_id" "TEXT NOT NULL";
    col "file_id" "TEXT";
    col "version_id" "TEXT";
    col "created_at" "TEXT NOT NULL" ].

Definition events_columns : list column :=
  [ col "id" "TEXT PRIMARY KEY";
    col "file_id" "TEXT NOT NULL";
    col "event_type" "TEXT NOT NULL";
    col "description" "TEXT";
    col "created_at" "TEXT NOT NULL" ].

Definition metadata_columns : list column :=
  [ col "file_id" "TEXT PRIMARY KEY";
    col "data" "TEXT";
    col "created_at" "TEXT NOT NULL";
    col "updated_at" "TEXT NOT NULL" ].

Definition projects_columns : list column :=
  [ col "id" "TEXT PRIMARY KEY";
    col "name" "TEXT NOT NULL";
    col "description" "TEXT";
    {| col_name := "color"; col_decl := "TEXT NOT NULL DEFAULT '#007AFF'";
       col_default := Text "#007AFF" |};
    col "created_at" "TEXT NOT NULL" ].

Definition fk_file : string :=
  "FOREIGN KEY (file_id) REFERENCES files(id) ON DELETE CASCADE".

(** *** The migrations *)

Definition _migrate_add_hash_column : M cursor unit :=
  let* columns := table_info "files" in
  run! (if not_in "file_hash" columns
        then alter_table_add_column "files" (col "file_hash" "TEXT")
        else ret tt) in
  let* columns := table_info "versions" in
  if not_in "file_hash" columns
  then alter_table_add_column "versions" (col "file_hash" "TEXT")
  else ret tt.

Definition _migrate_add_favorite_column : M cursor unit :=
  let* columns := table_info "files" in
  if not_in "is_favorite" columns
  then alter_table_add_column "files"
         {| col_name := "is_favorite"; col_decl := "INTEGER DEFAULT 0";
            col_default := Integer 0 |}
  else ret tt.

Definition _migrate_add_archived_column : M cursor unit :=
  let* columns := table_info "files" in
  if not_in "is_archived" columns
  then alter_table_add_column "files"
         {| col_name := "is_archived"; col_decl := "INTEGER DEFAULT 0";
            col_default := Integer 0 |}
  else ret tt.

Definition _migrate_add_pin_columns : M cursor unit :=
  let* columns := table_info "versions" in
  run! (if not_in "is_pinned" columns
        then alter_table_add_column "versions"
               {| col_name := "is_pinned"; col_decl := "INTEGER DEFAULT 0";
                  col_default := Integer 0 |}
        else ret tt) in
  if not_in "pinned_path" columns
  then alter_table_add_column "versions" (col "pinned_path" "TEXT")
  else ret tt.

Definition _migrate_add_project_column : M cursor unit :=
  let* columns := table_info "files" in
  if not_in "project_id" columns
  then alter_table_add_column "files"
         (col "project_id" "TEXT REFERENCES projects(id)")
  else ret tt.

(** [_init_database], statement by statement. *)
Definition _init_database : M cursor unit :=
  run! create_table_if_not_exists "files" files_columns [] in
  run! create_table_if_not_exists "versions" versions_columns [fk_file] in
  run! create_index_if_not_exists "idx_versions_file_id" "versions" "file_id" in
  run! create_table_if_not_exists "tags" tags_columns [] in
  run! create_table_if_not_exists "tag_links" tag_links_columns
         [ "FOREIGN KEY (tag_id) REFERENCES tags(id) ON DELETE CASCADE";
           fk_file;
           "FOREIGN KEY (version_id) REFERENCES versions(id) ON DELETE CASCADE" ] in
  run! create_index_if_not_exists "idx_tag_links_file_id" "tag_links" "file_id" in
  run! create_index_if_not_exists "idx_tag_links_tag_id" "tag_links" "tag_id" in
  run! create_table_if_not_exists "events" events_columns [fk_file] in
  run! create_table_if_not_exists "metadata" metadata_columns [fk_file] in
  run! create_table_if_not_exists "projects" projects_columns [] in
  run! create_index_if_not_exists "idx_events_file_id" "events" "file_id" in
  run! _migrate_add_hash_column in
  run! _migrate_add_favorite_column in
  run! _migrate_add_archived_column in
  run! _migrate_add_pin_columns in
  _migrate_add_project_column.

(** Opening the store on a database: run [_init_database] on a fresh
    cursor; the result is the database left behind, the schema-changing
    statements that ran, and whether an exception escaped. *)
Definition open_store (db : database) : database * list string * result unit :=
  let '(c, r) := _init_database {| schema := db; changes := [] |} in
  (schema c, changes c, r).

Definition empty_database : database := {| tables := ∅; indexes := ∅ |}.

(** *** Schema predicates used to reason about the migration *)

Definition has_table (db : database) (n : string) : Prop :=
  is_Some (tables db !! n).

Definition has_index (db : database) (n : string) : Prop :=
  is_Some (indexes db !! n).

Definition has_column (db : database) (t c : string) : Prop :=
  exists tb, tables db !! t = Some tb
             /\ existsb (String.eqb c) (column_names tb) = true.

(** The tables [_init_database] may create. *)
Definition store_tables : list string :=
  ["files"; "versions"; "tags"; "tag_links"; "events"; "metadata"; "projects"].

(** [db'] has everything [db] has, and no table beyond the store's. *)
Definition extends (db db' : database) : Prop :=
  (forall n, has_table db n -> has_table db' n)
  /\ (forall n, has_table db' n -> has_table db n \/ In n store_tables)
  /\ (forall n, has_index db n -> has_index db' n)
  /\ (forall t c, has_column db t c -> has_column db' t c).

(** A property of schemas that survives extension. *)
Definition stable (Q : database -> Prop) : Prop :=
  forall db db', extends db db' -> Q db -> Q db'.

(** When [m] returns normally, it has extended the schema and made [Q]
    true. *)
Definition ensures (m : M cursor unit) (Q : database -> Prop) : Prop :=
  forall c c', m c = (c', Ok tt) ->
               extends (schema c) (schema c') /\ Q (schema c').

(** Nothing is left for [m] to do where [Q] holds. *)
Definition idle_when (m : M cursor unit) (Q : database -> Prop) : Prop :=
  forall c, Q (schema c) -> m c = (c, Ok tt).

(** An index that exists under a name no table has. *)
Definition index_ready (name : string) (db : database) : Prop :=
  has_index db name /\ ~ has_table db name.

(** The schema [_init_database] aims at. *)
Definition settled (db : database) : Prop :=
  (has_table db "files" /\ has_table db "versions" /\ has_table db "tags"
   /\ has_table db "tag_links" /\ has_table db "events"
   /\ has_table db "metadata" /\ has_table db "projects")
  /\ (index_ready "idx_versions_file_id" db
      /\ index_ready "idx_tag_links_file_id" db
      /\ index_ready "idx_tag_links_tag_id" db
      /\ index_ready "idx_events_file_id" db)
  /\ (has_column db "files" "file_hash"
      /\ has_column db "versions" "file_hash"
      /\ has_column db "files" "is_favorite"
      /\ has_column db "files" "is_archived"
      /\ has_column db "versions" "is_pinned"
      /\ has_column db "versions" "pinned_path"
      /\ has_column db "files" "project_id").

(** [db'] keeps the tables and indexes of [db]: every table is still
    there with its columns in place, possibly followed by added ones,
    and with its rows in place, each followed by the defaults of the
    added columns. *)
Definition keeps_rows (db db' : database) : Prop :=
  (forall n t,
     tables db !! n = Some t ->
     exists added,
       tables db' !! n
       = Some {| columns := columns t ++ added;
                 table_constraints := table_constraints t;
                 rows := map (fun r => r ++ map col_default added) (rows t) |})
  /\ (forall n i, indexes db !! n = Some i -> indexes db' !! n = Some i).

(** A statement sequence that keeps the rows however it ends. *)
Definition preserving {A} (m : M cursor A) : Prop :=
  forall c c' r, m c = (c', r) -> keeps_rows (schema c) (schema c').

End Sqlite.

(** ** [core/job_queue.py]

    One worker thread running [_run] on the jobs found in the queue. The
    jobs other threads add later, and [pause_current], [cancel_current]
    and [stop] called from other threads while a handler runs, are not
    part of this sequential model. *)
Module JobQueue.
Import Py.

Inductive JobType : Type := VERIFY_ALL | PIN_COPY | RESTORE | RELINK_SCAN.

Inductive JobStatus : Type :=
| QUEUED | RUNNING | PAUSED | COMPLETED | FAILED | CANCELED.

#[global] Instance JobType_eq_dec : EqDecision JobType.
Proof. solve_decision. Defined.
#[global] Instance JobStatus_eq_dec : EqDecision JobStatus.
Proof. solve_decision. Defined.

Record Job : Type := mkJob
  { job_type : JobType;
    description : string;
    payload : list (string * string);
    id : string;
    status : JobStatus;
    progress : Z;
    error : option string }.

Definition set_status (s : JobStatus) (j : Job) : Job :=
  mkJob (job_type j) (description j) (payload j) (id j) s (progress j) (error j).
Definition set_progress (p : Z) (j : Job) : Job :=
  mkJob (job_type j) (description j) (payload j) (id j) (status j) p (error j).
Definition set_error (e : option string) (j : Job) : Job :=
  mkJob (job_type j) (description j) (payload j) (id j) (status j) (progress j) e.

(** The Qt signals, each with the job as it was when emitted. *)
Inductive signal : Type :=
| job_updated (j : Job)
| job_completed (j : Job).

Section WithState.
(** What the handlers work on (the store and the file system). *)
Context {S : Type}.

(** A call [handler(job)]: the state and the job object as the call
    leaves them, the signals it emitted, and whether it returned or raised
    an [Exception]. *)
Record HandlerRun : Type :=
  { h_state : S;
    h_job : Job;
    h_emitted : list signal;
    h_outcome : result unit }.

Definition Handler : Type := Job -> S -> HandlerRun.

(** [self._handlers], filled by [register_handler]. *)
Definition Handlers : Type := JobType -> option Handler.

Definition register_handler (handlers : Handlers) (job_type : JobType)
  (handler : Handler) : Handlers :=
  fun t => if decide (t = job_type) then Some handler else handlers t.

(** What a worker has done. *)
Record Worker : Type :=
  { w_state : S;
    w_running_jobs : gmap string Job;
    w_emitted : list signal;       (* oldest first *)
    w_finished : list Job }.       (* oldest first *)

(** The body of the [while] loop of [_run] for a job taken off the queue. *)
Definition run_job (handlers : Handlers) (job : Job) (w : Worker) : Worker :=
  let running := <[id job := job]> (w_running_jobs w) in
  let job := set_progress 0 (set_status RUNNING job) in
  let emitted := w_emitted w ++ [job_updated job] in
  match handlers (job_type job) with
  | None =>
      let job := set_error (Some "No handler for job type")
                   (set_status FAILED job) in
      {| w_state := w_state w;
         w_running_jobs := delete (id job) running;
         w_emitted := emitted ++ [job_completed job];
         w_finished := w_finished w ++ [job] |}
  | Some handler =>
      let r := handler job (w_state w) in
      let job :=
        match h_outcome r with
        | Ok _ =>
            if bool_decide (status (h_job r) = CANCELED
                            \/ status (h_job r) = FAILED)
            then h_job r
            else set_progress 100 (set_status COMPLETED (h_job r))
        | Raise exc =>
            set_error (Some (str_exn exc)) (set_status FAILED (h_job r))
        end in
      {| w_state := h_state r;
         w_running_jobs := delete (id job) running;
         w_emitted := emitted ++ h_emitted r ++ [job_completed job];
         w_finished := w_finished w ++ [job] |}
  end.

(** How [_run] stands once the queue content has been consumed. *)
Inductive WorkerLife : Type :=
| Polling    (* in the loop, waiting on the empty queue *)
| Exited.    (* left the loop: stop event or [None] sentinel *)

(** [_run] on the queue content [queue]; [None] is the sentinel. Returns
    the worker, what is left in the queue, and whether the thread is
    still in its loop. *)
Fixpoint _run (handlers : Handlers) (stop_event : bool)
  (queue : list (option Job)) (w : Worker)
  : Worker * list (option Job) * WorkerLife :=
  if stop_event then (w, queue, Exited)
  else
    match queue with
    | [] => (w, [], Polling)
    | None :: rest => (w, rest, Exited)
    | Some job :: rest => _run handlers stop_event rest (run_job handlers job w)
    end.

Definition new_worker (s : S) : Worker :=
  {| w_state := s; w_running_jobs := ∅; w_emitted := []; w_finished := [] |}.

End WithState.

Arguments HandlerRun : clear implicits.
Arguments Handler : clear implicits.
Arguments Handlers : clear implicits.
Arguments Worker : clear implicits.

(** *** The control surface of the queue

    [enqueue], [stop], [pause_current], [resume_current],
    [cancel_current] and [set_max_workers] run in the caller's thread;
    each is modelled as one step on the state it shares with the
    workers. [_running_jobs] is a dict: its entries are kept in insertion
    order, and the job objects in it are the ones the handlers hold, so
    a status written here is the status a handler reads. *)
Record Queue : Type := mkQueue
  { _queue : list (option Job);             (* front first *)
    _running_jobs : list (string * Job);
    _stop_event : bool;
    _pause_event : bool;
    _workers : nat;                         (* [len(self._workers)] *)
    _max_workers : Z;
    emitted : list signal }.                (* oldest first *)

(** [_start_workers(count)]: [range(count)] is empty for [count <= 0]. *)
Definition _start_workers (count : Z) (q : Queue) : Queue :=
  mkQueue (_queue q) (_running_jobs q) (_stop_event q) (_pause_event q)
    (_workers q + Z.to_nat count) (_max_workers q) (emitted q).

(** [JobQueue(max_workers)] *)
Definition new_queue (max_workers : Z) : Queue :=
  _start_workers (Z.max 1 max_workers)
    (mkQueue [] [] false false 0 (Z.max 1 max_workers) []).

Definition enqueue (job : Job) (q : Queue) : Queue * Job :=
  (mkQueue (_queue q ++ [Some job]) (_running_jobs q) (_stop_event q)
     (_pause_event q) (_workers q) (_max_workers q)
     (emitted q ++ [job_updated job]),
   job).

(** [stop()]: one sentinel for every thread ever started. *)
Definition stop (q : Queue) : Queue :=
  mkQueue (_queue q ++ repeat None (_workers q)) (_running_jobs q) true
    (_pause_event q) (_workers q) (_max_workers q) (emitted q).

(** The loop [for job in self._running_jobs.values(): if job.status in
    from_: job.status = to; self.job_updated.emit(job)]. *)
Definition restatus (from_ : list JobStatus) (to : JobStatus)
  (running : list (string * Job)) : list (string * Job) * list signal :=
  (map (fun kv =>
          if bool_decide (status kv.2 ∈ from_)
          then (kv.1, set_status to kv.2) else kv)
     running,
   flat_map (fun kv =>
               if bool_decide (status kv.2 ∈ from_)
               then [job_updated (set_status to kv.2)] else [])
     running).

Definition pause_current (q : Queue) : Queue :=
  match _running_jobs q with
  | [] => q
  | _ :: _ =>
      let '(running, signals) := restatus [RUNNING] PAUSED (_running_jobs q) in
      mkQueue (_queue q) running (_stop_event q) true (_workers q)
        (_max_workers q) (emitted q ++ signals)
  end.

Definition resume_current (q : Queue) : Queue :=
  match _running_jobs q with
  | [] => q
  | _ :: _ =>
      let '(running, signals) := restatus [PAUSED] RUNNING (_running_jobs q) in
      mkQueue (_queue q) running (_stop_event q) false (_workers q)
        (_max_workers q) (emitted q ++ signals)
  end.

Definition cancel_current (q : Queue) : Queue :=
  match _running_jobs q with
  | [] => q
  | _ :: _ =>
      let '(running, signals) :=
        restatus [RUNNING; PAUSED] CANCELED (_running_jobs q) in
      mkQueue (_queue q) running (_stop_event q) false (_workers q)
        (_max_workers q) (emitted q ++ signals)
  end.

(** [set_max_workers(max_workers)]: more workers are started at once;
    fewer are asked for by sentinels on the queue. *)
Definition set_max_workers (max_workers : Z) (q : Queue) : Queue :=
  let max_workers := Z.max 1 max_workers in
  if max_workers =? _max_workers q then q
  else
    let q' :=
      if _max_workers q <? max_workers
      then _start_workers (max_workers - _max_workers q) q
      else
        mkQueue
          (_queue q ++ repeat None (Z.to_nat (_max_workers q - max_workers)))
          (_running_jobs q) (_stop_event q) (_pause_event q) (_workers q)
          (_max_workers q) (emitted q) in
    mkQueue (_queue q') (_running_jobs q') (_stop_event q') (_pause_event q')
      (_workers q') max_workers (emitted q').

(** [wait_if_paused_or_canceled(job)] on a state that no other thread
    changes meanwhile: [Some False] for a canceled job, [Some True] when
    the pause event is clear, and no return ([None]) while it is set. *)
Definition wait_if_paused_or_canceled (q : Queue) (job : Job) : option bool :=
  if bool_decide (status job = CANCELED) then Some false
  else if _pause_event q then None
  else Some true.

End JobQueue.

(** ** [core/file_service.py] *)
Module FileService.
Import Py Pathlib Os Models Verification.

(** What the service works on: the disk and the store. *)
Record World : Type := { fs : filesystem; db : DatabaseManager.Db }.

(** [self]: the data directory and the optional pin storage path. *)
Record t : Type :=
  { data_dir : path;
    _pin_storage_path : option path }.

Definition versions_dir (self : t) : path := joinpath (data_dir self) "versions".

(** *** Lifting the file system and the store into the world *)

Definition fs_do (f : filesystem -> result filesystem) : M World unit :=
fun w =>
  match f (fs w) with
  | Ok fs' => ({| fs := fs'; db := db w |}, Ok tt)
  | Raise e => (w, Raise e)
  end.

Definition db_do (f : DatabaseManager.Db -> DatabaseManager.Db) : M World unit :=
fun w => ({| fs := fs w; db := f (db w) |}, Ok tt).

Definition db_try {A} (f : DatabaseManager.Db -> result (DatabaseManager.Db * A))
  : M World A :=
fun w =>
  match f (db w) with
  | Ok (db', a) => ({| fs := fs w; db := db' |}, Ok a)
  | Raise e => (w, Raise e)
  end.

Definition gets {A} (f : World -> A) : M World A := fun w => (w, Ok (f w)).

(** The names bound at module level in [file_service.py]: its imports and
    its class. A global that is read without being in this list (nor a
    builtin) raises [NameError]. *)
Definition module_globals : list string :=
  [ "os"; "shutil"; "subprocess"; "sys"; "Path"; "Optional"; "time"; "json";
    "Image"; "ExifTags";
    "DatabaseManager"; "TrackedFile"; "Version"; "FileStatus"; "Tag";
    "get_file_state"; "check_file_status"; "compute_file_hash";
    "verify_file_hash"; "VerificationResult"; "FileService" ].

Definition load_global {S} (name : string) : M S unit :=
  if existsb (String.eqb name) module_globals then ret tt
  else raise (NameError name).

(** *** Backup paths *)

Definition _get_version_dir (self : t) (file_id : string) : path :=
  joinpath (versions_dir self) file_id.

(** [f"{stem}_v{version_number}{ext}"] *)
Definition version_file_name (version_number : Z) (original_name : string)
  : string :=
  stem original_name +:+ "_v" +:+ str_int version_number
  +:+ suffix original_name.

(** [_get_version_path]: it makes the version directory on the way. *)
Definition _get_version_path (self : t) (file_id : string)
  (version_number : Z) (original_name : string) : M World path :=
  let version_dir := _get_version_dir self file_id in
  run! fs_do (mkdir_p version_dir) in
  ret (joinpath version_dir (version_file_name version_number original_name)).

(** [f"v{version_number}{ext}"] *)
Definition _get_legacy_version_path (self : t) (file_id : string)
  (version_number : Z) (original_name : string) : path :=
  joinpath (_get_version_dir self file_id)
    ("v" +:+ str_int version_number +:+ suffix original_name).

(** [_backup_file]: the artifact is named after the source file. *)
Definition _backup_file (self : t) (source_path : path) (file_id : string)
  (version_number : Z) : M World path :=
  let* backup_path :=
    _get_version_path self file_id version_number (name source_path) in
  run! fs_do (copy2 source_path backup_path) in
  ret backup_path.

Definition _delete_version_backups (self : t) (file_id : string)
  : M World unit :=
  let version_dir := _get_version_dir self file_id in
  let* present := gets (fun w => Os.exists_ (fs w) version_dir) in
  if present then fs_do (rmtree version_dir) else ret tt.

Section WithHash.
Context `{HashAlgorithm}.

(** *** Registering, verifying, committing *)

(** [register_file]; [file_uuid], [version_uuid] and the two time stamps
    are what [uuid4()] and [datetime.now()] return in [create_file] and
    [create_version]. *)
Definition register_file (self : t) (file_uuid version_uuid : string)
  (file_now version_now : string)
  (file_path : path) (commit_message : string)
  (display_name : option string)
  : M World (TrackedFile.t * Version.t) :=
  let* present := gets (fun w => Os.exists_ (fs w) file_path) in
  if negb present
  then raise (FileNotFoundError ("File not found: " +:+ str_path file_path))
  else
    let* existing :=
      gets (fun w => DatabaseManager.get_file_by_path (db w) file_path) in
    match existing with
    | Some _ =>
        raise (ValueError ("File already registered: " +:+ str_path file_path))
    | None =>
        let* state := gets (fun w => get_file_state (fs w) file_path true) in
        let display_name := default (name file_path) display_name in
        let* tracked_file :=
          db_try (DatabaseManager.create_file file_uuid file_now display_name
                    file_path (file_size state) (modified_time state)
                    (file_hash state)) in
        let* version :=
          db_try (DatabaseManager.create_version version_uuid version_now
                    (TrackedFile.id tracked_file) commit_message
                    (file_size state) (modified_time state)
                    (file_hash state)) in
        run! _backup_file self file_path (TrackedFile.id tracked_file)
               (Version.version_number version) in
        ret (tracked_file, version)
    end.

Definition verify_file (self : t) (file_id : string) : M World FileStatus :=
  let* found := gets (fun w => DatabaseManager.get_file (db w) file_id) in
  match found with
  | None => raise (ValueError ("File not found: " +:+ file_id))
  | Some tracked_file =>
      let* new_status :=
        gets (fun w => check_file_status (fs w) tracked_file true) in
      let* file_hash :=
        gets (fun w =>
                compute_file_hash (fs w) (TrackedFile.file_path tracked_file)) in
      if negb (truthy_str (TrackedFile.file_hash tracked_file))
         && negb (bool_decide (new_status = MISSING))
         && truthy_str file_hash
      then
        run! db_do (DatabaseManager.update_file_metadata file_id
                      (TrackedFile.file_size tracked_file)
                      (TrackedFile.modified_time tracked_file)
                      new_status file_hash) in
        ret new_status
      else
        run! (if bool_decide (new_status = TrackedFile.status tracked_file)
              then ret tt
              else db_do (DatabaseManager.update_file_status file_id new_status)) in
        ret new_status
  end.

Definition create_new_version (self : t) (version_uuid version_now : string)
  (file_id commit_message : string) : M World Version.t :=
  let* found := gets (fun w => DatabaseManager.get_file (db w) file_id) in
  match found with
  | None => raise (ValueError ("File not found: " +:+ file_id))
  | Some tracked_file =>
      let* state :=
        gets (fun w =>
                get_file_state (fs w) (TrackedFile.file_path tracked_file) true) in
      if negb (exists_ state)
      then raise (ValueError "Cannot create version: file is missing")
      else
        let* version :=
          db_try (DatabaseManager.create_version version_uuid version_now
                    file_id commit_message (file_size state)
                    (modified_time state) (file_hash state)) in
        run! _backup_file self (TrackedFile.file_path tracked_file) file_id
               (Version.version_number version) in
        run! db_do (DatabaseManager.update_file_metadata file_id
                      (file_size state) (modified_time state) OK
                      (file_hash state)) in
        ret version
  end.

(** *** Restoring *)

(** [get_version_backup_path]: the canonical name first, then the legacy
    one; both derived from the display name. *)
Definition get_version_backup_path (self : t) (file_id : string)
  (version_number : Z) : M World (option path) :=
  let* found := gets (fun w => DatabaseManager.get_file (db w) file_id) in
  match found with
  | None => ret None
  | Some tracked_file =>
      let* backup_path :=
        _get_version_path self file_id version_number
          (TrackedFile.display_name tracked_file) in
      let* present := gets (fun w => Os.exists_ (fs w) backup_path) in
      if present then ret (Some backup_path)
      else
        let legacy_path :=
          _get_legacy_version_path self file_id version_number
            (TrackedFile.display_name tracked_file) in
        let* present := gets (fun w => Os.exists_ (fs w) legacy_path) in
        if present then ret (Some legacy_path) else ret None
  end.

(** [restore_version]: [update_file_metadata] is called without
    [file_hash], which therefore takes its default [None]. *)
Definition restore_version (self : t) (file_id : string) (version_number : Z)
  : M World bool :=
  let* found := gets (fun w => DatabaseManager.get_file (db w) file_id) in
  match found with
  | None => ret false
  | Some tracked_file =>
      let* backup := get_version_backup_path self file_id version_number in
      match backup with
      | None => ret false
      | Some backup_path =>
          let target_path := TrackedFile.file_path tracked_file in
          run! fs_do (copy2 backup_path target_path) in
          let* state := gets (fun w => get_file_state (fs w) target_path true) in
          run! db_do (DatabaseManager.update_file_metadata file_id
                        (file_size state) (modified_time state) OK None) in
          ret true
      end
  end.

Definition delete_file (self : t) (file_id : string) : M World unit :=
  run! _delete_version_backups self file_id in
  db_do (DatabaseManager.delete_file file_id).

(** *** Pinning *)

(** [f"{stem}_v{version_number}_pinned{ext}"] *)
Definition pinned_file_name (version_number : Z) (display_name : string)
  : string :=
  stem display_name +:+ "_v" +:+ str_int version_number +:+ "_pinned"
  +:+ suffix display_name.

Definition _get_pinned_version_path (self : t) (file_id : string)
  (version_number : Z) (display_name : string) : M World path :=
  match _pin_storage_path self with
  | None => raise (ValueError "Pin storage path is not set")
  | Some pin_root =>
      let pin_dir := joinpath pin_root file_id in
      run! fs_do (mkdir_p pin_dir) in
      ret (joinpath pin_dir (pinned_file_name version_number display_name))
  end.

Definition pin_version (self : t) (file_id : string) (version_number : Z)
  : M World (option path) :=
  match _pin_storage_path self with
  | None => raise (ValueError "Pin storage path is not set")
  | Some _ =>
      let* found := gets (fun w => DatabaseManager.get_file (db w) file_id) in
      match found with
      | None => ret None
      | Some tracked_file =>
          let* backup := get_version_backup_path self file_id version_number in
          match backup with
          | None => ret None
          | Some backup_path =>
              let* present := gets (fun w => Os.exists_ (fs w) backup_path) in
              if negb present then ret None
              else
                let* pinned_path :=
                  _get_pinned_version_path self file_id version_number
                    (TrackedFile.display_name tracked_file) in
                run! fs_do (copy2 backup_path pinned_path) in
                run! db_do (DatabaseManager.set_version_pinned file_id
                              version_number true (Some pinned_path)) in
                ret (Some pinned_path)
          end
      end
  end.

(** [any(p.iterdir())], which raises when [p] is not a directory. *)
Definition any_entries (p : path) : M World bool :=
  fun w =>
    if Os.is_dir (fs w) p then (w, Ok (any_iterdir (fs w) p))
    else (w, Raise (NotADirectoryError "Not a directory")).

Definition unpin_version (self : t) (file_id : string) (version_number : Z)
  : M World bool :=
  let* found :=
    gets (fun w =>
            DatabaseManager.get_version_by_number (db w) file_id version_number) in
  match found with
  | None => ret false
  | Some version =>
      if negb (Version.is_pinned version) then ret false
      else
        run! match Version.pinned_path version with
             | None => ret tt
             | Some pinned_path =>
                 let* present := gets (fun w => Os.exists_ (fs w) pinned_path) in
                 run! (if present then fs_do (unlink pinned_path) else ret tt) in
                 let* parent_present :=
                   gets (fun w => Os.exists_ (fs w) (parent pinned_path)) in
                 if parent_present
                 then
                   let* occupied := any_entries (parent pinned_path) in
                   if occupied then ret tt
                   else fs_do (rmdir (parent pinned_path))
                 else ret tt
             end in
        run! db_do (DatabaseManager.set_version_pinned file_id version_number
                      false None) in
        ret true
  end.

Definition toggle_pin_version (self : t) (file_id : string)
  (version_number : Z) : M World (bool * option path) :=
  let* found :=
    gets (fun w =>
            DatabaseManager.get_version_by_number (db w) file_id version_number) in
  match found with
  | None => ret (false, None)
  | Some version =>
      if Version.is_pinned version
      then run! unpin_version self file_id version_number in ret (false, None)
      else
        let* pinned_path := pin_version self file_id version_number in
        ret (true, pinned_path)
  end.

(** *** Looking up and checking versions *)

(** [get_version]: the first row of [get_versions] with the number. *)
Definition get_version (file_id : string) (version_number : Z)
  : M World (option Version.t) :=
  gets (fun w =>
          List.find (fun v => Version.version_number v =? version_number)
            (DatabaseManager.get_versions (db w) file_id)).

Definition verify_all_files_loop (self : t)
  : list TrackedFile.t -> gmap string FileStatus
    -> M World (gmap string FileStatus) :=
  fix loop files results :=
    match files with
    | [] => ret results
    | tracked_file :: rest =>
        let* st := verify_file self (TrackedFile.id tracked_file) in
        loop rest (<[TrackedFile.id tracked_file := st]> results)
    end.

(** [verify_all_files]: [self.db.get_all_files()] leaves the archived
    files out. *)
Definition verify_all_files (self : t) : M World (gmap string FileStatus) :=
  let* files := gets (fun w => DatabaseManager.get_all_files (db w) false) in
  verify_all_files_loop self files ∅.

Definition verify_version_integrity (self : t) (file_id : string)
  (version_number : Z) : M World VerificationResult :=
  let* found := get_version file_id version_number in
  match found with
  | None =>
      ret {| is_valid := false; expected_hash := None; actual_hash := None;
             error := Some "Version not found" |}
  | Some version =>
      if negb (truthy_str (Version.file_hash version))
      then ret {| is_valid := false; expected_hash := None;
                  actual_hash := None;
                  error := Some "No hash stored for this version" |}
      else
        let* backup := get_version_backup_path self file_id version_number in
        match backup with
        | None =>
            ret {| is_valid := false;
                   expected_hash := Version.file_hash version;
                   actual_hash := None;
                   error := Some "Backup file not found" |}
        | Some backup_path =>
            gets (fun w =>
                    verify_file_hash (fs w) backup_path
                      (default "" (Version.file_hash version)))
        end
  end.

Definition verify_all_versions_loop (self : t) (file_id : string)
  : list Version.t -> gmap Z VerificationResult
    -> M World (gmap Z VerificationResult) :=
  fix loop versions results :=
    match versions with
    | [] => ret results
    | version :: rest =>
        let* r :=
          verify_version_integrity self file_id
            (Version.version_number version) in
        loop rest (<[Version.version_number version := r]> results)
    end.

Definition verify_all_versions (self : t) (file_id : string)
  : M World (gmap Z VerificationResult) :=
  let* versions :=
    gets (fun w => DatabaseManager.get_versions (db w) file_id) in
  verify_all_versions_loop self file_id versions ∅.

End WithHash.

(** *** Relinking *)

(** An entry of the index: [{"path": ..., "size": ..., "mtime": ...}]. *)
Record Candidate : Type :=
  { c_path : path; c_size : Z; c_mtime : Z }.

(** The summary dictionary. *)
Record Summary : Type :=
  { checked : Z; relinked : Z; not_found : Z; scanned : Z;
    hash_checked : Z; size_filtered : Z; date_filtered : Z }.

Inductive SummaryKey : Type :=
| k_relinked | k_not_found | k_hash_checked | k_size_filtered | k_date_filtered.

(** [summary[key] += 1] *)
Definition bump (key : SummaryKey) (s : Summary) : Summary :=
  match key with
  | k_relinked =>
      {| checked := checked s; relinked := relinked s + 1;
         not_found := not_found s; scanned := scanned s;
         hash_checked := hash_checked s; size_filtered := size_filtered s;
         date_filtered := date_filtered s |}
  | k_not_found =>
      {| checked := checked s; relinked := relinked s;
         not_found := not_found s + 1; scanned := scanned s;
         hash_checked := hash_checked s; size_filtered := size_filtered s;
         date_filtered := date_filtered s |}
  | k_hash_checked =>
      {| checked := checked s; relinked := relinked s;
         not_found := not_found s; scanned := scanned s;
         hash_checked := hash_checked s + 1; size_filtered := size_filtered s;
         date_filtered := date_filtered s |}
  | k_size_filtered =>
      {| checked := checked s; relinked := relinked s;
         not_found := not_found s; scanned := scanned s;
         hash_checked := hash_checked s; size_filtered := size_filtered s + 1;
         date_filtered := date_filtered s |}
  | k_date_filtered =>
      {| checked := checked s; relinked := relinked s;
         not_found := not_found s; scanned := scanned s;
         hash_checked := hash_checked s; size_filtered := size_filtered s;
         date_filtered := date_filtered s + 1 |}
  end.

(** [summary[key] += 1] on the local variable [summary], which holds no
    value ([None]) until the assignment [summary = {...}] has run. *)
Definition bump_local (key : SummaryKey) (summary : option Summary)
  : result (option Summary) :=
  match summary with
  | Some s => Ok (Some (bump key s))
  | None => Raise (UnboundLocalError "summary")
  end.

(** The locals of [relink_missing_files] that the walk reads and writes. *)
Record WalkLocals : Type :=
  { index : gmap string (list Candidate);
    summary : option Summary }.

(** [Path(name).suffix.lower().lstrip(".")] *)
Definition extension (nm : string) : string :=
  lstrip_dots (lower (suffix nm)).

(** [include_exts and ext not in include_exts] *)
Definition fails_extension_filter (include_exts : option (list string))
  (nm : string) : bool :=
  match include_exts with
  | Some (ext :: exts) =>
      negb (existsb (String.eqb (extension nm)) (ext :: exts))
  | _ => false
  end.

(** [max_size_bytes and stat.st_size > max_size_bytes] *)
Definition fails_size_filter (max_size_bytes : option Z) (st : stat_result)
  : bool :=
  truthy_int max_size_bytes && (default 0 max_size_bytes <? st_size st).

(** [cutoff_ts and stat.st_mtime < cutoff_ts] *)
Definition fails_date_filter (cutoff_ts : option Z) (st : stat_result) : bool :=
  truthy_int cutoff_ts && (st_mtime st <? default 0 cutoff_ts).

(** [index.setdefault(name, []).append(entry)] *)
Definition index_append (nm : string) (entry : Candidate)
  (idx : gmap string (list Candidate)) : gmap string (list Candidate) :=
  <[nm := default [] (idx !! nm) ++ [entry]]> idx.

(** The body of the inner loop of the walk, for one file name. *)
Definition walk_step (include_exts : option (list string))
  (max_size_bytes cutoff_ts : option Z)
  (acc : result WalkLocals) (e : walk_entry) : result WalkLocals :=
  match acc with
  | Raise exc => Raise exc
  | Ok locals =>
      if fails_extension_filter include_exts (we_name e) then Ok locals
      else
        match we_stat e with
        | None => Ok locals
        | Some st =>
            if fails_size_filter max_size_bytes st
            then
              match bump_local k_size_filtered (summary locals) with
              | Ok s' => Ok {| index := index locals; summary := s' |}
              | Raise exc => Raise exc
              end
            else if fails_date_filter cutoff_ts st
            then
              match bump_local k_date_filtered (summary locals) with
              | Ok s' => Ok {| index := index locals; summary := s' |}
              | Raise exc => Raise exc
              end
            else
              Ok {| index :=
                      index_append (we_name e)
                        {| c_path := joinpath (we_dirpath e) (we_name e);
                           c_size := st_size st;
                           c_mtime := st_mtime st |}
                        (index locals);
                    summary := summary locals |}
        end
  end.

(** The two nested loops over [os.walk(root)]; [summary] is still unbound
    when they start. *)
Definition build_index (include_exts : option (list string))
  (max_size_bytes cutoff_ts : option Z) (entries : list walk_entry)
  : result WalkLocals :=
  fold_left (walk_step include_exts max_size_bytes cutoff_ts) entries
    (Ok {| index := ∅; summary := None |}).

(** [abs(float(entry["mtime"]) - float(tracked_file.modified_time))] *)
Definition _mtime_diff (tracked_file : TrackedFile.t) (entry : Candidate) : Z :=
  Z.abs (c_mtime entry - TrackedFile.modified_time tracked_file).

(** [min(entries, key=_mtime_diff)]: the first entry with the least key. *)
Fixpoint min_from (tracked_file : TrackedFile.t) (best : Candidate)
  (entries : list Candidate) : Candidate :=
  match entries with
  | [] => best
  | e :: rest =>
      if _mtime_diff tracked_file e <? _mtime_diff tracked_file best
      then min_from tracked_file e rest
      else min_from tracked_file best rest
  end.

(** [size_matched if size_matched else candidates] *)
Definition narrow_by_size (tracked_file : TrackedFile.t)
  (candidates : list Candidate) : list Candidate :=
  match List.filter (fun c => c_size c =? TrackedFile.file_size tracked_file)
          candidates with
  | [] => candidates
  | size_matched => size_matched
  end.

Section WithHash.
Context `{HashAlgorithm}.

(** The [for entry in candidate_entries] loop of the hash mode: the chosen
    pair, if any, and the summary after the [hash_checked] increments. *)
Fixpoint first_hash_match (disk : filesystem) (tracked_file : TrackedFile.t)
  (entries : list Candidate) (s : Summary)
  : option (Candidate * option string) * Summary :=
  match entries with
  | [] => (None, s)
  | entry :: rest =>
      let cand_hash := compute_file_hash disk (c_path entry) in
      let s := bump k_hash_checked s in
      if bool_decide (cand_hash = TrackedFile.file_hash tracked_file)
      then (Some (entry, cand_hash), s)
      else first_hash_match disk tracked_file rest s
  end.

(** The choice among the candidates of one missing file. *)
Definition choose (disk : filesystem) (use_hash : bool)
  (tracked_file : TrackedFile.t) (candidates : list Candidate) (s : Summary)
  : option (Candidate * option string) * Summary :=
  let candidate_entries := narrow_by_size tracked_file candidates in
  if use_hash && truthy_str (TrackedFile.file_hash tracked_file)
  then first_hash_match disk tracked_file candidate_entries s
  else
    match candidate_entries with
    | [] => (None, s)
    | first :: rest =>
        (Some (min_from tracked_file first rest,
               TrackedFile.file_hash tracked_file), s)
    end.

(** The body of [for tracked_file in missing]. The arguments of
    [create_event] are evaluated left to right, and the second one reads
    the global [EventType]. *)
Definition relink_one (event_uuid event_now : string)
  (use_hash : bool) (idx : gmap string (list Candidate))
  (tracked_file : TrackedFile.t) (s : Summary) : M World Summary :=
  let nm := name (TrackedFile.file_path tracked_file) in
  let candidates := default [] (idx !! nm) in
  let* '(chosen, s) :=
    gets (fun w => choose (fs w) use_hash tracked_file candidates s) in
  match chosen with
  | None => ret (bump k_not_found s)
  | Some (entry, new_hash) =>
      let new_path := c_path entry in
      run! db_try (fun d =>
             match DatabaseManager.update_file_location
                     (TrackedFile.id tracked_file) new_path (c_size entry)
                     (c_mtime entry) OK new_hash d with
             | Ok d' => Ok (d', tt)
             | Raise exc => Raise exc
             end) in
      run! load_global "EventType" in
      run! db_try (DatabaseManager.create_event event_uuid event_now
                     (TrackedFile.id tracked_file) RELINK
                     (Some ("Relinked to " +:+ str_path new_path))) in
      ret (bump k_relinked s)
  end.

(** [for tracked_file in missing: ...]; the [i]-th relink event takes the
    [i]-th identifier and time stamp. *)
Fixpoint relink_loop (fresh : nat -> string * string)
  (use_hash : bool) (idx : gmap string (list Candidate))
  (missing : list TrackedFile.t) (i : nat) (s : Summary) : M World Summary :=
  match missing with
  | [] => ret s
  | tracked_file :: rest =>
      let* s := relink_one (fresh i).1 (fresh i).2 use_hash idx tracked_file s in
      relink_loop fresh use_hash idx rest (Datatypes.S i) s
  end.

(** The tracked files the scan looks for. *)
Definition missing_files (w : World) : list TrackedFile.t :=
  List.filter
    (fun tracked_file =>
       bool_decide (TrackedFile.status tracked_file = MISSING)
       || negb (Os.exists_ (fs w) (TrackedFile.file_path tracked_file)))
    (DatabaseManager.get_all_files (db w) false).

(** [relink_missing_files]; [now] is [time.time()]. *)
Definition relink_missing_files (self : t) (now : Z)
  (fresh : nat -> string * string)
  (root_path : path) (use_hash : bool)
  (include_exts : option (list string))
  (max_size_bytes : option Z) (modified_within_days : option Z)
  : M World Summary :=
  let* is_root := gets (fun w => Os.exists_ (fs w) root_path
                                 && Os.is_dir (fs w) root_path) in
  if negb is_root then raise (ValueError "Root path is not a directory")
  else
    let cutoff_ts :=
      if truthy_int modified_within_days
      then Some (now - default 0 modified_within_days * 86400)
      else None in
    let* entries := gets (fun w => walk_files (fs w) root_path) in
    match build_index include_exts max_size_bytes cutoff_ts entries with
    | Raise exc => raise exc
    | Ok locals =>
        let* missing := gets missing_files in
        let s :=
          {| checked := Z.of_nat (length missing);
             relinked := 0;
             not_found := 0;
             scanned := Z.of_nat (size (index locals));
             hash_checked := 0;
             size_filtered := 0;
             date_filtered := 0 |} in
        relink_loop fresh use_hash (index locals) missing 0 s
    end.

End WithHash.

(** *** Notions used to state the properties of the scan *)

(** [s'] is [s] but for a larger [hash_checked]. *)
Definition same_but_hash_checked (s s' : Summary) : Prop :=
  checked s' = checked s /\ relinked s' = relinked s
  /\ not_found s' = not_found s /\ scanned s' = scanned s
  /\ size_filtered s' = size_filtered s
  /\ date_filtered s' = date_filtered s
  /\ hash_checked s <= hash_checked s'.

(** The index entry a walked file gives rise to: none when a filter
    rejects it or [stat] fails. *)
Definition indexed_candidate (include_exts : option (list string))
  (max_size_bytes cutoff_ts : option Z) (e : walk_entry) : option Candidate :=
  if fails_extension_filter include_exts (we_name e) then None
  else
    match we_stat e with
    | None => None
    | Some st =>
        if fails_size_filter max_size_bytes st
           || fails_date_filter cutoff_ts st
        then None
        else Some {| c_path := joinpath (we_dirpath e) (we_name e);
                     c_size := st_size st;
                     c_mtime := st_mtime st |}
    end.

(** A walked file that reaches one of the two [summary[...] += 1] of the
    walk: it passes the extension filter, [stat] succeeds, and the size or
    the date filter rejects it. *)
Definition reaches_counter (include_exts : option (list string))
  (max_size_bytes cutoff_ts : option Z) (e : walk_entry) : bool :=
  negb (fails_extension_filter include_exts (we_name e))
  && match we_stat e with
     | None => false
     | Some st =>
         fails_size_filter max_size_bytes st || fails_date_filter cutoff_ts st
     end.

(** A walked file that fails an active filter. *)
Definition fails_a_filter (include_exts : option (list string))
  (max_size_bytes cutoff_ts : option Z) (e : walk_entry) : bool :=
  fails_extension_filter include_exts (we_name e)
  || match we_stat e with
     | None => false
     | Some st =>
         fails_size_filter max_size_bytes st || fails_date_filter cutoff_ts st
     end.

(** [cutoff_ts] as [relink_missing_files] computes it. *)
Definition cutoff_of (now : Z) (modified_within_days : option Z) : option Z :=
  if truthy_int modified_within_days
  then Some (now - default 0 modified_within_days * 86400)
  else None.

(** The candidates of a given name among walked files, in walk order. *)
Definition candidates_named (include_exts : option (list string))
  (max_size_bytes cutoff_ts : option Z) (nm : string)
  (entries : list walk_entry) : list Candidate :=
  omap (fun e => if String.eqb (we_name e) nm
                 then indexed_candidate include_exts max_size_bytes cutoff_ts e
                 else None) entries.

Section WithHash.
Context `{HashAlgorithm}.

(** The candidates the hash loop computes a hash for: those up to and
    including the first one whose hash is the stored one. *)
Fixpoint hashed_candidates (disk : filesystem) (tracked_file : TrackedFile.t)
  (entries : list Candidate) : list Candidate :=
  match entries with
  | [] => []
  | entry :: rest =>
      entry ::
        if bool_decide (compute_file_hash disk (c_path entry)
                        = TrackedFile.file_hash tracked_file)
        then []
        else hashed_candidates disk tracked_file rest
  end.

(** The candidates hashed for one checked file: none unless the scan
    uses hashes and the file has a stored one. *)
Definition hashed_for (disk : filesystem) (use_hash : bool)
  (idx : gmap string (list Candidate)) (tracked_file : TrackedFile.t)
  : list Candidate :=
  if use_hash && truthy_str (TrackedFile.file_hash tracked_file)
  then hashed_candidates disk tracked_file
         (narrow_by_size tracked_file
            (default [] (idx !! name (TrackedFile.file_path tracked_file))))
  else [].

End WithHash.

(** *** The walk *)

(** The index after the walk, from the index before it. *)
Definition index_after (include_exts : option (list string))
  (max_size_bytes cutoff_ts : option Z) (entries : list walk_entry)
  (idx : gmap string (list Candidate)) : gmap string (list Candidate) :=
  fold_left
    (fun i e =>
       match indexed_candidate include_exts max_size_bytes cutoff_ts e with
       | Some c => index_append (we_name e) c i
       | None => i
       end) entries idx.

(** A step of the service that leaves the store alone, however it ends. *)
Definition keeps_db {A} (m : M World A) : Prop :=
  forall w w' r, m w = (w', r) -> db w' = db w.

(** *** Tag operations

    They go to the store only; the state is the tag store. *)

Definition tags_try {A} (f : Tags.Store -> result (Tags.Store * A))
  : M Tags.Store A :=
fun s =>
  match f s with
  | Ok (s', a) => (s', Ok a)
  | Raise e => (s, Raise e)
  end.

(** [add_tag_to_file(file_id, tag_name)]; the four first arguments are
    what [uuid4()] and [datetime.now()] return in [get_or_create_tag] and
    in [DatabaseManager.add_tag_to_file]. *)
Definition add_tag_to_file (tag_uuid tag_now link_uuid link_now : string)
  (file_id tag_name : string) : M Tags.Store Tags.Tag.t :=
  let* tag := tags_try (Tags.get_or_create_tag tag_uuid tag_now tag_name) in
  run! tags_try (fun s =>
                   match Tags.add_tag_to_file link_uuid link_now
                           (Tags.Tag.id tag) file_id s with
                   | Ok s' => Ok (s', tt)
                   | Raise e => Raise e
                   end) in
  ret tag.

(** [remove_tag_from_file(file_id, tag_id)]: the link goes, then the
    unused tags are cleaned up. *)
Definition remove_tag_from_file (file_id tag_id : string)
  : M Tags.Store unit :=
  run! modify (Tags.remove_tag_from_file tag_id file_id) in
  run! modify (fun s => (Tags.delete_unused_tags s).1) in
  ret tt.

End FileService.

(** ** Concrete inputs for examples and witnesses *)
Module Demo.
Import Py Pathlib Os Models Verification.

(** A stand-in digest: the letter [h] followed by the bytes themselves.
    It is injective, as a collision-free digest would be. *)
Definition demo_hexdigest (data : list byte) : string :=
  String "h"%char (string_of_list_byte data).

#[refine, export] Instance demo_hash : HashAlgorithm :=
  {| hexdigest := demo_hexdigest |}.
Proof. intros data; unfold demo_hexdigest; discriminate. Defined.

Definition bytes (s : string) : list byte := list_byte_of_string s.

(** A tracked file whose record says size 100, mtime 1000. *)
Definition content100 : list byte := repeat x00 100.
Definition other100 : list byte := repeat x01 100.

Definition tracked (h : option string) : TrackedFile.t :=
  TrackedFile.mk "f1" "a.bin" ["data"; "a.bin"] 100 1000 OK
    "2024-01-01T00:00:00" h false false None.

Definition disk (data : list byte) (mtime : Z) : filesystem :=
  <[ ["data"; "a.bin"] := File data mtime ]>
    (<[ ["data"] := Dir fresh_dir_stat ]> ∅).

Definition disk_without_file : filesystem :=
  <[ ["data"] := Dir fresh_dir_stat ]> ∅.

(** *** A database with one file and three versions *)

Definition file_f1 : TrackedFile.t :=
  TrackedFile.mk "f1" "report.pdf" ["docs"; "report.pdf"] 3 1000 OK
    "2024-01-01T00:00:00" (Some "habc") false false None.

Definition version_of_f1 (vid : string) (n : Z) : Version.t :=
  Version.mk vid "f1" n "msg" 3 1000 "2024-01-01T00:00:00" (Some "habc")
    false None.

Definition db_no_versions : DatabaseManager.Db :=
  DatabaseManager.mkDb [file_f1] [] [] [] [].

Definition db_three_versions : DatabaseManager.Db :=
  DatabaseManager.mkDb [file_f1]
    [version_of_f1 "v1" 1; version_of_f1 "v2" 2; version_of_f1 "v3" 3]
    [] [] [].

(** [DELETE FROM versions WHERE file_id = 'f1' AND version_number = 3] *)
Definition is_version_3_of_f1 (v : Version.t) : bool :=
  String.eqb (Version.file_id v) "f1" && (Version.version_number v =? 3).

(** [DELETE FROM versions WHERE file_id = 'f1' AND version_number = 2] *)
Definition is_version_2_of_f1 (v : Version.t) : bool :=
  String.eqb (Version.file_id v) "f1" && (Version.version_number v =? 2).

(** The database after version 2 of [f1] was deleted, and the row that
    [create_version] then adds. *)
Definition db_version_2_deleted : DatabaseManager.Db :=
  DatabaseManager.with_versions db_three_versions
    (DatabaseManager.delete_where is_version_2_of_f1
       (DatabaseManager.versions db_three_versions)).

Definition version_4 : Version.t :=
  Version.mk "v4" "f1" 4 "fourth" 3 1000 "2024-02-01T00:00:00" (Some "habc")
    false None.

(** *** A database where [f1] has a version, an event, metadata and a tag *)

Definition event_of_f1 : Event.t :=
Event.mk "e1" "f1" VERIFY_OK (Some "File integrity verified")
  "2024-01-02T00:00:00".

Definition db_with_history : DatabaseManager.Db :=
DatabaseManager.mkDb [file_f1] [version_of_f1 "v1" 1] [event_of_f1]
  [Metadata.mk "f1" "{}" "2024-01-02T00:00:00" "2024-01-02T00:00:00"]
  [TagLink.mk "l1" "t1" (Some "f1") None "2024-01-02T00:00:00"].

(** *** A database file written by the first release: [files] and
    [versions] only, without the columns added since, and with rows *)

Definition legacy_database : Sqlite.database :=
{| Sqlite.tables :=
     <[ "files" :=
          {| Sqlite.columns := firstn 7 Sqlite.files_columns;
             Sqlite.table_constraints := [];
             Sqlite.rows :=
               [ [Sqlite.Text "f1"; Sqlite.Text "report.pdf";
                  Sqlite.Text "/docs/report.pdf"; Sqlite.Integer 3;
                  Sqlite.Integer 1000; Sqlite.Text "OK";
                  Sqlite.Text "2024-01-01T00:00:00"] ] |} ]>
     (<[ "versions" :=
          {| Sqlite.columns := firstn 7 Sqlite.versions_columns;
             Sqlite.table_constraints := [Sqlite.fk_file];
             Sqlite.rows :=
               [ [Sqlite.Text "v1"; Sqlite.Text "f1"; Sqlite.Integer 1;
                  Sqlite.Text "first"; Sqlite.Integer 3;
                  Sqlite.Integer 1000;
                  Sqlite.Text "2024-01-01T00:00:00"] ] |} ]> ∅);
   Sqlite.indexes := ∅ |}.

Definition legacy_database_migrated : Sqlite.database :=
(Sqlite.open_store legacy_database).1.1.

(** *** Jobs and handlers: [VERIFY_ALL] succeeds, [RESTORE] raises, and
    no handler is registered for [PIN_COPY] *)

Definition job (t : JobQueue.JobType) (jid : string) : JobQueue.Job :=
JobQueue.mkJob t "demo" [] jid JobQueue.QUEUED 0 None.

Definition ok_handler : JobQueue.Handler unit :=
fun j s =>
  {| JobQueue.h_state := s; JobQueue.h_job := JobQueue.set_progress 50 j;
     JobQueue.h_emitted := [JobQueue.job_updated (JobQueue.set_progress 50 j)];
     JobQueue.h_outcome := Ok tt |}.

Definition raising_handler : JobQueue.Handler unit :=
fun j s =>
  {| JobQueue.h_state := s; JobQueue.h_job := JobQueue.set_progress 20 j;
     JobQueue.h_emitted := [];
     JobQueue.h_outcome := Raise (OSError "disk full") |}.

Definition demo_handlers : JobQueue.Handlers unit :=
JobQueue.register_handler
  (JobQueue.register_handler (fun _ => None) JobQueue.VERIFY_ALL ok_handler)
  JobQueue.RESTORE raising_handler.

Definition demo_queue : list JobQueue.Job :=
[ job JobQueue.PIN_COPY "j1"; job JobQueue.RESTORE "j2";
  job JobQueue.VERIFY_ALL "j3" ].

(** *** The relink scenario: [report.pdf] (size 500, mtime T) is MISSING;
    the scanned root holds [old/report.pdf] (mtime T+1) and
    [new/report.pdf] (mtime T+100), both of size 500 *)

Definition T : Z := 1700000000.

Definition service : FileService.t :=
{| FileService.data_dir := ["data"];
   FileService._pin_storage_path := Some ["pins"] |}.

Definition report_bytes : list byte := repeat x41 500.

Definition missing_report : TrackedFile.t :=
TrackedFile.mk "f1" "report.pdf" ["docs"; "report.pdf"] 500 T MISSING
  "2024-01-01T00:00:00" (Some (demo_hexdigest report_bytes)) false false None.

Definition relink_disk : filesystem :=
list_to_map
  [ (["docs"], Dir fresh_dir_stat);
    (["scan"], Dir fresh_dir_stat);
    (["scan"; "old"], Dir fresh_dir_stat);
    (["scan"; "new"], Dir fresh_dir_stat);
    (["scan"; "old"; "report.pdf"], File report_bytes (T + 1));
    (["scan"; "new"; "report.pdf"], File report_bytes (T + 100)) ].

Definition relink_world : FileService.World :=
{| FileService.fs := relink_disk;
   FileService.db := DatabaseManager.mkDb [missing_report] [] [] [] [] |}.

Definition fresh_ids (i : nat) : string * string :=
("event-" +:+ str_int (Z.of_nat i), "2024-03-01T00:00:00").

(** *** Register, edit, restore *)

Definition report_path : path := ["docs"; "report.pdf"].
Definition original_bytes : list byte := bytes "original content".
Definition edited_bytes : list byte := bytes "edited".

Definition fresh_world : FileService.World :=
{| FileService.fs :=
     list_to_map
       [ (["docs"], Dir fresh_dir_stat);
         (report_path, File original_bytes 1000) ];
   FileService.db := DatabaseManager.empty_db |}.

(** [register_file(path, "init", display_name)] on the fresh world. *)
Definition registered (display_name : option string) : FileService.World :=
(FileService.register_file service "f1" "v1" "2024-01-01T00:00:00"
   "2024-01-01T00:00:01" report_path "init" display_name fresh_world).1.

(** The user then overwrites the file. *)
Definition edit (w : FileService.World) : FileService.World :=
match write_bytes report_path edited_bytes 2000 (FileService.fs w) with
| Ok disk => {| FileService.fs := disk; FileService.db := FileService.db w |}
| Raise _ => w
end.

Definition edited (display_name : option string) : FileService.World :=
edit (registered display_name).

Definition restored (display_name : option string) : FileService.World :=
(FileService.restore_version service "f1" 1 (edited display_name)).1.

Definition registered_row (display_name : string) : TrackedFile.t :=
TrackedFile.mk "f1" display_name report_path 16 1000 OK
  "2024-01-01T00:00:00" (Some (demo_hexdigest original_bytes))
  false false None.

(** *** Pinning version 1 of the registered file *)

Definition pinned_path : path := ["pins"; "f1"; "report_v1_pinned.pdf"].

Definition pinned : FileService.World :=
(FileService.pin_version service "f1" 1 (registered None)).1.

Definition unpinned : FileService.World :=
(FileService.unpin_version service "f1" 1 pinned).1.

(** The same, with a second entry in the pin directory of the file. *)
Definition pinned_with_neighbour : FileService.World :=
{| FileService.fs :=
     <[ ["pins"; "f1"; "report_v2_pinned.pdf"] := File edited_bytes 2000 ]>
       (FileService.fs pinned);
   FileService.db := FileService.db pinned |}.

Definition unpinned_with_neighbour : FileService.World :=
(FileService.unpin_version service "f1" 1 pinned_with_neighbour).1.

(** *** Relink scans that return

    The missing file is looked for under another name, so the two
    [report.pdf] are indexed but not chosen. *)
Definition missing_other : TrackedFile.t :=
TrackedFile.mk "f2" "other.pdf" ["docs"; "other.pdf"] 500 T MISSING
  "2024-01-01T00:00:00" None false false None.

Definition relink_world_other : FileService.World :=
{| FileService.fs := relink_disk;
   FileService.db := DatabaseManager.mkDb [missing_other] [] [] [] [] |}.

(** A scan in hash mode with the three filters active: the allow-list
    rejects [notes.txt]; the two [report.pdf] pass the size and date
    limits, and neither has the stored hash. *)

Definition relink_disk_changed : filesystem :=
list_to_map
  [ (["docs"], Dir fresh_dir_stat);
    (["scan"], Dir fresh_dir_stat);
    (["scan"; "old"], Dir fresh_dir_stat);
    (["scan"; "new"], Dir fresh_dir_stat);
    (["scan"; "notes.txt"], File (bytes "notes") (T + 5));
    (["scan"; "old"; "report.pdf"], File (repeat x42 500) (T + 1));
    (["scan"; "new"; "report.pdf"], File (repeat x43 500) (T + 100)) ].

Definition relink_world_changed : FileService.World :=
{| FileService.fs := relink_disk_changed;
   FileService.db := DatabaseManager.mkDb [missing_report] [] [] [] [] |}.

Definition relink_changed_summary : FileService.Summary :=
{| FileService.checked := 1; FileService.relinked := 0;
   FileService.not_found := 1; FileService.scanned := 1;
   FileService.hash_checked := 2; FileService.size_filtered := 0;
   FileService.date_filtered := 0 |}.

End Demo.

(* ===================================================================== *)
(** * Part II: theorems                                                   *)
(* ===================================================================== *)

(** ** Auxiliary facts on lists *)
Module ListFacts.

Lemma find_none_intro {A} (f : A -> bool) (l : list A) :
  (forall x, In x l -> f x = false) -> List.find f l = None.
Proof.
  induction l as [|a l IH]; simpl; intros Hall; [done|].
  rewrite (Hall a) by auto. apply IH. auto.
Qed.

Lemma existsb_false_elim {A} (f : A -> bool) (l : list A) :
  existsb f l = false -> forall x, In x l -> f x = false.
Proof.
  intros Hex x Hin. destruct (f x) eqn:Hfx; [|done].
  assert (existsb f l = true) by (apply existsb_exists; eauto).
  congruence.
Qed.

Lemma find_some_existsb {A} (f : A -> bool) (l : list A) :
  existsb f l = true <-> List.find f l <> None.
Proof.
  induction l as [|a l IH]; simpl; [done|].
  destruct (f a); simpl; [done|apply IH].
Qed.

End ListFacts.

(** ** The verification engine *)
Module VerificationFacts.
Import Py Pathlib Os Models Verification.

Section WithHash.
Context `{HashAlgorithm}.

Lemma truthy_hexdigest data : truthy_str (Some (hexdigest data)) = true.
Proof.
  simpl. apply negb_true_iff, String.eqb_neq, hexdigest_nonempty.
Qed.

Lemma compute_file_hash_truthy fs p h :
  compute_file_hash fs p = Some h -> truthy_str (Some h) = true.
Proof.
  unfold compute_file_hash.
  destruct (Os.exists_ fs p); simpl; [|discriminate].
  destruct (read_bytes fs p); [|discriminate].
  intros [= <-]. apply truthy_hexdigest.
Qed.

Lemma exists_stat fs p :
  Os.exists_ fs p = false <-> Os.stat fs p = None.
Proof.
  unfold Os.exists_, Os.stat.
  destruct (node_at fs p) as [[? ?|?]|]; split; congruence.
Qed.

(** Without a stored hash the verdict rests on size and mtime alone. *)
Lemma check_file_status_no_stored_hash (fs : filesystem) (tf : TrackedFile.t) :
  TrackedFile.file_hash tf = None ->
  check_file_status fs tf true =
    match Os.stat fs (TrackedFile.file_path tf) with
    | None => MISSING
    | Some live =>
        if bool_decide (st_size live = TrackedFile.file_size tf
                        /\ st_mtime live = TrackedFile.modified_time tf)
        then OK else MODIFIED
    end.
Proof.
  intros Hnone. unfold check_file_status, get_file_state.
  destruct (Os.stat fs (TrackedFile.file_path tf)) as [live|]; simpl; [|done].
  rewrite Hnone. simpl.
  destruct (Z.eqb_spec (st_size live) (TrackedFile.file_size tf));
    destruct (Z.eqb_spec (st_mtime live) (TrackedFile.modified_time tf));
    simpl; case_bool_decide; tauto.
Qed.

(** C1. [check_file_status] (with hashing enabled, its default) is
    MISSING when the path does not exist; OK when the live size and
    mtime both equal the stored ones; otherwise, with a stored hash,
    OK exactly when the recomputed live hash equals it and MODIFIED
    if not; and MODIFIED when there is no stored hash. *)
Theorem check_file_status_policy (fs : filesystem) (tf : TrackedFile.t) :
  check_file_status fs tf true =
    match Os.stat fs (TrackedFile.file_path tf) with
    | None => MISSING
    | Some live =>
        if bool_decide (st_size live = TrackedFile.file_size tf
                        /\ st_mtime live = TrackedFile.modified_time tf)
        then OK
        else
          match TrackedFile.file_hash tf with
          | Some stored =>
              if bool_decide
                   (compute_file_hash fs (TrackedFile.file_path tf)
                    = Some stored)
              then OK else MODIFIED
          | None => MODIFIED
          end
    end.
Proof.
  unfold check_file_status, get_file_state.
  destruct (Os.stat fs (TrackedFile.file_path tf)) as [live|]; simpl; [|done].
  destruct (bool_decide (st_size live = TrackedFile.file_size tf
                         /\ st_mtime live = TrackedFile.modified_time tf))
    eqn:Hmeta.
  - apply bool_decide_eq_true_1 in Hmeta as [-> ->].
    by rewrite !Z.eqb_refl.
  - apply bool_decide_eq_false_1 in Hmeta.
    assert ((negb (st_size live =? TrackedFile.file_size tf)
             || negb (st_mtime live =? TrackedFile.modified_time tf)) = true)
      as ->.
    { destruct (Z.eqb_spec (st_size live) (TrackedFile.file_size tf));
        destruct (Z.eqb_spec (st_mtime live) (TrackedFile.modified_time tf));
        simpl; tauto. }
    destruct (TrackedFile.file_hash tf) as [stored|]; [|done].
    destruct (compute_file_hash fs (TrackedFile.file_path tf))
      as [cur|] eqn:Hc.
    + pose proof (compute_file_hash_truthy _ _ _ Hc) as Ht.
      rewrite Ht. simpl andb.
      destruct (bool_decide (Some cur = Some stored)) eqn:Heq.
      * apply bool_decide_eq_true_1 in Heq as [= <-]. by rewrite Ht.
      * by destruct (truthy_str (Some stored)).
    + rewrite bool_decide_eq_false_2 by done.
      by destruct (truthy_str (Some stored)).
Qed.

End WithHash.

(** The five cases of the testable property, on concrete inputs. *)
Example check_file_status_cases :
  let check := check_file_status (H := Demo.demo_hash) in
  let H := Some (Demo.demo_hexdigest Demo.content100) in
  check (Demo.disk Demo.content100 1000) (Demo.tracked H) true = OK
  /\ check (Demo.disk Demo.content100 2000) (Demo.tracked H) true = OK
  /\ check (Demo.disk Demo.other100 2000) (Demo.tracked H) true = MODIFIED
  /\ check Demo.disk_without_file (Demo.tracked H) true = MISSING
  /\ check (Demo.disk Demo.content100 2000) (Demo.tracked None) true = MODIFIED.
Proof. vm_compute. done. Qed.

End VerificationFacts.

(** ** Version numbering *)
Module VersionNumbering.
Import Py Pathlib Models DatabaseManager.

Lemma max_fold_bounds file_id (vs : list Version.t) (acc : option Z) :
  match fold_left (max_step file_id) vs acc with
  | None =>
      acc = None
      /\ List.filter (fun v => String.eqb (Version.file_id v) file_id) vs = []
  | Some m =>
      (forall a, acc = Some a -> a <= m)
      /\ (forall v, In v vs -> Version.file_id v = file_id ->
                    Version.version_number v <= m)
      /\ (acc = Some m
          \/ exists v, In v vs /\ Version.file_id v = file_id
                       /\ Version.version_number v = m)
  end.
Proof.
  revert acc. induction vs as [|v vs IH]; intros acc; simpl.
  - destruct acc as [a|]; [|done].
    split; [by intros ? [= ->]|]. split; [done|by left].
  - specialize (IH (max_step file_id acc v)).
    destruct (fold_left (max_step file_id) vs (max_step file_id acc v))
      as [m|] eqn:Hf.
    + destruct IH as (Hacc & Hin & Hwit).
      unfold max_step in Hacc, Hwit.
      destruct (String.eqb_spec (Version.file_id v) file_id) as [Hv|Hv].
      * repeat split.
        -- intros a ->. specialize (Hacc _ eq_refl). lia.
        -- intros w [<-|Hw] Hfw; [|by apply Hin].
           destruct acc as [a|]; specialize (Hacc _ eq_refl); lia.
        -- destruct Hwit as [Hm|(w & Hw & Hfw & Hn)];
             [|right; exists w; auto].
           destruct acc as [a|]; injection Hm as Hm.
           ++ destruct (Z.max_spec a (Version.version_number v))
                as [[_ Hx]|[_ Hx]].
              ** right. exists v. repeat split; auto. lia.
              ** left. f_equal. lia.
           ++ right. exists v. auto.
      * repeat split; auto.
        -- intros w [<-|Hw] Hfw; [done|by apply Hin].
        -- destruct Hwit as [Hm|(w & Hw & Hfw & Hn)]; [by left|].
           right. exists w. auto.
    + destruct IH as (Hacc & Hnil). unfold max_step in Hacc.
      destruct (String.eqb_spec (Version.file_id v) file_id) as [Hv|Hv].
      * destruct acc; discriminate.
      * done.
Qed.

Lemma max_version_number_None db file_id :
  max_version_number db file_id = None <-> version_numbers db file_id = [].
Proof.
  unfold max_version_number, version_numbers.
  pose proof (max_fold_bounds file_id (versions db) None) as Hb.
  destruct (fold_left (max_step file_id) (versions db) None) as [m|].
  - destruct Hb as (_ & _ & [Hm|(v & Hv & Hf & Hn)]); [done|].
    split; [done|]. intros Hnil.
    assert (In (Version.version_number v)
              (map Version.version_number
                 (List.filter
                    (fun v => String.eqb (Version.file_id v) file_id)
                    (versions db)))) as Hin.
    { apply in_map, filter_In. split; [done|]. by apply String.eqb_eq. }
    rewrite Hnil in Hin. destruct Hin.
  - destruct Hb as [_ ->]. done.
Qed.

Lemma max_version_number_Some db file_id m :
  max_version_number db file_id = Some m ->
  In m (version_numbers db file_id)
  /\ forall n, In n (version_numbers db file_id) -> n <= m.
Proof.
  unfold max_version_number, version_numbers.
  pose proof (max_fold_bounds file_id (versions db) None) as Hb.
  intros Hm. rewrite Hm in Hb.
  destruct Hb as (_ & Hle & [?|(v & Hv & Hf & Hn)]); [done|].
  split.
  - rewrite <- Hn. apply in_map, filter_In. split; [done|].
    by apply String.eqb_eq.
  - intros n (w & <- & Hw)%in_map_iff.
    apply filter_In in Hw as [Hw Hfw]. apply Hle; [done|].
    by apply String.eqb_eq.
Qed.

(** [(result or 0) + 1] is the maximum plus one, and 1 without rows. *)
Lemma get_next_version_number_spec db file_id :
  get_next_version_number db file_id =
    match max_version_number db file_id with
    | Some m => m + 1
    | None => 1
    end.
Proof.
  unfold get_next_version_number.
  destruct (max_version_number db file_id) as [m|]; simpl; [|done].
  destruct (Z.eqb_spec m 0) as [->|]; done.
Qed.

Lemma create_version_inv new_id now f msg sz mt h db db' v :
  create_version new_id now f msg sz mt h db = Ok (db', v) ->
  v = Version.mk new_id f (get_next_version_number db f) msg sz mt now h
        false None
  /\ db' = with_versions db (versions db ++ [v]).
Proof.
  unfold create_version. simpl.
  destruct (existsb _ (versions db)); [discriminate|].
  intros [= <- <-]. done.
Qed.

Lemma version_numbers_snoc db v :
  version_numbers (with_versions db (versions db ++ [v])) (Version.file_id v)
  = version_numbers db (Version.file_id v) ++ [Version.version_number v].
Proof.
  unfold version_numbers. simpl.
  rewrite List.filter_app, map_app. simpl.
  by rewrite String.eqb_refl.
Qed.

Lemma max_of_initial_segment db f (k : nat) :
  version_numbers db f = map Z.of_nat (seq 1 k) ->
  max_version_number db f = if decide (k = 0)%nat then None else Some (Z.of_nat k).
Proof.
  intros Hseq. destruct (max_version_number db f) as [m|] eqn:Hm.
  - apply max_version_number_Some in Hm as [Hin Hle].
    rewrite Hseq in Hin, Hle.
    apply in_map_iff in Hin as (i & <- & Hi%in_seq).
    destruct (decide (k = 0)%nat) as [->|Hk]; [lia|].
    f_equal. specialize (Hle (Z.of_nat k)).
    assert (Z.of_nat k <= Z.of_nat i); [|lia].
    apply Hle, in_map, in_seq. lia.
  - apply max_version_number_None in Hm. rewrite Hm in Hseq.
    destruct k; [done|]. discriminate.
Qed.

(** C2, as amended. The number [create_version] assigns is the current
    maximum for the file plus one (1 when the file has no version); it
    is larger than every number the file has; when the file has the
    numbers 1..k it gets k+1, so sequential creation leaves no gap; and
    it was never used before provided the deletions so far left the
    highest-numbered version in place. *)
Theorem create_version_numbering new_id now f msg sz mt h db db' v :
  create_version new_id now f msg sz mt h db = Ok (db', v) ->
  Version.version_number v =
    match max_version_number db f with Some m => m + 1 | None => 1 end
  /\ (forall n, In n (version_numbers db f) -> n < Version.version_number v)
  /\ (forall k : nat,
        version_numbers db f = map Z.of_nat (seq 1 k) ->
        version_numbers db' f = map Z.of_nat (seq 1 (S k)))
  /\ (forall db0 p,
        versions db = delete_where p (versions db0) ->
        max_version_number db0 f = max_version_number db f ->
        ~ In (Version.version_number v) (version_numbers db0 f)).
Proof.
  intros [-> ->]%create_version_inv. cbn [Version.version_number].
  rewrite get_next_version_number_spec.
  assert (forall d, max_version_number d f = max_version_number db f ->
            forall n, In n (version_numbers d f) ->
            n < match max_version_number db f with
                | Some m => m + 1 | None => 1 end) as Hlt.
  { intros d Hd n Hn. rewrite <- Hd.
    destruct (max_version_number d f) as [m|] eqn:Hm.
    - apply max_version_number_Some in Hm as [_ Hle].
      specialize (Hle _ Hn). lia.
    - apply max_version_number_None in Hm. rewrite Hm in Hn. destruct Hn. }
  split; [done|]. split; [by apply Hlt|]. split.
  - intros k Hk.
    pose proof (version_numbers_snoc db
      (Version.mk new_id f (match max_version_number db f with
                            | Some m => m + 1 | None => 1 end)
         msg sz mt now h false None)) as Hs.
    simpl in Hs. rewrite Hs, Hk.
    rewrite (max_of_initial_segment _ _ _ Hk).
    rewrite seq_S, map_app. simpl. f_equal. f_equal.
    destruct (decide (k = 0)%nat) as [->|]; [done|lia].
  - intros db0 p _ Hmax Hin. specialize (Hlt db0 Hmax _ Hin). lia.
Qed.

(** The rows of the demo database are those three sequential
    [create_version] calls produce. *)
Example three_sequential_versions :
  let mk vid db :=
    match create_version vid "2024-01-01T00:00:00" "f1" "msg" 3 1000
            (Some "habc") db with
    | Ok (db', _) => db'
    | Raise _ => db
    end in
  mk "v3" (mk "v2" (mk "v1" Demo.db_no_versions)) = Demo.db_three_versions.
Proof. reflexivity. Qed.

(** C2, as stated, fails: after the latest version (number 3) of a file
    is deleted, [create_version] assigns 3 again. *)
Lemma version_number_reused_after_latest_deleted :
  ~ (forall new_id now f msg sz mt h db0 p db' v,
       create_version new_id now f msg sz mt h
         (with_versions db0 (delete_where p (versions db0))) = Ok (db', v) ->
       ~ In (Version.version_number v) (version_numbers db0 f)).
Proof.
  intros Hclaim.
  eapply (Hclaim "v4" "2024-02-01T00:00:00" "f1" "again" 3 1000 None
            Demo.db_three_versions Demo.is_version_3_of_f1).
  - reflexivity.
  - vm_compute. auto.
Qed.

Lemma create_version_numbering_witness :
  Version.version_number Demo.version_4 = 4
  /\ ~ In (Version.version_number Demo.version_4)
          (version_numbers Demo.db_three_versions "f1").
Proof.
  destruct (create_version_numbering "v4" "2024-02-01T00:00:00" "f1"
              "fourth" 3 1000 (Some "habc") Demo.db_version_2_deleted
              (with_versions Demo.db_version_2_deleted
                 (versions Demo.db_version_2_deleted ++ [Demo.version_4]))
              Demo.version_4 eq_refl) as (H1 & _ & _ & H4).
  split.
  - exact H1.
  - apply (H4 Demo.db_three_versions Demo.is_version_2_of_f1);
      reflexivity.
Defined.

End VersionNumbering.

(** ** Deleting a tracked file *)
Module DeleteFile.
Import Py Pathlib Models DatabaseManager ListFacts.

Lemma delete_where_In {A} (p : A -> bool) (rows : list A) (r : A) :
  In r (delete_where p rows) <-> In r rows /\ p r = false.
Proof.
  unfold delete_where. rewrite filter_In.
  destruct (p r); simpl; intuition congruence.
Qed.

(** The three explicit DELETE statements do remove the version rows, the
    metadata row and the file row. *)
Lemma delete_file_removes_file_versions_metadata file_id db :
  get_file (delete_file file_id db) file_id = None
  /\ (forall v, In v (versions (delete_file file_id db)) ->
                Version.file_id v <> file_id)
  /\ (forall m, In m (metadata (delete_file file_id db)) ->
                Metadata.file_id m <> file_id).
Proof.
  unfold delete_file, sql_delete_file_row, get_file, fetchone_where. simpl.
  repeat split.
  - apply find_none_intro. intros f [_ Hf]%delete_where_In.
    by rewrite Hf.
  - intros v [_ Hv]%delete_where_In. by apply String.eqb_neq.
  - intros m [_ Hm]%delete_where_In. by apply String.eqb_neq.
Qed.

(** No statement of [delete_file] changes [events] or [tag_links]. *)
Lemma delete_file_events_frame file_id db :
  events (delete_file file_id db) = events db
  /\ tag_links (delete_file file_id db) = tag_links db.
Proof. unfold delete_file, sql_delete_file_row. simpl. done. Qed.

(** C7. Deleting a tracked file does not delete its event rows: the
    connection [delete_file] runs on does not enforce foreign keys, so
    the [ON DELETE CASCADE] declared on [events.file_id] never fires, and
    none of its three DELETE statements names [events]. Every event of
    the file is still in the table after the file row is gone. *)
Theorem delete_file_orphans_events file_id db e :
  In e (events db) ->
  Event.file_id e = file_id ->
  In e (events (delete_file file_id db))
  /\ get_file (delete_file file_id db) file_id = None.
Proof.
  intros He _. split.
  - by rewrite (proj1 (delete_file_events_frame file_id db)).
  - apply delete_file_removes_file_versions_metadata.
Qed.

Lemma delete_file_orphans_events_witness :
  In Demo.event_of_f1 (events (delete_file "f1" Demo.db_with_history))
  /\ get_file (delete_file "f1" Demo.db_with_history) "f1" = None.
Proof.
  apply (delete_file_orphans_events "f1" Demo.db_with_history
           Demo.event_of_f1).
  - simpl. left. reflexivity.
  - reflexivity.
Defined.

(** On a connection with [PRAGMA foreign_keys = ON] the same DELETE of
    the file row would have removed the events of the file. *)
Lemma cascade_removes_events file_id db e :
  get_file db file_id <> None ->
  In e (events (sql_delete_file_row {| foreign_keys := true |} file_id db)) ->
  Event.file_id e <> file_id.
Proof.
  unfold sql_delete_file_row, get_file, fetchone_where. simpl.
  intros Hf.
  destruct (existsb _ (files db)) eqn:Hex.
  - simpl. intros [_ He]%delete_where_In. by apply String.eqb_neq.
  - exfalso. apply Hf. apply find_none_intro.
    by apply existsb_false_elim.
Qed.

(** C7 at a concrete database: the event of [f1] survives the deletion of
    [f1], as an orphan. *)
Example delete_file_orphans_event :
  let db' := delete_file "f1" Demo.db_with_history in
  get_file db' "f1" = None
  /\ versions db' = []
  /\ metadata db' = []
  /\ events db' = [Demo.event_of_f1]
  /\ Event.file_id Demo.event_of_f1 = "f1".
Proof. vm_compute. done. Qed.

End DeleteFile.

(** ** Schema migration *)
Module Migration.
Import Py Sqlite ListFacts.

Lemma extends_refl db : extends db db.
Proof. unfold extends. repeat split; auto. Qed.

Lemma extends_trans db1 db2 db3 :
  extends db1 db2 -> extends db2 db3 -> extends db1 db3.
Proof.
  intros (A1 & B1 & C1 & D1) (A2 & B2 & C2 & D2).
  repeat split; auto.
  intros n [Hn|Hn]%B2; auto.
Qed.

Lemma stable_has_table n : stable (fun db => has_table db n).
Proof. intros db db' (H & _). auto. Qed.

Lemma stable_has_column t c : stable (fun db => has_column db t c).
Proof. intros db db' (_ & _ & _ & H). auto. Qed.

Lemma stable_index_ready n :
  ~ In n store_tables -> stable (index_ready n).
Proof.
  intros Hn db db' (_ & Hback & Hidx & _) [Hi Ht]. split; [auto|].
  intros [?|?]%Hback; auto.
Qed.

Lemma stable_and (Q1 Q2 : database -> Prop) :
  stable Q1 -> stable Q2 -> stable (fun db => Q1 db /\ Q2 db).
Proof. intros H1 H2 db db' Hx [? ?]. split; eauto. Qed.

(** *** Sequencing *)

Lemma ensures_seq (m1 m2 : M cursor unit) (Q1 Q2 : database -> Prop) :
  ensures m1 Q1 -> ensures m2 Q2 -> stable Q1 ->
  ensures (run! m1 in m2) (fun db => Q1 db /\ Q2 db).
Proof.
  intros H1 H2 Hst c c'. unfold bind.
  destruct (m1 c) as [c1 [[]|e]] eqn:E1; [|discriminate].
  intros E2. destruct (H1 _ _ E1) as [Hx1 HQ1].
  destruct (H2 _ _ E2) as [Hx2 HQ2].
  split; [by eapply extends_trans|]. split; [|done].
  by eapply Hst.
Qed.

Lemma idle_seq (m1 m2 : M cursor unit) (Q1 Q2 : database -> Prop) :
  idle_when m1 Q1 -> idle_when m2 Q2 ->
  idle_when (run! m1 in m2) (fun db => Q1 db /\ Q2 db).
Proof.
  intros H1 H2 c [HQ1 HQ2]. unfold bind. rewrite (H1 c HQ1). by apply H2.
Qed.

Lemma ensures_weaken (m : M cursor unit) (Q Q' : database -> Prop) :
  ensures m Q -> (forall db, Q db -> Q' db) -> ensures m Q'.
Proof. intros H HQ c c' E. destruct (H _ _ E). auto. Qed.

Lemma idle_strengthen (m : M cursor unit) (Q Q' : database -> Prop) :
  idle_when m Q -> (forall db, Q' db -> Q db) -> idle_when m Q'.
Proof. intros H HQ c Hc. auto. Qed.

(** *** The three statements *)

Lemma has_column_insert_other db t c t' tb' idx :
  t <> t' ->
  has_column db t c ->
  has_column {| tables := <[t' := tb']> (tables db); indexes := idx |} t c.
Proof.
  intros Hne (tb & Htb & Hc). exists tb. simpl.
  by rewrite lookup_insert_ne.
Qed.

Lemma create_table_ensures name cols cons :
  In name store_tables ->
  ensures (create_table_if_not_exists name cols cons)
    (fun db => has_table db name).
Proof.
  intros Hname c c'. unfold create_table_if_not_exists.
  destruct (tables (schema c) !! name) as [t|] eqn:Ht.
  - intros [= <-]. split; [apply extends_refl|]. by exists t.
  - destruct (indexes (schema c) !! name); [discriminate|].
    intros [= <-]. simpl. split.
    + repeat split; unfold has_table, has_index; simpl.
      * intros n [t Hn]. destruct (decide (name = n)) as [->|]; [congruence|].
        rewrite lookup_insert_ne by done. by exists t.
      * intros n. destruct (decide (name = n)) as [->|]; [by right|].
        rewrite lookup_insert_ne by done. by left.
      * done.
      * intros t c0 Hc. apply has_column_insert_other; [|done].
        intros ->. destruct Hc as (tb & Htb & _). congruence.
    + unfold has_table. simpl. rewrite lookup_insert_eq. by eexists.
Qed.

Lemma create_table_idle name cols cons :
  idle_when (create_table_if_not_exists name cols cons)
    (fun db => has_table db name).
Proof.
  intros c [t Ht]. unfold create_table_if_not_exists. by rewrite Ht.
Qed.

Lemma create_index_ensures name tbl c0 :
  ensures (create_index_if_not_exists name tbl c0) (index_ready name).
Proof.
  intros c c'. unfold create_index_if_not_exists.
  destruct (tables (schema c) !! tbl) as [t|]; [|discriminate].
  destruct (tables (schema c) !! name) as [?|] eqn:Hn; [discriminate|].
  destruct (indexes (schema c) !! name) as [i|] eqn:Hi.
  - intros [= <-]. split; [apply extends_refl|]. split; [by exists i|].
    intros [? ?]. congruence.
  - destruct (existsb _ _); [|discriminate].
    intros [= <-]. simpl. split.
    + repeat split; unfold has_table, has_index; simpl; auto.
      intros n [j Hj]. destruct (decide (name = n)) as [->|]; [congruence|].
      rewrite lookup_insert_ne by done. by exists j.
    + split.
      * unfold has_index. simpl. rewrite lookup_insert_eq. by eexists.
      * unfold has_table. simpl. intros [? ?]. congruence.
Qed.

Lemma create_index_idle name tbl c0 :
  idle_when (create_index_if_not_exists name tbl c0)
    (fun db => has_table db tbl /\ index_ready name db).
Proof.
  intros c ([t Ht] & [i Hi] & Hno). unfold create_index_if_not_exists.
  rewrite Ht. destruct (tables (schema c) !! name) eqn:Hn.
  - exfalso. apply Hno. by eexists.
  - by rewrite Hi.
Qed.

Lemma existsb_eqb_app c0 (l l' : list string) :
  existsb (String.eqb c0) (l ++ l')
  = existsb (String.eqb c0) l || existsb (String.eqb c0) l'.
Proof. apply existsb_app. Qed.

Lemma alter_ensures tbl cl :
  ensures (alter_table_add_column tbl cl)
    (fun db => has_column db tbl (col_name cl)).
Proof.
  intros c c'. unfold alter_table_add_column.
  destruct (tables (schema c) !! tbl) as [t|] eqn:Ht; [|discriminate].
  destruct (existsb _ (column_names t)) eqn:Hdup; [discriminate|].
  intros [= <-]. simpl. split.
  - repeat split; unfold has_table, has_index; simpl; auto.
    + intros n [t0 Hn]. destruct (decide (tbl = n)) as [->|].
      * rewrite lookup_insert_eq. by eexists.
      * rewrite lookup_insert_ne by done. by exists t0.
    + intros n. destruct (decide (tbl = n)) as [->|].
      * intros _. left. by exists t.
      * rewrite lookup_insert_ne by done. by left.
    + intros t0 c0 (tb & Htb & Hc).
      destruct (decide (tbl = t0)) as [->|].
      * eexists. simpl. rewrite lookup_insert_eq. split; [done|].
        unfold column_names. simpl. rewrite map_app, existsb_app.
        assert (tb = t) as -> by congruence.
        unfold column_names in Hc. by rewrite Hc.
      * exists tb. simpl. by rewrite lookup_insert_ne.
  - eexists. simpl. rewrite lookup_insert_eq. split; [done|].
    unfold column_names. simpl. rewrite map_app, existsb_app. simpl.
    rewrite String.eqb_refl. by rewrite orb_true_r.
Qed.

(** One guarded [ADD COLUMN], on the column list read before it. *)
Lemma guarded_alter_ensures tbl cl (cols : list string) (c c' : cursor) :
  cols = match tables (schema c) !! tbl with
         | Some t => column_names t | None => [] end ->
  (if not_in (col_name cl) cols
   then alter_table_add_column tbl cl else ret tt) c = (c', Ok tt) ->
  extends (schema c) (schema c') /\ has_column (schema c') tbl (col_name cl).
Proof.
  intros -> E. unfold not_in in E.
  destruct (tables (schema c) !! tbl) as [t|] eqn:Ht.
  - destruct (existsb _ (column_names t)) eqn:Hc; simpl in E.
    + injection E as <-. split; [apply extends_refl|]. by exists t.
    + by apply alter_ensures in E.
  - simpl in E. by apply alter_ensures in E.
Qed.

Lemma guarded_alter_idle tbl cl (cols : list string) (c : cursor) :
  cols = match tables (schema c) !! tbl with
         | Some t => column_names t | None => [] end ->
  has_column (schema c) tbl (col_name cl) ->
  (if not_in (col_name cl) cols
   then alter_table_add_column tbl cl else ret tt) c = (c, Ok tt).
Proof.
  intros -> (t & Ht & Hc). rewrite Ht. unfold not_in. by rewrite Hc.
Qed.

(** *** The migrations *)

Lemma single_migration_ensures tbl cl :
  ensures
    (let* columns := table_info tbl in
     if not_in (col_name cl) columns
     then alter_table_add_column tbl cl else ret tt)
    (fun db => has_column db tbl (col_name cl)).
Proof.
  intros c c' E. unfold bind, table_info in E.
  by eapply guarded_alter_ensures in E.
Qed.

Lemma single_migration_idle tbl cl :
  idle_when
    (let* columns := table_info tbl in
     if not_in (col_name cl) columns
     then alter_table_add_column tbl cl else ret tt)
    (fun db => has_column db tbl (col_name cl)).
Proof.
  intros c Hc. unfold bind, table_info.
  by apply guarded_alter_idle.
Qed.

Lemma hash_column_ensures :
  ensures _migrate_add_hash_column
    (fun db => has_column db "files" "file_hash"
               /\ has_column db "versions" "file_hash").
Proof.
  intros c c' E.
  apply (ensures_seq _ _ _ _
           (single_migration_ensures "files" (col "file_hash" "TEXT"))
           (single_migration_ensures "versions" (col "file_hash" "TEXT"))
           (stable_has_column _ _) c c').
  exact E.
Qed.

Lemma hash_column_idle :
  idle_when _migrate_add_hash_column
    (fun db => has_column db "files" "file_hash"
               /\ has_column db "versions" "file_hash").
Proof.
  intros c Hc.
  exact (idle_seq _ _ _ _
           (single_migration_idle "files" (col "file_hash" "TEXT"))
           (single_migration_idle "versions" (col "file_hash" "TEXT")) c Hc).
Qed.

(** [_migrate_add_pin_columns] reads the columns once and decides both
    additions on that list. *)
Lemma pin_columns_ensures :
  ensures _migrate_add_pin_columns
    (fun db => has_column db "versions" "is_pinned"
               /\ has_column db "versions" "pinned_path").
Proof.
  intros c c' E. unfold _migrate_add_pin_columns, bind, table_info in E.
  match type of E with
  | context [not_in "is_pinned" ?cols] => set (columns := cols) in *
  end.
  destruct ((if not_in "is_pinned" columns then _ else ret tt) c)
    as [c1 [[]|e]] eqn:E1; [|discriminate].
  apply (guarded_alter_ensures "versions"
           {| col_name := "is_pinned"; col_decl := "INTEGER DEFAULT 0";
              col_default := Integer 0 |} columns c c1 eq_refl)
    in E1 as [Hx1 Hp1].
  simpl in Hp1.
  assert (extends (schema c1) (schema c')
          /\ has_column (schema c') "versions" "pinned_path") as [Hx2 Hp2].
  { unfold not_in in E.
    destruct (existsb (String.eqb "pinned_path") columns) eqn:Hold;
      simpl in E.
    - injection E as <-. split; [apply extends_refl|].
      destruct Hx1 as (_ & _ & _ & Hcol). apply Hcol.
      subst columns.
      destruct (tables (schema c) !! "versions") as [t|] eqn:Ht;
        [|discriminate].
      by exists t.
    - by apply (alter_ensures "versions" (col "pinned_path" "TEXT")) in E. }
  split; [by eapply extends_trans|]. split; [|done].
  by eapply (stable_has_column "versions" "is_pinned").
Qed.

Lemma pin_columns_idle :
  idle_when _migrate_add_pin_columns
    (fun db => has_column db "versions" "is_pinned"
               /\ has_column db "versions" "pinned_path").
Proof.
  intros c [(t & Ht & H1) (t' & Ht' & H2)].
  assert (t' = t) as -> by congruence.
  unfold _migrate_add_pin_columns, bind, table_info, not_in.
  rewrite Ht, H1, H2. done.
Qed.

Lemma favorite_column_ensures :
  ensures _migrate_add_favorite_column
    (fun db => has_column db "files" "is_favorite").
Proof.
  exact (single_migration_ensures "files"
           {| col_name := "is_favorite"; col_decl := "INTEGER DEFAULT 0";
              col_default := Integer 0 |}).
Qed.

Lemma favorite_column_idle :
  idle_when _migrate_add_favorite_column
    (fun db => has_column db "files" "is_favorite").
Proof.
  exact (single_migration_idle "files"
           {| col_name := "is_favorite"; col_decl := "INTEGER DEFAULT 0";
              col_default := Integer 0 |}).
Qed.

Lemma archived_column_ensures :
  ensures _migrate_add_archived_column
    (fun db => has_column db "files" "is_archived").
Proof.
  exact (single_migration_ensures "files"
           {| col_name := "is_archived"; col_decl := "INTEGER DEFAULT 0";
              col_default := Integer 0 |}).
Qed.

Lemma archived_column_idle :
  idle_when _migrate_add_archived_column
    (fun db => has_column db "files" "is_archived").
Proof.
  exact (single_migration_idle "files"
           {| col_name := "is_archived"; col_decl := "INTEGER DEFAULT 0";
              col_default := Integer 0 |}).
Qed.

Lemma project_column_ensures :
  ensures _migrate_add_project_column
    (fun db => has_column db "files" "project_id").
Proof.
  exact (single_migration_ensures "files"
           (col "project_id" "TEXT REFERENCES projects(id)")).
Qed.

Lemma project_column_idle :
  idle_when _migrate_add_project_column
    (fun db => has_column db "files" "project_id").
Proof.
  exact (single_migration_idle "files"
           (col "project_id" "TEXT REFERENCES projects(id)")).
Qed.

(** *** The whole of [_init_database] *)

Ltac ensures_step :=
  first [ apply create_table_ensures; simpl; tauto
        | apply create_index_ensures
        | apply hash_column_ensures
        | apply pin_columns_ensures
        | apply favorite_column_ensures
        | apply archived_column_ensures
        | apply project_column_ensures ].

Ltac stable_step :=
  first [ apply stable_has_table
        | apply stable_has_column
        | apply stable_index_ready; simpl; intuition discriminate
        | apply stable_and; stable_step ].

Ltac idle_step :=
  first [ apply create_table_idle
        | apply create_index_idle
        | apply hash_column_idle
        | apply pin_columns_idle
        | apply favorite_column_idle
        | apply archived_column_idle
        | apply project_column_idle ].

Lemma init_database_ensures : ensures _init_database settled.
Proof.
  eapply ensures_weaken.
  - unfold _init_database.
    repeat (eapply ensures_seq; [ensures_step| |stable_step]).
    ensures_step.
  - intros db. cbv beta. unfold settled. simpl. tauto.
Qed.

Lemma init_database_idle : idle_when _init_database settled.
Proof.
  eapply idle_strengthen.
  - unfold _init_database.
    repeat (eapply idle_seq; [idle_step|]).
    idle_step.
  - intros db. cbv beta. unfold settled. simpl. tauto.
Qed.

(** C8. Opening the store a second time on the database a first run left
    behind executes no schema-changing statement (every table and index
    exists, every missing-column check finds its column), raises no
    error, and leaves the database, schema and rows, exactly as it was. *)
Theorem init_database_idempotent db db1 log :
  open_store db = (db1, log, Ok tt) ->
  open_store db1 = (db1, [], Ok tt).
Proof.
  unfold open_store.
  destruct (_init_database {| schema := db; changes := [] |})
    as [c r] eqn:E.
  intros [= <- <- ->].
  apply init_database_ensures in E as [_ Hs].
  by rewrite (init_database_idle {| schema := schema c; changes := [] |} Hs).
Qed.

Lemma init_database_idempotent_witness :
  open_store Demo.legacy_database_migrated
  = (Demo.legacy_database_migrated, [], Ok tt).
Proof.
  apply (init_database_idempotent Demo.legacy_database
           Demo.legacy_database_migrated
           (open_store Demo.legacy_database).1.2).
  vm_compute. reflexivity.
Defined.

End Migration.

(** ** The job scheduler *)
Module JobQueueFacts.
Import Py JobQueue.

Section WithState.
Context {S : Type}.
Implicit Types (handlers : Handlers S) (w : Worker S) (job : Job).

(** A job marked RUNNING with progress 0, as [_run] hands it to a handler. *)
Lemma run_job_no_handler handlers job w :
  handlers (job_type job) = None ->
  let started := set_progress 0 (set_status RUNNING job) in
  let failed :=
    set_error (Some "No handler for job type") (set_status FAILED started) in
  run_job handlers job w =
    {| w_state := w_state w;
       w_running_jobs := delete (id job) (<[id job := job]> (w_running_jobs w));
       w_emitted := w_emitted w ++ [job_updated started; job_completed failed];
       w_finished := w_finished w ++ [failed] |}.
Proof.
  intros Hh. unfold run_job. simpl. rewrite Hh.
  by rewrite <- app_assoc.
Qed.

Lemma run_job_finishes_one handlers job w :
  exists job', w_finished (run_job handlers job w) = w_finished w ++ [job']
               /\ exists before,
                    w_emitted (run_job handlers job w)
                    = before ++ [job_completed job'].
Proof.
  unfold run_job. simpl. destruct (handlers (job_type job)) as [h|]; simpl.
  - eexists. split; [done|]. eexists. by rewrite !app_assoc.
  - eexists. split; [done|]. eexists. done.
Qed.

Lemma run_all_jobs handlers (jobs : list Job) w :
  exists w',
    _run handlers false (map Some jobs) w = (w', [], Polling)
    /\ length (w_finished w') = (length (w_finished w) + length jobs)%nat.
Proof.
  revert w. induction jobs as [|job jobs IH]; intros w; simpl.
  - exists w. split; [done|lia].
  - destruct (IH (run_job handlers job w)) as (w' & Hrun & Hlen).
    exists w'. split; [done|].
    destruct (run_job_finishes_one handlers job w) as (job' & Hfin & _).
    rewrite Hlen, Hfin, length_app. simpl. lia.
Qed.

(** C9. For a job taken off the queue by a worker: without a registered
    handler for its type it ends FAILED with the error "No handler for job
    type", and no handler runs; when its handler raises, the exception is
    caught, its text is put into [job.error] and the job ends FAILED; and
    in both cases the worker stays in its loop and goes on with the next
    queue entry, so a queue of jobs is processed to its end whatever the
    handlers do. *)
Theorem worker_fails_job_and_continues handlers :
  (forall job w,
      handlers (job_type job) = None ->
      exists failed,
        w_finished (run_job handlers job w) = w_finished w ++ [failed]
        /\ status failed = FAILED
        /\ error failed = Some "No handler for job type"
        /\ w_state (run_job handlers job w) = w_state w
        /\ w_emitted (run_job handlers job w)
           = w_emitted w
               ++ [job_updated (set_progress 0 (set_status RUNNING job));
                   job_completed failed])
  /\ (forall job w handler exc,
        handlers (job_type job) = Some handler ->
        h_outcome (handler (set_progress 0 (set_status RUNNING job))
                     (w_state w)) = Raise exc ->
        exists failed,
          w_finished (run_job handlers job w) = w_finished w ++ [failed]
          /\ status failed = FAILED
          /\ error failed = Some (str_exn exc))
  /\ (forall job rest w,
        _run handlers false (Some job :: rest) w
        = _run handlers false rest (run_job handlers job w))
  /\ (forall (jobs : list Job) w,
        exists w',
          _run handlers false (map Some jobs) w = (w', [], Polling)
          /\ length (w_finished w')
             = (length (w_finished w) + length jobs)%nat).
Proof.
  repeat split.
  - intros job w Hh. rewrite (run_job_no_handler _ _ _ Hh). simpl.
    eexists. repeat split; done.
  - intros job w handler exc Hh Hexc. unfold run_job. simpl. rewrite Hh.
    simpl in Hexc. rewrite Hexc. simpl. eexists. repeat split; done.
  - apply run_all_jobs.
Qed.

End WithState.

(** The demo queue: the job without handler and the job whose handler
    raises both end FAILED, and the job behind them is still run and
    completes. *)
Example demo_queue_run :
  let '(w, remaining, life) :=
    _run Demo.demo_handlers false (map Some Demo.demo_queue) (new_worker tt) in
  life = Polling /\ remaining = []
  /\ map (fun j => (id j, status j, error j, progress j)) (w_finished w)
     = [ ("j1", FAILED, Some "No handler for job type", 0);
         ("j2", FAILED, Some "disk full", 20);
         ("j3", COMPLETED, None, 100) ].
Proof. vm_compute. done. Qed.

Lemma worker_fails_job_and_continues_witness :
  (exists failed,
     w_finished (run_job Demo.demo_handlers (Demo.job PIN_COPY "j1")
                   (new_worker tt)) = [failed]
     /\ status failed = FAILED
     /\ error failed = Some "No handler for job type")
  /\ (exists failed,
        w_finished (run_job Demo.demo_handlers (Demo.job RESTORE "j2")
                      (new_worker tt)) = [failed]
        /\ status failed = FAILED
        /\ error failed = Some "disk full").
Proof.
  destruct (worker_fails_job_and_continues Demo.demo_handlers)
    as (Hnone & Hraise & _ & _).
  split.
  - destruct (Hnone (Demo.job PIN_COPY "j1") (new_worker tt) eq_refl)
      as (failed & Hf & Hs & He & _).
    exists failed. auto.
  - destruct (Hraise (Demo.job RESTORE "j2") (new_worker tt)
                Demo.raising_handler (OSError "disk full") eq_refl eq_refl)
      as (failed & Hf & Hs & He).
    exists failed. auto.
Defined.

End JobQueueFacts.

(** ** The file system operations *)
Module OsFacts.
Import Py Pathlib Os.

Lemma only_new_dirs_refl fs : only_new_dirs fs fs.
Proof. intros q. by left. Qed.

Lemma only_new_dirs_trans fs1 fs2 fs3 :
  only_new_dirs fs1 fs2 -> only_new_dirs fs2 fs3 -> only_new_dirs fs1 fs3.
Proof.
  intros H12 H23 q. destruct (H12 q) as [E1|[N1 D1]], (H23 q) as [E2|[N2 D2]].
  - left. congruence.
  - right. split; congruence.
  - right. split; congruence.
  - congruence.
Qed.

(** Regular files are neither made nor lost nor changed. *)
Lemma only_new_dirs_files fs fs' q data mtime :
  only_new_dirs fs fs' ->
  fs' !! q = Some (File data mtime) <-> fs !! q = Some (File data mtime).
Proof.
  intros Hg. destruct (Hg q) as [E|[N D]].
  - by rewrite E.
  - rewrite N, D. split; discriminate.
Qed.

Lemma only_new_dirs_keeps fs fs' q n :
  only_new_dirs fs fs' -> fs !! q = Some n -> fs' !! q = Some n.
Proof. intros Hg Hq. destruct (Hg q) as [E|[N D]]; congruence. Qed.

Lemma fold_mkdir_raise target e l :
  fold_left (mkdir_step target) l (Raise e) = Raise e.
Proof. induction l; simpl; auto. Qed.

Lemma mkdir_step_grows target fs q fs' :
  mkdir_step target (Ok fs) q = Ok fs' ->
  only_new_dirs fs fs' /\ is_dir fs' q = true.
Proof.
  unfold mkdir_step, is_dir.
  destruct (node_at fs q) as [[d m|st]|] eqn:Hq.
  - case_bool_decide; discriminate.
  - intros [= <-]. split; [apply only_new_dirs_refl|]. by rewrite Hq.
  - intros [= <-]. destruct q as [|c q]; [discriminate|]. simpl in Hq.
    split.
    + intros q'. destruct (decide (c :: q = q')) as [<-|Hne].
      * right. by rewrite lookup_insert_eq.
      * left. by rewrite lookup_insert_ne.
    + simpl. by rewrite lookup_insert_eq.
Qed.

Lemma fold_mkdir_grows target l fs fs' :
  fold_left (mkdir_step target) l (Ok fs) = Ok fs' ->
  only_new_dirs fs fs'
  /\ (forall q, In q l -> is_dir fs' q = true).
Proof.
  revert fs. induction l as [|q l IH]; intros fs; cbn [fold_left].
  - intros [= <-]. split; [apply only_new_dirs_refl|]. intros ? [].
  - destruct (mkdir_step target (Ok fs) q) as [fs1|e] eqn:E1.
    + intros E2. apply mkdir_step_grows in E1 as [G1 D1].
      apply IH in E2 as [G2 D2]. split; [by eapply only_new_dirs_trans|].
      intros q' [<-|Hin]; [|by apply D2].
      destruct q as [|c q]; [reflexivity|].
      unfold is_dir, node_at in D1 |- *.
      destruct (fs1 !! (c :: q)) as [[?|?]|] eqn:Hq; try discriminate D1.
      by rewrite (only_new_dirs_keeps _ _ _ _ G2 Hq).
    + by rewrite fold_mkdir_raise.
Qed.

Lemma ancestors_and_self_last pre p :
  p <> [] -> In (pre ++ p) (ancestors_and_self pre p).
Proof.
  revert pre. induction p as [|c p IH]; intros pre Hp; [done|]. simpl.
  destruct p as [|c' p].
  - left. done.
  - right.
    replace (pre ++ c :: c' :: p) with ((pre ++ [c]) ++ c' :: p)
      by (by rewrite <- app_assoc).
    by apply IH.
Qed.

(** A successful [mkdir(parents=True, exist_ok=True)] only adds empty
    directories, and leaves the path a directory. *)
Lemma mkdir_p_ok p fs fs' :
  mkdir_p p fs = Ok fs' ->
  only_new_dirs fs fs' /\ is_dir fs' p = true.
Proof.
  unfold mkdir_p. intros [G D]%fold_mkdir_grows. split; [done|].
  destruct p as [|c p]; [done|].
  apply D. apply (ancestors_and_self_last [] (c :: p)). done.
Qed.

Lemma parent_joinpath p nm : parent (joinpath p nm) = p.
Proof. unfold parent, joinpath. apply removelast_last. Qed.

Lemma name_joinpath p nm : name (joinpath p nm) = nm.
Proof. unfold name, joinpath. apply last_last. Qed.

Lemma joinpath_not_nil p nm : joinpath p nm <> [].
Proof. unfold joinpath. destruct p; discriminate. Qed.

Lemma joinpath_not_self p nm : joinpath p nm <> p.
Proof.
  unfold joinpath. intros Heq.
  assert (length (p ++ [nm]) = length p) as Hl by (by rewrite Heq).
  rewrite length_app in Hl. simpl in Hl. lia.
Qed.

(** [any(p.iterdir())] is true exactly when some entry lies in [p]. *)
Lemma any_iterdir_true fs p :
  any_iterdir fs p = true
  <-> exists q n, fs !! q = Some n /\ q <> [] /\ parent q = p.
Proof.
  unfold any_iterdir, iterdir. split.
  - destruct (List.filter _ _) as [|q l] eqn:Hf; [discriminate|]. intros _.
    assert (In q (List.filter (is_child p) (map fst (map_to_list fs)))) as Hin
      by (rewrite Hf; by left).
    apply filter_In in Hin as [Hin Hc].
    apply in_map_iff in Hin as ([q' n] & <- & Hin).
    apply list_elem_of_In, elem_of_map_to_list in Hin.
    unfold is_child in Hc. apply bool_decide_eq_true_1 in Hc as [? ?].
    exists q', n. auto.
  - intros (q & n & Hq & Hne & Hp).
    assert (In q (List.filter (is_child p) (map fst (map_to_list fs)))) as Hin.
    { apply filter_In. split.
      - apply in_map_iff. exists (q, n). split; [done|].
        by apply list_elem_of_In, elem_of_map_to_list.
      - unfold is_child. by apply bool_decide_eq_true_2. }
    destruct (List.filter _ _); [destruct Hin|done].
Qed.

Lemma any_iterdir_false fs p :
  any_iterdir fs p = false
  <-> forall q, q <> [] -> parent q = p -> fs !! q = None.
Proof.
  split.
  - intros Hf q Hne Hp. destruct (fs !! q) as [n|] eqn:Hq; [|done].
    assert (any_iterdir fs p = true) as Ht
      by (apply any_iterdir_true; eauto).
    congruence.
  - intros Hall. destruct (any_iterdir fs p) eqn:Ha; [|done].
    apply any_iterdir_true in Ha as (q & n & Hq & Hne & Hp).
    rewrite (Hall q Hne Hp) in Hq. discriminate.
Qed.

Lemma node_at_insert_eq (fs : filesystem) q n :
  q <> [] -> node_at (<[q := n]> fs) q = Some n.
Proof. destruct q; [done|]. intros _. simpl. apply lookup_insert_eq. Qed.

Lemma node_at_insert_ne (fs : filesystem) q q' n :
  q <> q' -> node_at (<[q := n]> fs) q' = node_at fs q'.
Proof. intros Hne. destruct q'; [done|]. simpl. by apply lookup_insert_ne. Qed.

Lemma node_at_delete_eq (fs : filesystem) q :
  q <> [] -> node_at (delete q fs) q = None.
Proof. destruct q; [done|]. intros _. simpl. apply lookup_delete_eq. Qed.

Lemma node_at_delete_ne (fs : filesystem) q q' :
  q <> q' -> node_at (delete q fs) q' = node_at fs q'.
Proof. intros Hne. destruct q'; [done|]. simpl. by apply lookup_delete_ne. Qed.

(** When the target of [copy2] is not a directory afterwards, it is a
    regular file holding the bytes and the mtime of the source. *)
Lemma copy2_file_target src dst disk disk' :
  copy2 src dst disk = Ok disk' ->
  is_dir disk' dst = false ->
  exists data mtime,
    node_at disk src = Some (File data mtime)
    /\ disk' = <[dst := File data mtime]> disk
    /\ is_dir disk (parent dst) = true
    /\ dst <> [].
Proof.
  unfold copy2. destruct (is_dir disk dst) eqn:Hd.
  - destruct (_ && _); [discriminate|].
    destruct (node_at disk src) as [[data m|?]|]; try discriminate.
    destruct (node_at disk (joinpath dst (name src))) as [[?|?]|];
      try discriminate;
      (destruct (node_at disk (parent (joinpath dst (name src))))
         as [[?|?]|]; try discriminate; intros [= <-]).
    all: unfold is_dir.
    all: rewrite node_at_insert_ne by apply joinpath_not_self.
    all: unfold is_dir in Hd; by rewrite Hd.
  - destruct (_ && _); [discriminate|].
    destruct (node_at disk src) as [[data m|?]|]; try discriminate.
    assert (dst <> []) as Hne by (intros ->; discriminate Hd).
    destruct (node_at disk dst) as [[?|?]|];
      try discriminate;
      (destruct (node_at disk (parent dst)) as [[?|?]|] eqn:Hp;
       try discriminate; intros [= <-] _).
    all: exists data, m; repeat split; auto.
    all: unfold is_dir; by rewrite Hp.
Qed.

Lemma ancestors_and_self_length pre p q :
  In q (ancestors_and_self pre p) -> (length q <= length pre + length p)%nat.
Proof.
  revert pre. induction p as [|c p IH]; intros pre; simpl; [done|].
  intros [<-|Hin].
  - rewrite length_app. simpl. lia.
  - apply IH in Hin. rewrite length_app in Hin. simpl in Hin. lia.
Qed.

Lemma fold_mkdir_other target l fs fs' q :
  fold_left (mkdir_step target) l (Ok fs) = Ok fs' ->
  ~ In q l -> q <> [] -> fs' !! q = fs !! q.
Proof.
  revert fs. induction l as [|a l IH]; intros fs; cbn [fold_left].
  - by intros [= <-].
  - intros Hf Hq Hne.
    destruct (mkdir_step target (Ok fs) a) as [fs1|e] eqn:E1;
      [|by rewrite fold_mkdir_raise in Hf].
    rewrite (IH _ Hf) by (intros ?; apply Hq; by right) || done.
    unfold mkdir_step in E1.
    destruct (node_at fs a) as [[?|?]|]; try (case_bool_decide; discriminate);
      injection E1 as <-; [done|].
    apply lookup_insert_ne. intros ->. apply Hq. by left.
Qed.

(** An entry inside the directory being made is not touched. *)
Lemma mkdir_p_child p nm fs fs' :
  mkdir_p p fs = Ok fs' -> fs' !! joinpath p nm = fs !! joinpath p nm.
Proof.
  unfold mkdir_p. intros Hf. eapply fold_mkdir_other; [done| |].
  - intros Hin%ancestors_and_self_length.
    unfold joinpath in Hin. rewrite length_app in Hin. simpl in Hin. lia.
  - apply joinpath_not_nil.
Qed.

Lemma fold_mkdir_existing target l fs :
  (forall q, In q l -> is_dir fs q = true) ->
  fold_left (mkdir_step target) l (Ok fs) = Ok fs.
Proof.
  induction l as [|a l IH]; intros Hall; cbn [fold_left]; [done|].
  assert (mkdir_step target (Ok fs) a = Ok fs) as ->.
  { unfold mkdir_step. specialize (Hall a (or_introl eq_refl)).
    unfold is_dir in Hall. by destruct (node_at fs a) as [[?|?]|]. }
  apply IH. intros q Hq. apply Hall. by right.
Qed.

Lemma parent_not_self p : p <> [] -> parent p <> p.
Proof.
  intros Hne Heq. destruct (exists_last Hne) as (q & c & ->).
  unfold parent in Heq. rewrite removelast_last in Heq.
  assert (length q = length (q ++ [c])) as Hl by (by rewrite <- Heq).
  rewrite length_app in Hl. simpl in Hl. lia.
Qed.

Lemma node_at_lookup (disk : filesystem) q : q <> [] -> node_at disk q = disk !! q.
Proof. by destruct q. Qed.

(** [copy2] to a path that does not exist yet. *)
Lemma copy2_to_absent src dst disk disk' :
  node_at disk dst = None ->
  copy2 src dst disk = Ok disk' ->
  exists data mtime,
    node_at disk src = Some (File data mtime)
    /\ disk' = <[dst := File data mtime]> disk
    /\ src <> dst.
Proof.
  intros Habs. unfold copy2, is_dir. rewrite Habs. cbv beta iota zeta.
  rewrite Habs.
  destruct (bool_decide (src = dst) && Os.exists_ disk src); [discriminate|].
  destruct (node_at disk src) as [[data m|?]|] eqn:Hs; try discriminate.
  destruct (node_at disk (parent dst)) as [[?|?]|]; try discriminate.
  intros [= <-]. exists data, m. repeat split; auto. congruence.
Qed.

Lemma write_bytes_ok p data now disk disk' :
  write_bytes p data now disk = Ok disk' ->
  disk' = <[p := File data now]> disk
  /\ is_dir disk (parent p) = true /\ is_dir disk p = false.
Proof.
  unfold write_bytes, is_dir.
  destruct (node_at disk p) as [[?|?]|]; try discriminate;
    (destruct (node_at disk (parent p)) as [[?|?]|]; try discriminate;
     by intros [= <-]).
Qed.

(** *** The walk of a directory tree *)

Lemma length_le_deepest (fs : filesystem) q n :
  fs !! q = Some n -> (length q <= deepest fs)%nat.
Proof.
  intros Hq. apply elem_of_map_to_list in Hq. unfold deepest.
  induction (map_to_list fs) as [|kv l IH]; [by apply elem_of_nil in Hq|].
  apply elem_of_cons in Hq as [<-|Hq]; cbn [map fold_right fst]; [lia|].
  specialize (IH Hq). lia.
Qed.

Lemma iterdir_spec (fs : filesystem) top q :
  In q (iterdir fs top) ->
  is_Some (fs !! q) /\ q <> [] /\ parent q = top.
Proof.
  unfold iterdir. intros [Hin Hc]%filter_In.
  apply in_map_iff in Hin as ([q' n] & <- & Hin).
  apply list_elem_of_In, elem_of_map_to_list in Hin.
  unfold is_child in Hc. apply bool_decide_eq_true in Hc. by split; [eexists|].
Qed.

Lemma length_child (top q : path) :
  q <> [] -> parent q = top -> length q = S (length top).
Proof.
  intros Hq <-. unfold parent.
  destruct (exists_last Hq) as (q' & c & ->).
  rewrite removelast_last, length_app. simpl. lia.
Qed.

Lemma flat_map_ext_In {A B} (f g : A -> list B) l :
  (forall a, In a l -> f a = g a) -> flat_map f l = flat_map g l.
Proof.
  induction l as [|a l IH]; intros Hfg; [done|]. cbn [flat_map].
  rewrite (Hfg a) by (by left). rewrite IH; [done|].
  intros b Hb. apply Hfg. by right.
Qed.

(** Once the depth bound exceeds the nesting left below [top], a larger
    bound gives the same walk. *)
Lemma walk_top_down_deep_enough (fs : filesystem) n top :
  (deepest fs < length top + n)%nat ->
  walk_top_down (S n) fs top = walk_top_down n fs top.
Proof.
  revert top. induction n as [|n IH]; intros top Hd.
  - cbn [walk_top_down].
    destruct (iterdir fs top) as [|q l] eqn:Hl; [done|].
    destruct (iterdir_spec fs top q) as ([nd Hq] & Hne & Hp);
      [rewrite Hl; by left|].
    apply length_le_deepest in Hq.
    rewrite (length_child top q Hne Hp) in Hq. lia.
  - change (walk_top_down (S (S n)) fs top)
      with (let listing := iterdir fs top in
            omap (fun q =>
                    match node_at fs q with
                    | Some (File _ _) =>
                        Some {| we_dirpath := top; we_name := name q;
                                we_stat := stat fs q |}
                    | _ => None
                    end) listing
            ++ flat_map (fun q =>
                           match node_at fs q with
                           | Some (Dir _) => walk_top_down (S n) fs q
                           | _ => []
                           end) listing).
    cbn zeta. cbn [walk_top_down]. f_equal.
    apply flat_map_ext_In. intros q Hq.
    destruct (iterdir_spec fs top q Hq) as (_ & Hne & Hp).
    destruct (node_at fs q) as [[|]|]; try done.
    apply IH. rewrite (length_child top q Hne Hp). lia.
Qed.

Lemma walk_files_any_depth (fs : filesystem) root n :
  (deepest fs < n)%nat -> walk_top_down n fs root = walk_files fs root.
Proof.
  intros Hn. unfold walk_files.
  induction n as [|n IH]; [lia|].
  destruct (decide (n = deepest fs)) as [->|Hne]; [done|].
  rewrite walk_top_down_deep_enough by lia. apply IH. lia.
Qed.

End OsFacts.

(** ** Restoring a version *)
Module RestoreFacts.
Import Py Pathlib Os Models Verification FileService ListFacts OsFacts.

Lemma get_file_id d f tf :
  DatabaseManager.get_file d f = Some tf -> TrackedFile.id tf = f.
Proof.
  unfold DatabaseManager.get_file, DatabaseManager.fetchone_where.
  intros [_ Hp]%find_some. by apply String.eqb_eq.
Qed.

Lemma find_update_where {A} (p : A -> bool) (g : A -> A) (rows : list A) :
  (forall r, p (g r) = p r) ->
  List.find p (DatabaseManager.update_where p g rows)
  = option_map g (List.find p rows).
Proof.
  intros Hpg. unfold DatabaseManager.update_where.
  induction rows as [|r rows IH]; simpl; [done|].
  destruct (p r) eqn:Hr.
  - by rewrite Hpg, Hr.
  - by rewrite Hr.
Qed.

Lemma get_file_update_file_metadata d f sz mt st h :
  DatabaseManager.get_file (DatabaseManager.update_file_metadata f sz mt st h d) f
  = option_map (DatabaseManager.set_metadata_fields sz mt st h)
      (DatabaseManager.get_file d f).
Proof.
  unfold DatabaseManager.get_file, DatabaseManager.fetchone_where,
    DatabaseManager.update_file_metadata. simpl.
  by apply find_update_where.
Qed.

Lemma copy2_target_exists src dst disk disk' :
  copy2 src dst disk = Ok disk' -> exists live, Os.stat disk' dst = Some live.
Proof.
  unfold copy2.
  destruct (is_dir disk dst) eqn:Hd.
  - destruct (_ && _); [discriminate|].
    destruct (node_at disk src) as [[data m|?]|]; try discriminate.
    destruct (node_at disk (joinpath dst (name src))) as [[?|?]|];
      try discriminate;
      (destruct (node_at disk (parent (joinpath dst (name src))))
         as [[?|?]|]; try discriminate; intros [= <-]).
    all: unfold Os.stat; unfold is_dir in Hd.
    all: destruct dst as [|c dst]; [by eexists|].
    all: unfold node_at in Hd |- *.
    all: rewrite lookup_insert_ne by apply joinpath_not_self.
    all: destruct (disk !! (c :: dst)) as [[?|?]|]; try discriminate.
    all: by eexists.
  - destruct (_ && _); [discriminate|].
    destruct (node_at disk src) as [[data m|?]|]; try discriminate.
    destruct (node_at disk dst) as [[?|?]|];
      try discriminate;
      (destruct (node_at disk (parent dst)) as [[?|?]|];
       try discriminate; intros [= <-]).
    all: unfold Os.stat; destruct dst as [|c dst]; [discriminate Hd|].
    all: unfold node_at; rewrite lookup_insert_eq; by eexists.
Qed.

Section WithHash.
Context `{HashAlgorithm}.

(** [_get_version_path] only makes the version directory. *)
Lemma _get_version_path_spec self f n nm w w1 r :
  _get_version_path self f n nm w = (w1, r) ->
  db w1 = db w /\ only_new_dirs (fs w) (fs w1)
  /\ match r with
     | Ok p => p = joinpath (_get_version_dir self f) (version_file_name n nm)
     | Raise _ => w1 = w
     end.
Proof.
  unfold _get_version_path, bind, fs_do, ret.
  destruct (mkdir_p (_get_version_dir self f) (fs w)) as [disk1|e] eqn:Hm.
  - intros [= <- <-]. simpl. apply mkdir_p_ok in Hm as [Hg _]. auto.
  - intros [= <- <-]. split; [done|]. split; [apply only_new_dirs_refl|done].
Qed.

(** [get_version_backup_path] leaves the store alone and only makes the
    version directory; the path it returns exists. *)
Lemma get_version_backup_path_spec self f n w w1 r :
  get_version_backup_path self f n w = (w1, r) ->
  db w1 = db w /\ only_new_dirs (fs w) (fs w1)
  /\ match r with
     | Ok (Some p) =>
         Os.exists_ (fs w1) p = true
         /\ exists tf,
              DatabaseManager.get_file (db w) f = Some tf
              /\ (p = joinpath (_get_version_dir self f)
                        (version_file_name n (TrackedFile.display_name tf))
                  \/ p = _get_legacy_version_path self f n
                           (TrackedFile.display_name tf))
     | Ok None => True
     | Raise _ => w1 = w
     end.
Proof.
  unfold get_version_backup_path, bind, gets, ret.
  destruct (DatabaseManager.get_file (db w) f) as [tf|] eqn:Hf.
  - destruct (_get_version_path self f n (TrackedFile.display_name tf) w)
      as [wa [p|e]] eqn:Hp;
      apply _get_version_path_spec in Hp as (Hdb & Hg & Hr).
    + destruct (Os.exists_ (fs wa) p) eqn:Hex.
      * intros [= <- <-]. repeat split; auto. exists tf. auto.
      * destruct (Os.exists_ (fs wa) (_get_legacy_version_path _ _ _ _))
          eqn:Hex'; intros [= <- <-]; repeat split; auto.
        exists tf. auto.
    + intros [= <- <-]. subst wa. auto.
  - intros [= <- <-]. split; [done|]. split; [apply only_new_dirs_refl|done].
Qed.

(** What a successful [restore_version] has done. *)
Lemma restore_version_ok self f n w w' :
  restore_version self f n w = (w', Ok true) ->
  exists tf backup w1 disk2 live,
    DatabaseManager.get_file (db w) f = Some tf
    /\ get_version_backup_path self f n w = (w1, Ok (Some backup))
    /\ copy2 backup (TrackedFile.file_path tf) (fs w1) = Ok disk2
    /\ Os.stat disk2 (TrackedFile.file_path tf) = Some live
    /\ w' = {| fs := disk2;
               db := DatabaseManager.update_file_metadata f
                       (st_size live) (st_mtime live) OK None (db w) |}.
Proof.
  unfold restore_version, bind, gets, ret.
  destruct (DatabaseManager.get_file (db w) f) as [tf|] eqn:Hf;
    [|discriminate].
  destruct (get_version_backup_path self f n w) as [w1 [[backup|]|e]] eqn:Hb;
    try discriminate.
  pose proof (get_version_backup_path_spec _ _ _ _ _ _ Hb) as (Hdb & _ & _).
  unfold fs_do, db_do.
  destruct (copy2 backup (TrackedFile.file_path tf) (fs w1)) as [disk2|e]
    eqn:Hc; [|discriminate].
  simpl. intros [= <-].
  destruct (copy2_target_exists _ _ _ _ Hc) as [live Hl].
  exists tf, backup, w1, disk2, live. repeat split; auto.
  unfold get_file_state. rewrite Hl. simpl. by rewrite Hdb.
Qed.

(** C10. A successful [restore_version] rewrites the row of the file with
    the live size and mtime, status OK and a NULL hash, and nothing else
    in the store: every other column of the row is as before. With the
    hash gone, a later [check_file_status] decides on size and mtime
    alone: any drift of either is MODIFIED. *)
Theorem restore_version_clears_hash self f n w w' tf :
  restore_version self f n w = (w', Ok true) ->
  DatabaseManager.get_file (db w) f = Some tf ->
  exists live restored,
    Os.stat (fs w') (TrackedFile.file_path tf) = Some live
    /\ db w' = DatabaseManager.update_file_metadata f
                 (st_size live) (st_mtime live) OK None (db w)
    /\ DatabaseManager.get_file (db w') f = Some restored
    /\ restored =
         TrackedFile.mk (TrackedFile.id tf) (TrackedFile.display_name tf)
           (TrackedFile.file_path tf) (st_size live) (st_mtime live) OK
           (TrackedFile.created_at tf) None (TrackedFile.is_favorite tf)
           (TrackedFile.is_archived tf) (TrackedFile.project_id tf)
    /\ forall disk,
         check_file_status disk restored true =
           match Os.stat disk (TrackedFile.file_path tf) with
           | None => MISSING
           | Some later =>
               if bool_decide (st_size later = st_size live
                               /\ st_mtime later = st_mtime live)
               then OK else MODIFIED
           end.
Proof.
  intros Hr Hf.
  apply restore_version_ok in Hr
    as (tf' & backup & w1 & disk2 & live & Hf' & _ & _ & Hl & ->).
  assert (tf' = tf) as -> by congruence.
  exists live. eexists. simpl. split; [done|]. split; [done|].
  split; [by rewrite get_file_update_file_metadata, Hf|].
  split; [done|].
  intros disk.
  by rewrite VerificationFacts.check_file_status_no_stored_hash.
Qed.

(** A [restore_version] that reports failure has not touched the store
    nor any file; at most it has made the (empty) version directory. *)
Lemma restore_version_failure_frame self f n w w' :
  restore_version self f n w = (w', Ok false) ->
  db w' = db w /\ only_new_dirs (fs w) (fs w').
Proof.
  unfold restore_version, bind, gets, ret.
  destruct (DatabaseManager.get_file (db w) f) as [tf|] eqn:Hf.
  - destruct (get_version_backup_path self f n w) as [w1 [[backup|]|e]] eqn:Hb;
      try discriminate.
    + unfold fs_do, db_do.
      destruct (copy2 backup (TrackedFile.file_path tf) (fs w1)); discriminate.
    + intros [= <-].
      by apply get_version_backup_path_spec in Hb as (Hdb & Hg & _).
  - intros [= <-]. split; [done|apply only_new_dirs_refl].
Qed.

End WithHash.

Lemma restore_version_clears_hash_witness :
  exists restored,
    DatabaseManager.get_file (db (Demo.restored None)) "f1" = Some restored
    /\ TrackedFile.file_hash restored = None
    /\ TrackedFile.status restored = OK.
Proof.
  destruct (restore_version_clears_hash (H := Demo.demo_hash) Demo.service
              "f1" 1 (Demo.edited None) (Demo.restored None)
              (Demo.registered_row "report.pdf"))
    as (live & restored & _ & _ & Hg & -> & _).
  - vm_compute. reflexivity.
  - vm_compute. reflexivity.
  - exists (TrackedFile.mk "f1" "report.pdf" Demo.report_path
              (st_size live) (st_mtime live) OK "2024-01-01T00:00:00" None
              false false None).
    split; [exact Hg|]. split; reflexivity.
Defined.

Lemma get_file_create_file new_id now dn p sz mt h d d' tf :
  DatabaseManager.create_file new_id now dn p sz mt h d = Ok (d', tf) ->
  tf = TrackedFile.mk new_id dn p sz mt OK now h false false None
  /\ DatabaseManager.versions d' = DatabaseManager.versions d
  /\ DatabaseManager.get_file d' new_id = Some tf.
Proof.
  unfold DatabaseManager.create_file. cbv zeta.
  destruct (existsb (fun f => String.eqb (TrackedFile.id f) new_id)
              (DatabaseManager.files d)) eqn:Hid; [discriminate|].
  destruct (existsb (fun f => bool_decide (TrackedFile.file_path f = p))
              (DatabaseManager.files d)); [discriminate|].
  intros [= <- <-]. split; [done|]. split; [done|].
  unfold DatabaseManager.get_file, DatabaseManager.fetchone_where. simpl.
  induction (DatabaseManager.files d) as [|r rows IH]; simpl in *.
  - by rewrite String.eqb_refl.
  - apply orb_false_elim in Hid as [-> Hid]. by apply IH.
Qed.

(** What a successful [register_file] has done. *)
Lemma register_file_ok `{HashAlgorithm} self fid vid t1 t2 p msg dn w w1 tf v :
  register_file self fid vid t1 t2 p msg dn w = (w1, Ok (tf, v)) ->
  exists disk1,
    mkdir_p (_get_version_dir self fid) (fs w) = Ok disk1
    /\ copy2 p (joinpath (_get_version_dir self fid)
                  (version_file_name (Version.version_number v) (name p)))
         disk1 = Ok (fs w1)
    /\ TrackedFile.display_name tf = default (name p) dn
    /\ TrackedFile.file_path tf = p
    /\ Version.version_number v
       = DatabaseManager.get_next_version_number (db w) fid
    /\ DatabaseManager.get_file (db w1) fid = Some tf.
Proof.
  unfold register_file, bind, gets, ret, raise.
  destruct (Os.exists_ (fs w) p); [|discriminate]. cbn [negb].
  destruct (DatabaseManager.get_file_by_path (db w) p); [discriminate|].
  unfold db_try at 1. cbn [db fs].
  destruct (DatabaseManager.create_file _ _ _ _ _ _ _ (db w))
    as [[d1 tf1]|e] eqn:Hcf; [|discriminate].
  apply get_file_create_file in Hcf as (-> & Hvs & Hget).
  unfold db_try. cbn [db fs TrackedFile.id].
  destruct (DatabaseManager.create_version _ _ _ _ _ _ _ d1)
    as [[d2 v1]|e] eqn:Hcv; [|discriminate].
  apply VersionNumbering.create_version_inv in Hcv as [Hv ->].
  unfold _backup_file, _get_version_path, bind, ret, fs_do. cbn [db fs].
  destruct (mkdir_p (_get_version_dir self fid) (fs w)) as [disk1|e] eqn:Hm;
    [|discriminate].
  cbn [db fs].
  destruct (copy2 _ _ disk1) as [disk2|e] eqn:Hc; [|discriminate].
  intros [= <- <- <-]. exists disk1. cbn [db fs].
  split; [done|]. split; [done|].
  split; [done|]. split; [done|].
  split; [|done].
  rewrite Hv. cbn [Version.version_number].
  unfold DatabaseManager.get_next_version_number,
    DatabaseManager.max_version_number.
  by rewrite Hvs.
Qed.

(** The round trip of a file registered under its own name: after any
    edit of the file, restoring version 1 brings back the registered
    bytes and sets the status to OK. *)
Lemma register_edit_restore_round_trip `{HashAlgorithm}
  self fid vid t1 t2 p msg w w1 tf v data' now' disk2 :
  register_file self fid vid t1 t2 p msg None w = (w1, Ok (tf, v)) ->
  DatabaseManager.version_numbers (db w) fid = [] ->
  Os.exists_ (fs w)
    (joinpath (_get_version_dir self fid) (version_file_name 1 (name p)))
  = false ->
  write_bytes p data' now' (fs w1) = Ok disk2 ->
  exists original w3,
    read_bytes (fs w) p = Ok original
    /\ Version.version_number v = 1
    /\ restore_version self fid 1 {| fs := disk2; db := db w1 |} = (w3, Ok true)
    /\ read_bytes (fs w3) p = Ok original
    /\ option_map TrackedFile.status (DatabaseManager.get_file (db w3) fid)
       = Some OK.
Proof.
  intros Hreg Hnew Hfree Hw.
  apply register_file_ok in Hreg as (disk1 & Hm & Hc & Hdn & Hp & Hn & Hget).
  assert (Version.version_number v = 1) as Hv1.
  { rewrite Hn, VersionNumbering.get_next_version_number_spec.
    apply VersionNumbering.max_version_number_None in Hnew. by rewrite Hnew. }
  rewrite Hv1 in Hc. cbn [default] in Hdn.
  set (vdir := _get_version_dir self fid) in *.
  set (bp := joinpath vdir (version_file_name 1 (name p))) in *.
  assert (bp <> []) as Hbp by apply joinpath_not_nil.
  assert (node_at disk1 bp = None) as Habs.
  { rewrite node_at_lookup by done. unfold bp.
    rewrite (mkdir_p_child _ _ _ _ Hm). fold bp.
    rewrite <- node_at_lookup by done.
    unfold Os.exists_ in Hfree. by destruct (node_at (fs w) bp). }
  destruct (copy2_to_absent _ _ _ _ Habs Hc) as (data & m & Hsrc & Hw1 & Hne).
  assert (p <> []) as Hpne by (intros ->; discriminate Hsrc).
  apply write_bytes_ok in Hw as (-> & Hpar & _).
  assert (node_at (<[p := File data' now']> (fs w1)) (parent p)
          = node_at (fs w1) (parent p)) as Hpar'.
  { apply node_at_insert_ne. intros E. by apply (parent_not_self p). }
  exists data. eexists.
  split.
  { unfold read_bytes. rewrite node_at_lookup by done.
    rewrite node_at_lookup in Hsrc by done.
    apply mkdir_p_ok in Hm as [Hg _].
    apply (only_new_dirs_files _ _ _ _ _ Hg) in Hsrc. by rewrite Hsrc. }
  split; [done|].
  assert (mkdir_p vdir (<[p := File data' now']> (fs w1))
          = Ok (<[p := File data' now']> (fs w1))) as Hm2.
  { unfold mkdir_p. apply fold_mkdir_existing. intros q Hq.
    unfold mkdir_p in Hm. apply fold_mkdir_grows in Hm as [_ Hd].
    specialize (Hd q Hq). unfold is_dir in Hd |- *.
    rewrite Hw1, !node_at_insert_ne; [done| |].
    - intros <-. by rewrite Habs in Hd.
    - intros <-. by rewrite Hsrc in Hd. }
  assert (node_at (<[p := File data' now']> (fs w1)) bp
          = Some (File data m)) as Hbk.
  { rewrite node_at_insert_ne by done. rewrite Hw1.
    by apply node_at_insert_eq. }
  assert (copy2 bp p (<[p := File data' now']> (fs w1))
          = Ok (<[p := File data m]> (<[p := File data' now']> (fs w1))))
    as Hc2.
  { unfold copy2, is_dir. rewrite node_at_insert_eq by done.
    rewrite bool_decide_eq_false_2 by congruence. cbn [andb].
    rewrite Hbk, Hpar'.
    unfold is_dir in Hpar.
    rewrite node_at_insert_eq by done.
    by destruct (node_at (fs w1) (parent p)) as [[?|?]|]. }
  split.
  { unfold restore_version, bind, gets, ret. cbn [db fs]. rewrite Hget.
    unfold get_version_backup_path, bind, gets, ret. cbn [db fs].
    rewrite Hget.
    unfold _get_version_path, bind, ret, fs_do. cbn [db fs].
    fold vdir. rewrite Hm2. cbn [db fs]. rewrite Hdn. fold bp.
    unfold Os.exists_ at 1. rewrite Hbk. rewrite Hp. cbn [db fs].
    rewrite Hc2. cbn [db fs].
    unfold db_do. cbn [db fs]. reflexivity. }
  cbn [db fs]. split.
  { unfold read_bytes. by rewrite node_at_insert_eq. }
  rewrite get_file_update_file_metadata, Hget. reflexivity.
Qed.

(** The same round trip on the concrete disk: register under the default
    display name (the file name), edit, restore version 1. The bytes are
    the registered ones again and the status is OK. *)
Example register_edit_restore_default_name :
  (register_file (H := Demo.demo_hash) Demo.service "f1" "v1"
     "2024-01-01T00:00:00" "2024-01-01T00:00:01" Demo.report_path "init" None
     Demo.fresh_world).2
  = Ok (Demo.registered_row "report.pdf",
        Version.mk "v1" "f1" 1 "init" 16 1000 "2024-01-01T00:00:01"
          (Some (Demo.demo_hexdigest Demo.original_bytes)) false None)
  /\ read_bytes (fs (Demo.edited None)) Demo.report_path
     = Ok Demo.edited_bytes
  /\ (restore_version (H := Demo.demo_hash) Demo.service "f1" 1
        (Demo.edited None)).2 = Ok true
  /\ read_bytes (fs (Demo.restored None)) Demo.report_path
     = Ok Demo.original_bytes
  /\ option_map TrackedFile.status
       (DatabaseManager.get_file (db (Demo.restored None)) "f1") = Some OK.
Proof. vm_compute. done. Qed.

(** C4 at its failing input. [register_file] is given a display name
    that is not the file name. It writes the backup of version 1 under
    the name of the source file ([report_v1.pdf]), while
    [get_version_backup_path] looks under names made from the display name
    ([Quarterly report_v1], then [v1]). After the file is edited,
    [restore_version] for version 1 therefore reports failure although
    the tracked file, its version 1 and its backup artifact all exist, and
    the file keeps the edited bytes. *)
Theorem restore_fails_after_register_with_display_name :
  let display := Some "Quarterly report" in
  let backup := ["data"; "versions"; "f1"; "report_v1.pdf"] in
  (register_file (H := Demo.demo_hash) Demo.service "f1" "v1"
     "2024-01-01T00:00:00" "2024-01-01T00:00:01" Demo.report_path "init"
     display Demo.fresh_world).2
  = Ok (Demo.registered_row "Quarterly report",
        Version.mk "v1" "f1" 1 "init" 16 1000 "2024-01-01T00:00:01"
          (Some (Demo.demo_hexdigest Demo.original_bytes)) false None)
  /\ read_bytes (fs (Demo.edited display)) backup = Ok Demo.original_bytes
  /\ (restore_version (H := Demo.demo_hash) Demo.service "f1" 1
        (Demo.edited display)).2 = Ok false
  /\ read_bytes (fs (Demo.restored display)) Demo.report_path
     = Ok Demo.edited_bytes
  /\ db (Demo.restored display) = db (Demo.edited display).
Proof. vm_compute. repeat split; reflexivity. Qed.

End RestoreFacts.

(** ** Pinning and unpinning *)
Module PinFacts.
Import Py Pathlib Os Models Verification FileService ListFacts OsFacts.
Import RestoreFacts.

Lemma get_version_by_number_set_version_pinned d f n pinned p :
  DatabaseManager.get_version_by_number
    (DatabaseManager.set_version_pinned f n pinned p d) f n
  = option_map (DatabaseManager.set_pin_fields pinned p)
      (DatabaseManager.get_version_by_number d f n).
Proof.
  unfold DatabaseManager.get_version_by_number,
    DatabaseManager.fetchone_where, DatabaseManager.set_version_pinned.
  simpl. by apply find_update_where.
Qed.

Section WithHash.
Context `{HashAlgorithm}.

(** What a successful [pin_version] has done. *)
Lemma pin_version_ok self f n w w1 p :
  pin_version self f n w = (w1, Ok (Some p)) ->
  exists pin_root tf backup wa diskb,
    _pin_storage_path self = Some pin_root
    /\ DatabaseManager.get_file (db w) f = Some tf
    /\ get_version_backup_path self f n w = (wa, Ok (Some backup))
    /\ mkdir_p (joinpath pin_root f) (fs wa) = Ok diskb
    /\ p = joinpath (joinpath pin_root f)
             (pinned_file_name n (TrackedFile.display_name tf))
    /\ exists diskc,
         copy2 backup p diskb = Ok diskc
         /\ w1 = {| fs := diskc;
                    db := DatabaseManager.set_version_pinned f n true (Some p)
                            (db w) |}.
Proof.
  unfold pin_version.
  destruct (_pin_storage_path self) as [pin_root|] eqn:Hroot; [|discriminate].
  unfold bind, gets, ret.
  destruct (DatabaseManager.get_file (db w) f) as [tf|] eqn:Hf;
    [|discriminate].
  destruct (get_version_backup_path self f n w) as [wa [[backup|]|e]] eqn:Hb;
    try discriminate.
  pose proof (get_version_backup_path_spec _ _ _ _ _ _ Hb) as (Hdb & _ & _).
  destruct (Os.exists_ (fs wa) backup); simpl; [|discriminate].
  unfold _get_pinned_version_path. rewrite Hroot.
  unfold bind, fs_do, db_do, ret.
  destruct (mkdir_p (joinpath pin_root f) (fs wa)) as [diskb|e] eqn:Hm;
    [|discriminate].
  simpl.
  destruct (copy2 backup _ diskb) as [diskc|e] eqn:Hc; [|discriminate].
  simpl. intros [= <- <-].
  exists pin_root, tf, backup, wa, diskb. repeat split; auto.
  exists diskc. split; [done|]. by rewrite Hdb.
Qed.

(** C5. Pin a version, then unpin it. If the version has a row in the
    store and the pinned path did not name a directory, then
    [unpin_version] succeeds; the pinned artifact is gone from the disk;
    the version row is as before the pin except that [is_pinned] is false
    and [pinned_path] is NULL; the per-file pin directory is gone exactly
    when the artifact was its only entry; and nothing else on the disk has
    changed. *)
Theorem pin_then_unpin_round_trip self f n w w1 p v0 :
  pin_version self f n w = (w1, Ok (Some p)) ->
  DatabaseManager.get_version_by_number (db w) f n = Some v0 ->
  Os.is_dir (fs w1) p = false ->
  exists w2,
    unpin_version self f n w1 = (w2, Ok true)
    /\ Os.exists_ (fs w2) p = false
    /\ DatabaseManager.get_version_by_number (db w2) f n
       = Some (DatabaseManager.set_pin_fields false None v0)
    /\ (Os.exists_ (fs w2) (parent p) = false
        <-> forall q, q <> p -> q <> [] -> parent q = parent p ->
                      fs w1 !! q = None)
    /\ (forall q, q <> p -> q <> parent p -> fs w2 !! q = fs w1 !! q).
Proof.
  intros Hpin Hv Hnd.
  apply pin_version_ok in Hpin
    as (pin_root & tf & backup & wa & diskb & Hroot & Hf & Hb & Hm & Hp
        & diskc & Hc & ->).
  simpl in Hnd.
  destruct (copy2_file_target _ _ _ _ Hc Hnd)
    as (data & mtime & _ & -> & Hpd & Hpne).
  remember (joinpath pin_root f) as pin_dir eqn:Hpin_dir.
  assert (parent p = pin_dir) as Hparent
    by (rewrite Hp; apply parent_joinpath).
  assert (p <> pin_dir) as Hp_dir
    by (rewrite Hp; apply joinpath_not_self).
  assert (pin_dir <> []) as Hdir_ne
    by (rewrite Hpin_dir; apply joinpath_not_nil).
  rewrite Hparent in *.
  remember (<[p := File data mtime]> diskb) as disk1 eqn:Hdisk1.
  assert (node_at disk1 p = Some (File data mtime)) as Hnode_p
    by (rewrite Hdisk1; by apply node_at_insert_eq).
  assert (exists st, node_at (delete p disk1) pin_dir = Some (Dir st))
    as [st Hnode_dir].
  { rewrite node_at_delete_ne by done. rewrite Hdisk1.
    rewrite node_at_insert_ne by done. unfold is_dir in Hpd.
    destruct (node_at diskb pin_dir) as [[?|st]|]; try discriminate.
    by exists st. }
  clear Hdisk1 Hpin_dir Hp Hm Hc Hb.
  (* the store after the pin holds the pinned version *)
  assert (DatabaseManager.get_version_by_number
            (DatabaseManager.set_version_pinned f n true (Some p) (db w)) f n
          = Some (DatabaseManager.set_pin_fields true (Some p) v0)) as Hv1
    by (by rewrite get_version_by_number_set_version_pinned, Hv).
  assert (DatabaseManager.get_version_by_number
            (DatabaseManager.set_version_pinned f n false None
               (DatabaseManager.set_version_pinned f n true (Some p) (db w)))
            f n
          = Some (DatabaseManager.set_pin_fields false None v0)) as Hv2
    by (by rewrite get_version_by_number_set_version_pinned, Hv1).
  assert (forall w2 : World,
            (if any_iterdir (delete p disk1) pin_dir
             then w2 = {| fs := delete p disk1;
                          db := DatabaseManager.set_version_pinned f n false None
                                  (DatabaseManager.set_version_pinned f n true
                                     (Some p) (db w)) |}
             else w2 = {| fs := delete pin_dir (delete p disk1);
                          db := DatabaseManager.set_version_pinned f n false None
                                  (DatabaseManager.set_version_pinned f n true
                                     (Some p) (db w)) |}) ->
            unpin_version self f n
              {| fs := disk1;
                 db := DatabaseManager.set_version_pinned f n true (Some p)
                         (db w) |} = (w2, Ok true)) as Hrun.
  { intros w2 Hw2.
    unfold unpin_version, bind, gets, ret. simpl.
    rewrite Hv1. simpl.
    unfold Os.exists_ at 1. rewrite Hnode_p.
    unfold fs_do at 1. simpl. unfold unlink. rewrite Hnode_p. simpl.
    rewrite Hparent.
    unfold Os.exists_ at 1. rewrite Hnode_dir.
    unfold any_entries. simpl.
    assert (is_dir (delete p disk1) pin_dir = true) as ->
      by (unfold is_dir; by rewrite Hnode_dir).
    destruct (any_iterdir (delete p disk1) pin_dir) eqn:Hany.
    - unfold db_do. simpl. by rewrite Hw2.
    - unfold fs_do, rmdir. cbn [fs db].
      destruct pin_dir as [|c pin_dir']; [done|].
      rewrite Hnode_dir, Hany.
      unfold db_do. cbn [fs db]. by rewrite Hw2. }
  destruct (any_iterdir (delete p disk1) pin_dir) eqn:Hany.
  - (* other entries remain: the directory stays *)
    eexists. split; [by apply Hrun|]. simpl.
    split; [unfold Os.exists_; by rewrite node_at_delete_eq|].
    split; [done|]. split.
    + unfold Os.exists_. rewrite Hnode_dir. split; [discriminate|].
      intros Hnone. exfalso.
      apply any_iterdir_true in Hany as (q & node & Hq & Hqne & Hqp).
      destruct (decide (q = p)) as [->|Hqp'].
      * by rewrite lookup_delete_eq in Hq.
      * rewrite lookup_delete_ne in Hq by done.
        rewrite (Hnone q Hqp' Hqne Hqp) in Hq. discriminate.
    + intros q Hq _. by rewrite lookup_delete_ne.
  - (* the directory is left empty: it is removed *)
    eexists. split; [by apply Hrun|]. simpl.
    split.
    { unfold Os.exists_. rewrite node_at_delete_ne by done.
      by rewrite node_at_delete_eq. }
    split; [done|]. split.
    + unfold Os.exists_. rewrite node_at_delete_eq by done.
      split; [|done]. intros _ q Hqp Hqne Hqpar.
      pose proof (proj1 (any_iterdir_false _ _) Hany q Hqne Hqpar) as Hq.
      by rewrite lookup_delete_ne in Hq.
    + intros q Hq Hq'. rewrite lookup_delete_ne by done.
      by rewrite lookup_delete_ne.
Qed.

End WithHash.

Lemma pin_then_unpin_round_trip_witness :
  exists w2,
    unpin_version Demo.service "f1" 1 Demo.pinned = (w2, Ok true)
    /\ Os.exists_ (fs w2) Demo.pinned_path = false
    /\ option_map (fun v => (Version.is_pinned v, Version.pinned_path v))
         (DatabaseManager.get_version_by_number (db w2) "f1" 1)
       = Some (false, None)
    /\ Os.exists_ (fs w2) (parent Demo.pinned_path) = false.
Proof.
  destruct (pin_then_unpin_round_trip Demo.service
              "f1" 1 (Demo.registered None) Demo.pinned Demo.pinned_path
              (Version.mk "v1" "f1" 1 "init" 16 1000 "2024-01-01T00:00:01"
                 (Some (Demo.demo_hexdigest Demo.original_bytes)) false None))
    as (w2 & Hrun & Hgone & Hv & Hdir & _).
  - vm_compute. reflexivity.
  - vm_compute. reflexivity.
  - vm_compute. reflexivity.
  - exists w2. split; [exact Hrun|]. split; [exact Hgone|].
    split; [by rewrite Hv|].
    apply Hdir. intros q Hq Hne Hpar.
    assert (any_iterdir (delete Demo.pinned_path (fs Demo.pinned))
              (parent Demo.pinned_path) = false) as Hany
      by (vm_compute; reflexivity).
    pose proof (proj1 (any_iterdir_false _ _) Hany q Hne Hpar) as Hnone.
    by rewrite lookup_delete_ne in Hnone.
Defined.

(** Both sides of the directory rule, by evaluation: alone in its
    directory, the unpinned artifact takes the directory with it; with a
    neighbour, the directory and the neighbour stay. *)
Example unpin_directory_rule :
  (unpin_version Demo.service "f1" 1 Demo.pinned).2 = Ok true
  /\ Os.exists_ (fs Demo.pinned) Demo.pinned_path = true
  /\ Os.exists_ (fs Demo.unpinned) Demo.pinned_path = false
  /\ Os.exists_ (fs Demo.unpinned) ["pins"; "f1"] = false
  /\ (unpin_version Demo.service "f1" 1 Demo.pinned_with_neighbour).2 = Ok true
  /\ Os.exists_ (fs Demo.unpinned_with_neighbour) Demo.pinned_path = false
  /\ Os.is_dir (fs Demo.unpinned_with_neighbour) ["pins"; "f1"] = true
  /\ Os.is_file (fs Demo.unpinned_with_neighbour)
       ["pins"; "f1"; "report_v2_pinned.pdf"] = true.
Proof. vm_compute. repeat split; reflexivity. Qed.

End PinFacts.

(** ** The relink resolver *)
Module RelinkFacts.
Import Py Pathlib Os Models Verification FileService ListFacts OsFacts.

(** *** Selection *)

(** Candidates are narrowed to those of the recorded size, unless there
    is none. *)
Lemma narrow_by_size_spec tf (candidates : list Candidate) :
  let size_matched :=
    List.filter (fun c => c_size c =? TrackedFile.file_size tf) candidates in
  narrow_by_size tf candidates
  = if decide (size_matched = []) then candidates else size_matched.
Proof.
  unfold narrow_by_size. simpl.
  destruct (List.filter _ candidates) as [|c l] eqn:Hf.
  - by rewrite decide_True.
  - by rewrite decide_False.
Qed.

Lemma narrow_by_size_In tf candidates c :
  In c (narrow_by_size tf candidates) -> In c candidates.
Proof.
  rewrite narrow_by_size_spec. simpl. case_decide; [done|].
  by intros [? _]%filter_In.
Qed.

(** [min] returns an entry of least mtime distance, and the first such. *)
Lemma min_from_spec tf best entries :
  let r := min_from tf best entries in
  In r (best :: entries)
  /\ (forall e, In e (best :: entries) -> _mtime_diff tf r <= _mtime_diff tf e)
  /\ exists before after,
       best :: entries = before ++ r :: after
       /\ forall e, In e before -> _mtime_diff tf r < _mtime_diff tf e.
Proof.
  revert best. induction entries as [|e entries IH]; intros best; simpl.
  - split; [by left|]. split.
    + intros e [<-|[]]. lia.
    + exists [], []. split; [done|]. intros ? [].
  - destruct (Z.ltb_spec (_mtime_diff tf e) (_mtime_diff tf best)) as [Hlt|Hge].
    + destruct (IH e) as (Hin & Hmin & before & after & Heq & Hbefore).
      split; [by right|]. split.
      * intros x [<-|Hx]; [|by apply Hmin].
        specialize (Hmin e (or_introl eq_refl)). lia.
      * exists (best :: before), after. split; [simpl; by rewrite Heq|].
        intros x [<-|Hx]; [|by apply Hbefore].
        specialize (Hmin e (or_introl eq_refl)). lia.
    + destruct (IH best) as (Hin & Hmin & before & after & Heq & Hbefore).
      split; [destruct Hin as [<-|Hin]; [by left|by right; right]|].
      split.
      * intros x [<-|[<-|Hx]].
        -- apply Hmin. by left.
        -- specialize (Hmin best (or_introl eq_refl)). lia.
        -- apply Hmin. by right.
      * destruct before as [|b before].
        -- injection Heq as Hb Ha. exists [], (e :: entries).
           split; [simpl; by rewrite <- Hb|]. intros ? [].
        -- injection Heq as <- Ha. exists (best :: e :: before), after.
           split; [simpl; by rewrite <- Ha|].
           intros x [<-|[<-|Hx]].
           ++ apply Hbefore. by left.
           ++ assert (_mtime_diff tf (min_from tf best entries)
                      < _mtime_diff tf best) by (apply Hbefore; by left).
              lia.
           ++ apply Hbefore. by right.
Qed.

(** *** The walk *)

Lemma fold_walk_raise exts maxs cutoff entries exc :
  fold_left (walk_step exts maxs cutoff) entries (Raise exc) = Raise exc.
Proof. induction entries; simpl; auto. Qed.

(** The walk either trips over the unbound [summary], at the first file
    the size or date filter rejects, or returns the index of the files
    that pass every filter. *)
Lemma walk_from exts maxs cutoff entries idx :
  fold_left (walk_step exts maxs cutoff) entries
    (Ok {| index := idx; summary := None |})
  = if existsb (reaches_counter exts maxs cutoff) entries
    then Raise (UnboundLocalError "summary")
    else Ok {| index := index_after exts maxs cutoff entries idx;
               summary := None |}.
Proof.
  revert idx. induction entries as [|e entries IH]; intros idx; [done|].
  assert (index_after exts maxs cutoff (e :: entries) idx
          = index_after exts maxs cutoff entries
              match indexed_candidate exts maxs cutoff e with
              | Some c => index_append (we_name e) c idx
              | None => idx
              end) as -> by done.
  cbn [fold_left existsb].
  unfold walk_step at 2, reaches_counter at 1, indexed_candidate at 1.
  destruct (fails_extension_filter exts (we_name e)); simpl.
  { apply IH. }
  destruct (we_stat e) as [st|]; simpl; [|apply IH].
  destruct (fails_size_filter maxs st); simpl.
  { apply fold_walk_raise. }
  destruct (fails_date_filter cutoff st); simpl.
  { apply fold_walk_raise. }
  apply IH.
Qed.

Lemma build_index_spec exts maxs cutoff entries :
  build_index exts maxs cutoff entries
  = if existsb (reaches_counter exts maxs cutoff) entries
    then Raise (UnboundLocalError "summary")
    else Ok {| index := index_after exts maxs cutoff entries ∅;
               summary := None |}.
Proof. apply walk_from. Qed.

Lemma index_append_lookup nm c (idx : gmap string (list Candidate)) nm' :
  default [] (index_append nm c idx !! nm')
  = default [] (idx !! nm') ++ (if String.eqb nm nm' then [c] else []).
Proof.
  unfold index_append. destruct (String.eqb_spec nm nm') as [->|Hne].
  - by rewrite lookup_insert_eq.
  - rewrite lookup_insert_ne by done. by rewrite app_nil_r.
Qed.

(** Under each name the index lists the candidates of that name, in walk
    order. *)
Lemma index_after_lookup exts maxs cutoff entries idx nm :
  default [] (index_after exts maxs cutoff entries idx !! nm)
  = default [] (idx !! nm) ++ candidates_named exts maxs cutoff nm entries.
Proof.
  revert idx. induction entries as [|e entries IH]; intros idx.
  - simpl. by rewrite app_nil_r.
  - unfold index_after, candidates_named in *. cbn [fold_left omap].
    rewrite IH.
    destruct (indexed_candidate exts maxs cutoff e) as [c|] eqn:Hc;
      rewrite ?index_append_lookup; simpl;
      destruct (String.eqb (we_name e) nm); rewrite ?Hc; simpl;
      rewrite ?app_nil_r, <- ?app_assoc; done.
Qed.

(** Nothing is indexed under a name the allow-list rejects. *)
Lemma candidates_named_rejected exts maxs cutoff nm entries :
  fails_extension_filter exts nm = true ->
  candidates_named exts maxs cutoff nm entries = [].
Proof.
  intros Hrej. unfold candidates_named.
  induction entries as [|e entries IH]; [done|]. simpl.
  destruct (String.eqb_spec (we_name e) nm) as [E|E]; [|exact IH].
  unfold indexed_candidate. rewrite E, Hrej. exact IH.
Qed.

(** Files rejected by the extension allow-list leave no trace: the walk
    gives the same locals with or without them. *)
Lemma walk_ignores_extension_rejects exts maxs cutoff entries idx :
  fold_left (walk_step exts maxs cutoff)
    (List.filter (fun e => negb (fails_extension_filter exts (we_name e)))
       entries)
    (Ok {| index := idx; summary := None |})
  = fold_left (walk_step exts maxs cutoff) entries
      (Ok {| index := idx; summary := None |}).
Proof.
  revert idx. induction entries as [|e entries IH]; intros idx; [done|].
  cbn [List.filter].
  destruct (fails_extension_filter exts (we_name e)) eqn:He;
    cbn [negb fold_left].
  - unfold walk_step at 3. rewrite He. apply IH.
  - unfold walk_step at 2 4. rewrite He.
    destruct (we_stat e) as [st|]; [|apply IH].
    destruct (fails_size_filter maxs st); simpl;
      [by rewrite !fold_walk_raise|].
    destruct (fails_date_filter cutoff st); simpl;
      [by rewrite !fold_walk_raise|].
    apply IH.
Qed.

Section WithHash.
Context `{HashAlgorithm}.

(** The hash loop stops at the first candidate whose hash is the stored
    one, and has hashed exactly the candidates up to it. *)
Lemma first_hash_match_spec disk tf entries s :
  match first_hash_match disk tf entries s with
  | (Some (entry, h), s') =>
      exists before after,
        entries = before ++ entry :: after
        /\ h = TrackedFile.file_hash tf
        /\ compute_file_hash disk (c_path entry) = TrackedFile.file_hash tf
        /\ (forall e, In e before ->
              compute_file_hash disk (c_path e) <> TrackedFile.file_hash tf)
        /\ same_but_hash_checked s s'
        /\ hash_checked s' = hash_checked s + Z.of_nat (length before) + 1
  | (None, s') =>
      (forall e, In e entries ->
         compute_file_hash disk (c_path e) <> TrackedFile.file_hash tf)
      /\ same_but_hash_checked s s'
      /\ hash_checked s' = hash_checked s + Z.of_nat (length entries)
  end.
Proof.
  revert s. induction entries as [|e entries IH]; intros s;
    cbn [first_hash_match].
  - split; [intros ? []|]. unfold same_but_hash_checked. simpl.
    repeat split; lia.
  - case_bool_decide as Hh.
    + exists [], entries. unfold same_but_hash_checked. simpl.
      repeat split; try done; try lia; intros ? [].
    + specialize (IH (bump k_hash_checked s)).
      destruct (first_hash_match disk tf entries (bump k_hash_checked s))
        as [[[entry h]|] s'].
      * destruct IH as (before & after & -> & -> & Hm & Hb & Hs & Hc).
        exists (e :: before), after. simpl in *.
        unfold same_but_hash_checked in *. simpl in *.
        repeat split; try tauto; try lia.
        intros x [<-|Hx]; [done|by apply Hb].
      * destruct IH as (Hb & Hs & Hc).
        unfold same_but_hash_checked in *. simpl in *.
        repeat split; try tauto; try lia.
        intros x [<-|Hx]; [done|by apply Hb].
Qed.

(** The choice among candidates: with hash mode on and a stored hash, the
    first narrowed candidate whose hash is the stored one; otherwise the
    first narrowed candidate of least mtime distance. *)
Lemma choose_spec disk use_hash tf candidates s entry h s' :
  choose disk use_hash tf candidates s = (Some (entry, h), s') ->
  exists before after,
    narrow_by_size tf candidates = before ++ entry :: after
    /\ h = TrackedFile.file_hash tf
    /\ if use_hash && truthy_str (TrackedFile.file_hash tf)
       then compute_file_hash disk (c_path entry) = TrackedFile.file_hash tf
            /\ (forall e, In e before ->
                  compute_file_hash disk (c_path e) <> TrackedFile.file_hash tf)
            /\ hash_checked s' = hash_checked s + Z.of_nat (length before) + 1
       else (forall e, In e (narrow_by_size tf candidates) ->
               _mtime_diff tf entry <= _mtime_diff tf e)
            /\ (forall e, In e before ->
                  _mtime_diff tf entry < _mtime_diff tf e)
            /\ s' = s.
Proof.
  unfold choose.
  destruct (use_hash && truthy_str (TrackedFile.file_hash tf)).
  - intros Hc.
    pose proof (first_hash_match_spec disk tf (narrow_by_size tf candidates) s)
      as Hspec.
    rewrite Hc in Hspec.
    destruct Hspec as (before & after & Heq & -> & Hm & Hb & _ & Hn).
    exists before, after. auto.
  - destruct (narrow_by_size tf candidates) as [|first rest]; [discriminate|].
    intros [= <- <- <-].
    destruct (min_from_spec tf first rest)
      as (_ & Hmin & before & after & Heq & Hb).
    exists before, after. auto.
Qed.

Lemma choose_summary disk use_hash tf candidates s :
  same_but_hash_checked s (choose disk use_hash tf candidates s).2.
Proof.
  unfold choose.
  destruct (use_hash && truthy_str (TrackedFile.file_hash tf)).
  - pose proof (first_hash_match_spec disk tf (narrow_by_size tf candidates) s)
      as Hspec.
    destruct (first_hash_match _ _ _ _) as [[[entry h]|] s']; simpl.
    + by destruct Hspec as (? & ? & _ & _ & _ & _ & ? & _).
    + by destruct Hspec as (_ & ? & _).
  - destruct (narrow_by_size tf candidates); simpl;
      unfold same_but_hash_checked; repeat split; lia.
Qed.

(** *** The loop over the missing files *)

(** The global [EventType] is not bound in [file_service.py]. *)
Lemma load_EventType_raises (w : World) :
  load_global "EventType" w = (w, Raise (NameError "EventType")).
Proof. reflexivity. Qed.

(** The loop body returns only when no candidate was chosen; a chosen
    candidate leads to an exception. *)
Lemma relink_one_returns uuid now use_hash idx tf s w w' s' :
  relink_one uuid now use_hash idx tf s w = (w', Ok s') ->
  w' = w
  /\ choose (fs w) use_hash tf
       (default [] (idx !! name (TrackedFile.file_path tf))) s
     = (None, (choose (fs w) use_hash tf
                 (default [] (idx !! name (TrackedFile.file_path tf))) s).2)
  /\ s' = bump k_not_found
            (choose (fs w) use_hash tf
               (default [] (idx !! name (TrackedFile.file_path tf))) s).2.
Proof.
  unfold relink_one, bind, gets.
  destruct (choose (fs w) use_hash tf _ s) as [[[entry h]|] s1]; simpl.
  - unfold db_try.
    destruct (DatabaseManager.update_file_location _ _ _ _ _ _ _);
      simpl; discriminate.
  - intros [= <- <-]. done.
Qed.

(** What happens when a candidate is chosen: the row is updated, then
    reading [EventType] raises; no event is written and no counter is
    incremented. (When the new path belongs to another tracked file, the
    UPDATE itself fails.) *)
Lemma relink_one_chosen uuid now use_hash idx tf s w entry h s1 :
  choose (fs w) use_hash tf
    (default [] (idx !! name (TrackedFile.file_path tf))) s
  = (Some (entry, h), s1) ->
  match DatabaseManager.update_file_location (TrackedFile.id tf)
          (c_path entry) (c_size entry) (c_mtime entry) OK h (db w) with
  | Ok d' =>
      relink_one uuid now use_hash idx tf s w
      = ({| fs := fs w; db := d' |}, Raise (NameError "EventType"))
  | Raise exc =>
      relink_one uuid now use_hash idx tf s w = (w, Raise exc)
  end.
Proof.
  intros Hc. unfold relink_one, bind, gets. rewrite Hc. simpl.
  unfold db_try.
  destruct (DatabaseManager.update_file_location _ _ _ _ _ _ _); done.
Qed.

Lemma relink_loop_returns fresh use_hash idx missing i s w w' s' :
  relink_loop fresh use_hash idx missing i s w = (w', Ok s') ->
  w' = w
  /\ checked s' = checked s /\ relinked s' = relinked s
  /\ not_found s' = not_found s + Z.of_nat (length missing)
  /\ scanned s' = scanned s
  /\ size_filtered s' = size_filtered s
  /\ date_filtered s' = date_filtered s
  /\ hash_checked s <= hash_checked s'.
Proof.
  revert i s w. induction missing as [|tf missing IH]; intros i s w.
  - simpl. intros [= <- <-]. repeat split; lia.
  - cbn [relink_loop]. unfold bind at 1.
    destruct (relink_one _ _ use_hash idx tf s w) as [w1 [s1|e]] eqn:Hone;
      [|discriminate].
    apply relink_one_returns in Hone as (-> & _ & ->).
    intros Hrest. apply IH in Hrest as (-> & Hrest).
    pose proof (choose_summary (fs w) use_hash tf
                  (default [] (idx !! name (TrackedFile.file_path tf))) s)
      as Hs.
    unfold same_but_hash_checked in Hs. simpl in Hrest.
    simpl length. repeat split; try lia.
Qed.

(** The hash loop adds to [hash_checked] the number of candidates it
    hashed. *)
Lemma first_hash_match_counts disk tf entries s :
  hash_checked (first_hash_match disk tf entries s).2
  = hash_checked s + Z.of_nat (length (hashed_candidates disk tf entries)).
Proof.
  revert s. induction entries as [|e entries IH]; intros s;
    cbn [first_hash_match hashed_candidates]; [simpl; lia|].
  destruct (bool_decide _).
  - simpl. lia.
  - rewrite IH. cbn [length]. simpl. lia.
Qed.

Lemma choose_counts disk use_hash tf idx s :
  hash_checked
    (choose disk use_hash tf
       (default [] (idx !! name (TrackedFile.file_path tf))) s).2
  = hash_checked s + Z.of_nat (length (hashed_for disk use_hash idx tf)).
Proof.
  unfold choose, hashed_for.
  destruct (use_hash && truthy_str (TrackedFile.file_hash tf)).
  - apply first_hash_match_counts.
  - destruct (narrow_by_size tf _); simpl; lia.
Qed.

(** A loop that returns has hashed, for each missing file, the
    candidates [hashed_for] lists. *)
Lemma relink_loop_counts fresh use_hash idx missing i s w w' s' :
  relink_loop fresh use_hash idx missing i s w = (w', Ok s') ->
  hash_checked s'
  = hash_checked s
    + Z.of_nat (length (flat_map (hashed_for (fs w) use_hash idx) missing)).
Proof.
  revert i s. induction missing as [|tf missing IH]; intros i s.
  - simpl. intros [= <- <-]. lia.
  - cbn [relink_loop]. unfold bind at 1.
    destruct (relink_one _ _ use_hash idx tf s w) as [w1 [s1|e]] eqn:Hone;
      [|discriminate].
    apply relink_one_returns in Hone as (-> & _ & ->).
    intros Hrest. apply IH in Hrest. rewrite Hrest.
    cbn [flat_map]. rewrite length_app, Nat2Z.inj_add.
    pose proof (choose_counts (fs w) use_hash tf idx s) as Hc.
    simpl. simpl in Hc. lia.
Qed.

(** When the scan returns a summary: no walked file reached a filter
    counter, no missing file was given a candidate, and the store and
    the disk are as before. *)
Lemma relink_returns self now fresh root use_hash exts maxs days w w' s :
  relink_missing_files self now fresh root use_hash exts maxs days w
  = (w', Ok s) ->
  let cutoff := cutoff_of now days in
  let entries := walk_files (fs w) root in
  w' = w
  /\ existsb (reaches_counter exts maxs cutoff) entries = false
  /\ checked s = Z.of_nat (length (missing_files w))
  /\ scanned s = Z.of_nat (size (index_after exts maxs cutoff entries ∅))
  /\ relinked s = 0
  /\ not_found s = Z.of_nat (length (missing_files w))
  /\ size_filtered s = 0 /\ date_filtered s = 0
  /\ hash_checked s
     = Z.of_nat (length (flat_map
                           (hashed_for (fs w) use_hash
                              (index_after exts maxs cutoff entries ∅))
                           (missing_files w))).
Proof.
  unfold relink_missing_files, bind, gets.
  destruct (Os.exists_ (fs w) root && is_dir (fs w) root); simpl;
    [|discriminate].
  fold (cutoff_of now days).
  rewrite build_index_spec.
  destruct (existsb _ (walk_files (fs w) root)) eqn:Hex; [discriminate|].
  simpl. intros Hloop.
  pose proof (relink_loop_counts _ _ _ _ _ _ _ _ _ Hloop) as Hcount.
  apply relink_loop_returns in Hloop as (-> & Hc & Hr & Hn & Hsc & Hsz & Hd & Hh).
  simpl in *. repeat split; auto; lia.
Qed.

(** The walk increments [summary["size_filtered"]] and
    [summary["date_filtered"]] before [summary] is assigned: a scan whose
    walk meets a file that passes the allow-list and is over the size
    limit, or older than the cutoff, raises [UnboundLocalError]. Nothing
    has been changed by then, and no summary is returned. *)
Lemma relink_size_or_date_reject_raises
  self now fresh root use_hash exts maxs days w e st :
  Os.exists_ (fs w) root && is_dir (fs w) root = true ->
  In e (walk_files (fs w) root) ->
  fails_extension_filter exts (we_name e) = false ->
  we_stat e = Some st ->
  fails_size_filter maxs st || fails_date_filter (cutoff_of now days) st
  = true ->
  relink_missing_files self now fresh root use_hash exts maxs days w
  = (w, Raise (UnboundLocalError "summary")).
Proof.
  intros Hroot Hin Hext Hst Hrej.
  unfold relink_missing_files, bind, gets. rewrite Hroot. simpl.
  fold (cutoff_of now days). rewrite build_index_spec.
  assert (existsb (reaches_counter exts maxs (cutoff_of now days))
            (walk_files (fs w) root) = true) as ->; [|done].
  apply existsb_exists. exists e. split; [done|].
  unfold reaches_counter. by rewrite Hext, Hst.
Qed.

End WithHash.

(** *** The claims on the relink scan *)

(** C3 at its failing input, the scenario of the specification:
    [report.pdf] (size 500, mtime T) is MISSING and the scanned root holds
    [old/report.pdf] (mtime T+1) and [new/report.pdf] (mtime T+100). The
    mtime-nearest policy selects [old/report.pdf] and the row of the file
    is updated to it (path, size, mtime, status OK); then the scan raises
    [NameError] on [EventType], which [file_service.py] never imports: no
    RELINK event is written, [summary["relinked"] += 1] is not reached and
    no summary is returned. *)
Theorem relink_scenario_updates_then_raises :
  let run :=
    relink_missing_files (H := Demo.demo_hash) Demo.service (Demo.T + 1000)
      Demo.fresh_ids ["scan"] false None None None Demo.relink_world in
  run.2 = Raise (NameError "EventType")
  /\ option_map
       (fun tf => (TrackedFile.file_path tf, TrackedFile.file_size tf,
                   TrackedFile.modified_time tf, TrackedFile.status tf))
       (DatabaseManager.get_file (db run.1) "f1")
     = Some (["scan"; "old"; "report.pdf"], 500, Demo.T + 1, OK)
  /\ DatabaseManager.events (db run.1) = [].
Proof. vm_compute. repeat split; reflexivity. Qed.

(** In general: a scan that returns a summary has relinked nothing. *)
Lemma relink_never_reports_a_relink `{HashAlgorithm}
  self now fresh root use_hash exts maxs days w w' s :
  relink_missing_files self now fresh root use_hash exts maxs days w
  = (w', Ok s) ->
  relinked s = 0 /\ db w' = db w.
Proof.
  intros Hr. apply relink_returns in Hr as (-> & _ & _ & _ & Hrel & _).
  auto.
Qed.

(** The same scenario in hash mode: the first candidate in walk order
    whose hash is the stored one is taken, and the scan raises at the
    same place. *)
Example relink_scenario_hash_mode :
  let run :=
    relink_missing_files (H := Demo.demo_hash) Demo.service (Demo.T + 1000)
      Demo.fresh_ids ["scan"] true None None None Demo.relink_world in
  run.2 = Raise (NameError "EventType")
  /\ option_map TrackedFile.file_path
       (DatabaseManager.get_file (db run.1) "f1")
     = Some ["scan"; "new"; "report.pdf"].
Proof. vm_compute. repeat split; reflexivity. Qed.

(** A file over the size limit makes the walk fail on the unbound local
    [summary]. *)
Example relink_size_filter_raises :
  (relink_missing_files (H := Demo.demo_hash) Demo.service (Demo.T + 1000)
     Demo.fresh_ids ["scan"] false None (Some 100) None Demo.relink_world).2
  = Raise (UnboundLocalError "summary").
Proof. vm_compute. reflexivity. Qed.

(** C6, as stated, fails: the two files the extension allow-list rejects
    are counted by neither [size_filtered] nor [date_filtered], the only
    filter counters of the summary. *)
Lemma extension_rejects_are_not_counted :
  ~ (forall (self : FileService.t) now fresh root use_hash exts maxs days
            w w' s,
       relink_missing_files (H := Demo.demo_hash) self now fresh root
         use_hash exts maxs days w = (w', Ok s) ->
       size_filtered s + date_filtered s
       = Z.of_nat (length (List.filter
                             (fails_a_filter exts maxs (cutoff_of now days))
                             (walk_files (fs w) root)))).
Proof.
  intros Hclaim.
  specialize (Hclaim Demo.service (Demo.T + 1000) Demo.fresh_ids ["scan"]
                false (Some ["txt"]) None None Demo.relink_world
                Demo.relink_world
                {| checked := 1; relinked := 0; not_found := 1; scanned := 0;
                   hash_checked := 0; size_filtered := 0;
                   date_filtered := 0 |}).
  assert (0 + 0 = 2) as Habs; [|discriminate Habs].
  apply Hclaim. vm_compute. reflexivity.
Qed.

(** C6, as amended. When the scan returns a summary: the index holds,
    under each file name, the walked files of that name that pass the
    filters, in walk order; a file rejected by the extension allow-list
    leaves no trace: nothing is indexed under its name, and the walk
    without the rejected files ends with the same locals, so that no
    counter knows of them. [checked] is the number of missing files
    looked for; every checked file is counted once, as relinked or as not
    found; [scanned] is the number of distinct file names in the index;
    [hash_checked] is the number of candidates whose hash was computed. *)
Theorem relink_summary_counters `{HashAlgorithm}
  self now fresh root use_hash exts maxs days w w' s :
  relink_missing_files self now fresh root use_hash exts maxs days w
  = (w', Ok s) ->
  let cutoff := cutoff_of now days in
  let entries := walk_files (fs w) root in
  exists idx,
    build_index exts maxs cutoff entries
    = Ok {| index := idx; summary := None |}
    /\ build_index exts maxs cutoff
         (List.filter (fun e => negb (fails_extension_filter exts (we_name e)))
            entries)
       = Ok {| index := idx; summary := None |}
    /\ (forall nm,
          default [] (idx !! nm) = candidates_named exts maxs cutoff nm entries)
    /\ (forall e, In e entries ->
          fails_extension_filter exts (we_name e) = true ->
          default [] (idx !! we_name e) = [])
    /\ checked s = Z.of_nat (length (missing_files w))
    /\ scanned s = Z.of_nat (size idx)
    /\ relinked s + not_found s = checked s
    /\ hash_checked s
       = Z.of_nat (length (flat_map (hashed_for (fs w) use_hash idx)
                             (missing_files w))).
Proof.
  intros Hr. simpl.
  apply relink_returns in Hr
    as (-> & Hex & Hc & Hsc & Hrel & Hnf & _ & _ & Hh).
  exists (index_after exts maxs (cutoff_of now days)
            (walk_files (fs w) root) ∅).
  assert (build_index exts maxs (cutoff_of now days) (walk_files (fs w) root)
          = Ok {| index := index_after exts maxs (cutoff_of now days)
                             (walk_files (fs w) root) ∅;
                  summary := None |}) as Hb
    by (by rewrite build_index_spec, Hex).
  split; [done|]. split.
  { unfold build_index. by rewrite walk_ignores_extension_rejects. }
  split.
  { intros nm. rewrite index_after_lookup. by rewrite lookup_empty. }
  split.
  { intros e _ Hrej. rewrite index_after_lookup, lookup_empty.
    by apply candidates_named_rejected. }
  repeat split; auto; lia.
Qed.

Lemma relink_summary_counters_witness :
  exists idx,
    build_index (Some ["pdf"]) (Some 1000) (cutoff_of (Demo.T + 1000) (Some 1))
      (walk_files (fs Demo.relink_world_changed) ["scan"])
    = Ok {| index := idx; summary := None |}
    /\ default [] (idx !! "notes.txt") = []
    /\ length (default [] (idx !! "report.pdf")) = 2%nat
    /\ scanned Demo.relink_changed_summary = Z.of_nat (size idx)
    /\ hash_checked Demo.relink_changed_summary
       = Z.of_nat
           (length (flat_map
                      (hashed_for (H := Demo.demo_hash)
                         (fs Demo.relink_world_changed) true idx)
                      (missing_files Demo.relink_world_changed))).
Proof.
  destruct (relink_summary_counters (H := Demo.demo_hash) Demo.service
              (Demo.T + 1000) Demo.fresh_ids ["scan"] true (Some ["pdf"])
              (Some 1000) (Some 1) Demo.relink_world_changed
              Demo.relink_world_changed Demo.relink_changed_summary)
    as (idx & Hb & _ & Hnm & _ & _ & Hs & _ & Hh).
  - vm_compute. reflexivity.
  - exists idx. split; [exact Hb|].
    split; [rewrite Hnm; vm_compute; reflexivity|].
    split; [rewrite Hnm; vm_compute; reflexivity|].
    split; [exact Hs|exact Hh].
Defined.

(** Two candidates of one name count once in [scanned]. *)
Example scanned_counts_names :
  (relink_missing_files (H := Demo.demo_hash) Demo.service (Demo.T + 1000)
     Demo.fresh_ids ["scan"] false None None None Demo.relink_world_other).2
  = Ok {| checked := 1; relinked := 0; not_found := 1; scanned := 1;
          hash_checked := 0; size_filtered := 0; date_filtered := 0 |}
  /\ length (candidates_named None None None "report.pdf"
               (walk_files (fs Demo.relink_world_other) ["scan"])) = 2%nat.
Proof. vm_compute. repeat split; reflexivity. Qed.

End RelinkFacts.

(** ** Further properties of the verification, store and service code *)

Module VerifyHashFacts.
Import Py Pathlib Os Models Verification OsFacts.

Section WithHash.
Context `{HashAlgorithm}.

(** X1. [verify_file_hash] reports a valid file exactly when the path is
    a regular file whose digest is the expected one, and then hands back
    that digest without an error text. Otherwise the error text tells the
    three failures apart: nothing at the path, a path that cannot be read
    as a file (a directory), and a digest that differs. *)
Theorem verify_file_hash_verdict (disk : filesystem) (p : path)
  (expected : string) :
  let r := verify_file_hash disk p expected in
  (is_valid r = true
   <-> exists data mtime,
         node_at disk p = Some (File data mtime)
         /\ hexdigest data = expected)
  /\ expected_hash r = Some expected
  /\ (is_valid r = true -> actual_hash r = Some expected /\ error r = None)
  /\ (is_valid r = false ->
      error r = Some match node_at disk p with
                     | None => "File not found"
                     | Some (Dir _) => "Failed to compute hash"
                     | Some (File _ _) => "Hash mismatch"
                     end).
Proof.
  unfold verify_file_hash, compute_file_hash, Os.exists_, read_bytes.
  destruct (node_at disk p) as [[data m|st]|] eqn:Hn; cbn.
  - destruct (String.eqb_spec (hexdigest data) expected) as [He|He]; cbn.
    + repeat split; try done.
      * intros _. by exists data, m.
      * by rewrite He.
    + repeat split; try done.
      intros (d & m' & [= <- <-] & Hd). done.
  - repeat split; try done. intros (d & m' & [=] & _).
  - repeat split; try done. intros (d & m' & [=] & _).
Qed.

(** X2. [has_file_changed] on the live state agrees with
    [check_file_status]: when it reports no change the status is OK
    whether or not hashes are used, and without hashes the status is OK
    only when it reports no change. *)
Theorem has_file_changed_agrees_with_status (disk : filesystem)
  (tf : TrackedFile.t) (compute_hash : bool) :
  let state := get_file_state disk (TrackedFile.file_path tf) compute_hash in
  (has_file_changed tf state = false ->
     forall use_hash, check_file_status disk tf use_hash = OK)
  /\ (check_file_status disk tf false = OK ->
        has_file_changed tf state = false)
  /\ (check_file_status disk tf true = MISSING ->
        has_file_changed tf state = true).
Proof.
  unfold has_file_changed, check_file_status, get_file_state.
  destruct (Os.stat disk (TrackedFile.file_path tf)) as [st|]; cbn.
  - destruct (negb (st_size st =? TrackedFile.file_size tf)
              || negb (st_mtime st =? TrackedFile.modified_time tf)) eqn:E.
    + repeat split; done.
    + repeat split; done.
  - repeat split; done.
Qed.

End WithHash.
End VerifyHashFacts.

Module SortFacts.
Import Py Pathlib Models DatabaseManager.

Ltac insert_perm l :=
  induction l as [|? ? IH]; cbn; [done|];
  match goal with |- context [if ?c then _ else _] => destruct c end;
  [done|]; rewrite IH; apply Permutation_swap.

Lemma insert_created_desc_perm f l : insert_created_desc f l ≡ₚ f :: l.
Proof. insert_perm l. Qed.

Lemma order_by_created_at_desc_perm l : order_by_created_at_desc l ≡ₚ l.
Proof.
  unfold order_by_created_at_desc.
  induction l as [|a l IH]; cbn; [done|].
  by rewrite insert_created_desc_perm, IH.
Qed.

Lemma insert_version_desc_perm v l : insert_version_desc v l ≡ₚ v :: l.
Proof. insert_perm l. Qed.

Lemma sort_versions_desc_perm l : fold_right insert_version_desc [] l ≡ₚ l.
Proof.
  induction l as [|a l IH]; cbn; [done|].
  by rewrite insert_version_desc_perm, IH.
Qed.

Lemma insert_version_created_desc_perm v l :
  insert_version_created_desc v l ≡ₚ v :: l.
Proof. insert_perm l. Qed.

Lemma sort_versions_created_desc_perm l :
  fold_right insert_version_created_desc [] l ≡ₚ l.
Proof.
  induction l as [|a l IH]; cbn; [done|].
  by rewrite insert_version_created_desc_perm, IH.
Qed.

Lemma insert_event_perm d e l : insert_event d e l ≡ₚ e :: l.
Proof. insert_perm l. Qed.

Lemma sort_events_perm d l : fold_right (insert_event d) [] l ≡ₚ l.
Proof.
  induction l as [|a l IH]; cbn; [done|].
  by rewrite insert_event_perm, IH.
Qed.

Lemma insert_version_desc_sorted v l :
  StronglySorted by_number_desc l ->
  StronglySorted by_number_desc (insert_version_desc v l).
Proof.
  induction 1 as [|w l Hs IH Hall]; cbn.
  - repeat constructor.
  - destruct (Z.leb_spec (Version.version_number w) (Version.version_number v))
      as [Hle|Hgt].
    + constructor; [by constructor|].
      constructor; [done|].
      eapply Forall_impl; [exact Hall|].
      unfold by_number_desc. intros; simpl in *; lia.
    + constructor; [done|].
      rewrite insert_version_desc_perm. constructor; [|done].
      unfold by_number_desc. lia.
Qed.

Lemma sort_versions_desc_sorted l :
  StronglySorted by_number_desc (fold_right insert_version_desc [] l).
Proof.
  induction l as [|a l IH]; cbn; [constructor|].
  by apply insert_version_desc_sorted.
Qed.

End SortFacts.

Module FileFlagFacts.
Import Py Pathlib Models DatabaseManager ListFacts SortFacts.

Lemma update_where_none {A} (p : A -> bool) (g : A -> A) (rows : list A) :
  List.find p rows = None -> update_where p g rows = rows.
Proof.
  unfold update_where. induction rows as [|r rows IH]; cbn; [done|].
  destruct (p r) eqn:Hr; [discriminate|]. intros Hf. by rewrite IH.
Qed.

Lemma update_where_twice {A} (p : A -> bool) (g : A -> A) (rows : list A) :
  (forall r, p (g r) = p r) -> (forall r, g (g r) = r) ->
  update_where p g (update_where p g rows) = rows.
Proof.
  intros Hp Hg. unfold update_where. induction rows as [|r rows IH]; cbn;
    [done|].
  rewrite IH. destruct (p r) eqn:Hr.
  - by rewrite Hp, Hr, Hg.
  - by rewrite Hr.
Qed.

Lemma with_files_same db : with_files db (files db) = db.
Proof. by destruct db. Qed.

(** X3. [toggle_favorite] returns the negation of the stored flag and
    stores it; toggling twice gives the store back as it was. For an id
    without a row it returns [False] and changes nothing. *)
Theorem toggle_favorite_flips file_id db :
  let '(db1, now_favorite) := toggle_favorite file_id db in
  match get_file db file_id with
  | Some f =>
      now_favorite = negb (TrackedFile.is_favorite f)
      /\ get_file db1 file_id
         = Some (set_favorite_field (negb (TrackedFile.is_favorite f)) f)
  | None => now_favorite = false /\ db1 = db
  end
  /\ (toggle_favorite file_id db1).1 = db.
Proof.
  unfold toggle_favorite, get_file, fetchone_where. cbn [files with_files].
  rewrite RestoreFacts.find_update_where by done.
  split.
  - destruct (List.find _ (files db)) as [f|] eqn:Hf; cbn.
    + done.
    + split; [done|]. rewrite update_where_none by done.
      apply with_files_same.
  - cbn. rewrite update_where_twice.
    + by destruct db.
    + done.
    + intros []. cbn. by rewrite negb_involutive.
Qed.

End FileFlagFacts.

Module ArchiveFacts.
Import Py Pathlib Models DatabaseManager ListFacts SortFacts FileFlagFacts.

Lemma filter_split_perm {A} (p : A -> bool) (l : list A) :
  l ≡ₚ List.filter (fun x => negb (p x)) l ++ List.filter p l.
Proof.
  induction l as [|a l IH]; cbn; [done|].
  destruct (p a); cbn.
  - rewrite IH at 1. by rewrite Permutation_middle.
  - by rewrite IH at 1.
Qed.

(** X4. The archive splits the listing: a file is in the listing with
    archived files exactly once, either in the default listing, whose
    files are all unarchived, or in the archive listing, whose files are
    all archived. *)
Theorem archive_splits_the_listing db :
  get_all_files db true
    ≡ₚ get_all_files db false ++ get_archived_files db
  /\ Forall (fun f => TrackedFile.is_archived f = false)
       (get_all_files db false)
  /\ Forall (fun f => TrackedFile.is_archived f = true)
       (get_archived_files db).
Proof.
  unfold get_all_files, get_archived_files.
  rewrite !order_by_created_at_desc_perm.
  split; [apply filter_split_perm|].
  split.
  - apply Forall_forall. intros f Hf. apply list_elem_of_In, filter_In in Hf.
    destruct Hf as [_ Hf]. by apply negb_true_iff.
  - apply Forall_forall. intros f Hf. apply list_elem_of_In, filter_In in Hf.
    by destruct Hf.
Qed.

Lemma In_update_where {A} (p : A -> bool) (g : A -> A) rows r :
  In r (update_where p g rows)
  <-> exists r0, In r0 rows /\ r = if p r0 then g r0 else r0.
Proof.
  unfold update_where. rewrite in_map_iff. split.
  - intros (r0 & <- & Hin). eauto.
  - intros (r0 & Hin & ->). eauto.
Qed.

(** X5. [set_archived] moves every row of the file between the two
    listings: after archiving, no row of the file is in the default
    listing; after [unarchive_file], none is in the archive; rows of
    other files are listed as before, and apart from the flag no column
    of the file's row changes. *)
Theorem set_archived_moves_the_file file_id db :
  (forall f, In f (get_all_files (set_archived file_id true db) false) ->
             TrackedFile.id f <> file_id)
  /\ (forall f, In f (get_archived_files (unarchive_file file_id db)) ->
                TrackedFile.id f <> file_id)
  /\ (forall b f include_archived,
        TrackedFile.id f <> file_id ->
        In f (get_all_files (set_archived file_id b db) include_archived)
        <-> In f (get_all_files db include_archived))
  /\ (forall b,
        get_file (set_archived file_id b db) file_id
        = option_map (set_archived_field b) (get_file db file_id)).
Proof.
  assert (forall l (f : TrackedFile.t), In f (order_by_created_at_desc l) <-> In f l)
    as Hord.
  { intros l f. rewrite <- !list_elem_of_In.
    by rewrite order_by_created_at_desc_perm. }
  split; [|split; [|split]].
  - intros f. unfold get_all_files, set_archived. cbn [files with_files].
    rewrite Hord, filter_In, In_update_where.
    intros [(f0 & Hin & ->) Harch] Hid.
    destruct (String.eqb_spec (TrackedFile.id f0) file_id) as [E|E];
      cbn in Harch, Hid; [discriminate|done].
  - intros f. unfold get_archived_files, unarchive_file, set_archived.
    cbn [files with_files].
    rewrite Hord, filter_In, In_update_where.
    intros [(f0 & Hin & ->) Harch] Hid.
    destruct (String.eqb_spec (TrackedFile.id f0) file_id) as [E|E];
      cbn in Harch, Hid; [discriminate|done].
  - intros b f include_archived Hid.
    assert (In f (update_where
                    (fun f => String.eqb (TrackedFile.id f) file_id)
                    (set_archived_field b) (files db))
            <-> In f (files db)) as Hrow.
    { rewrite In_update_where. split.
      - intros (f0 & Hin & ->).
        destruct (String.eqb_spec (TrackedFile.id f0) file_id) as [E|E];
          [|done].
        by cbn in Hid.
      - intros Hin. exists f. split; [done|].
        by apply String.eqb_neq in Hid as ->. }
    unfold get_all_files, set_archived. cbn [files with_files].
    rewrite !Hord. destruct include_archived; [done|].
    rewrite !filter_In. by rewrite Hrow.
  - intros b. unfold get_file, fetchone_where, set_archived.
    cbn [files with_files].
    by apply RestoreFacts.find_update_where.
Qed.

End ArchiveFacts.

Module ProjectFacts.
Import Py Pathlib Models DatabaseManager ListFacts SortFacts FileFlagFacts
  ArchiveFacts.

Lemma find_map_same {A} (p : A -> bool) (h : A -> A) (rows : list A) :
  (forall r, p (h r) = p r) ->
  List.find p (map h rows) = option_map h (List.find p rows).
Proof.
  intros Hp. induction rows as [|r rows IH]; cbn; [done|].
  rewrite Hp. by destruct (p r).
Qed.

Lemma filter_filter_and {A} (p q : A -> bool) (l : list A) :
  List.filter p (List.filter q l) = List.filter (fun x => q x && p x) l.
Proof.
  induction l as [|a l IH]; cbn; [done|].
  destruct (q a); cbn; [destruct (p a)|]; by rewrite IH.
Qed.

Lemma filter_perm {A} (p : A -> bool) (l l' : list A) :
  l ≡ₚ l' -> List.filter p l ≡ₚ List.filter p l'.
Proof.
  induction 1 as [|a l l' _ IH|a b l|l1 l2 l3 _ IH1 _ IH2]; cbn.
  - done.
  - destruct (p a); by rewrite IH.
  - destruct (p a), (p b); try done. apply Permutation_swap.
  - by rewrite IH1.
Qed.

(** X6. For a project id that is not the empty string,
    [get_project_file_count] is the length of the project's listing with
    archived files included; the default listing is that listing without
    the archived files, so it can be shorter than the count. The empty
    string is listed as "no project": it gives the unassigned files. *)
Theorem project_count_and_listing db project_id :
  (project_id <> "" ->
     get_project_file_count db project_id
     = Z.of_nat (length (get_files_by_project db (Some project_id) true))
     /\ get_files_by_project db (Some project_id) false
        ≡ₚ List.filter (fun f => negb (TrackedFile.is_archived f))
             (get_files_by_project db (Some project_id) true))
  /\ (forall include_archived,
        get_files_by_project db (Some "") include_archived
        = get_files_by_project db None include_archived).
Proof.
  split; [|done].
  intros Hne. unfold get_project_file_count, get_files_by_project.
  assert (truthy_str (Some project_id) = true) as ->.
  { cbn. by apply negb_true_iff, String.eqb_neq. }
  cbn [default]. split.
  - rewrite order_by_created_at_desc_perm. do 2 f_equal.
    apply filter_ext. intros f. cbn. by rewrite andb_true_r.
  - rewrite order_by_created_at_desc_perm.
    rewrite (filter_perm _ _ _ (order_by_created_at_desc_perm _)).
    rewrite filter_filter_and. cbn.
    erewrite filter_ext; [done|]. intros f. cbn.
    by rewrite andb_true_r.
Qed.

End ProjectFacts.

Module ProjectStoreFacts.
Import Py Pathlib Models ListFacts SortFacts FileFlagFacts ProjectFacts.
Import Projects.

Lemma find_delete_where_other {A} (p q : A -> bool) (rows : list A) :
  (forall r, p r = true -> q r = false) ->
  List.find p (DatabaseManager.delete_where q rows) = List.find p rows.
Proof.
  intros Hpq. unfold DatabaseManager.delete_where.
  induction rows as [|r rows IH]; cbn; [done|].
  destruct (q r) eqn:Hq; cbn.
  - destruct (p r) eqn:Hp; [|done]. rewrite (Hpq _ Hp) in Hq. discriminate.
  - destruct (p r); [done|]. apply IH.
Qed.

(** X7. [delete_project] leaves no trace of the project: its row is
    gone, no file is counted under it, and every file that belonged to
    it is unassigned, with all its other columns kept; files of other
    projects and other projects are as before. *)
Theorem delete_project_unassigns project_id s :
  let s' := delete_project project_id s in
  get_project s' project_id = None
  /\ DatabaseManager.get_project_file_count (db s') project_id = 0
  /\ (forall other, other <> project_id ->
        get_project s' other = get_project s other)
  /\ (forall file_id,
        DatabaseManager.get_file (db s') file_id
        = option_map
            (fun f =>
               if DatabaseManager.opt_is project_id (TrackedFile.project_id f)
               then DatabaseManager.set_project_field None f else f)
            (DatabaseManager.get_file (db s) file_id)).
Proof.
  cbn zeta. unfold delete_project, get_project,
    DatabaseManager.get_project_file_count, DatabaseManager.get_file,
    DatabaseManager.fetchone_where.
  cbn [db projects DatabaseManager.files DatabaseManager.with_files].
  split; [|split; [|split]].
  - apply find_none_intro. intros p Hp.
    apply filter_In in Hp as [_ Hp]. by apply negb_true_iff in Hp.
  - unfold DatabaseManager.update_where.
    assert (List.filter
              (fun f => DatabaseManager.opt_is project_id
                          (TrackedFile.project_id f))
              (map (fun r =>
                      if DatabaseManager.opt_is project_id
                           (TrackedFile.project_id r)
                      then DatabaseManager.set_project_field None r else r)
                 (DatabaseManager.files (db s))) = []) as ->; [|done].
    induction (DatabaseManager.files (db s)) as [|f l IH]; cbn; [done|].
    destruct (DatabaseManager.opt_is project_id (TrackedFile.project_id f))
      eqn:Hf; cbn; [done|]. by rewrite Hf.
  - intros other Hne. apply find_delete_where_other.
    intros p Hp. apply String.eqb_eq in Hp. apply String.eqb_neq. congruence.
  - intros file_id. unfold DatabaseManager.update_where.
    apply find_map_same. intros f. by destruct (DatabaseManager.opt_is _ _).
Qed.

(** X8. [update_project] assigns exactly the columns whose argument is
    not [None] and leaves the files, the other projects and the id and
    creation time of the project alone. Since [None] means "keep", a
    description that is set can be replaced but never cleared. *)
Theorem update_project_merges project_id name description color s :
  let s' := update_project project_id name description color s in
  db s' = db s
  /\ get_project s' project_id
     = option_map (apply_updates name description color)
         (get_project s project_id)
  /\ (forall other, other <> project_id ->
        get_project s' other = get_project s other)
  /\ (forall p, get_project s project_id = Some p ->
        Project.description p <> None ->
        exists p', get_project s' project_id = Some p'
                   /\ Project.description p' <> None
                   /\ Project.id p' = Project.id p
                   /\ Project.created_at p' = Project.created_at p).
Proof.
  cbn zeta.
  assert (forall p, apply_updates None None None p = p) as Hid
    by (by intros []).
  assert (get_project (update_project project_id name description color s)
            project_id
          = option_map (apply_updates name description color)
              (get_project s project_id)) as Hget.
  { unfold update_project, get_project, DatabaseManager.fetchone_where.
    destruct name, description, color; cbn [projects with_projects];
      try (by apply RestoreFacts.find_update_where).
    destruct (List.find _ (projects s)); cbn; by rewrite ?Hid. }
  split; [|split; [done|split]].
  - unfold update_project. by destruct name, description, color.
  - intros other Hne.
    unfold update_project, get_project, DatabaseManager.fetchone_where.
    destruct name, description, color; cbn [projects with_projects];
      try done;
      (unfold DatabaseManager.update_where; rewrite find_map_same;
       [|intros p; by destruct (String.eqb (Project.id p) project_id)];
       destruct (List.find _ (projects s)) as [p|] eqn:Hf; [|done]; cbn;
       apply find_some in Hf as [_ Hf]; apply String.eqb_eq in Hf;
       assert (String.eqb (Project.id p) project_id = false) as ->
         by (apply String.eqb_neq; congruence); done).
  - intros p Hp Hd. rewrite Hget, Hp. cbn. eexists. split; [done|].
    cbn. split; [|done]. by destruct description.
Qed.

End ProjectStoreFacts.

Module VersionQueryFacts.
Import Py Pathlib Models DatabaseManager ListFacts SortFacts FileFlagFacts.

Lemma head_firstn_1 {A} (l : list A) : List.head (firstn 1 l) = List.head l.
Proof. by destruct l. Qed.

(** X9. [get_latest_version] returns a version of the file that carries
    its highest version number, and [None] exactly when the file has no
    version; the number [get_next_version_number] hands out is one more
    than the number of the latest version, and 1 when there is none. *)
Theorem get_latest_version_is_highest db file_id :
  match get_latest_version db file_id with
  | Some v =>
      In v (versions db)
      /\ Version.file_id v = file_id
      /\ (forall w, In w (versions db) -> Version.file_id w = file_id ->
                    Version.version_number w <= Version.version_number v)
      /\ get_next_version_number db file_id = Version.version_number v + 1
  | None =>
      version_numbers db file_id = []
      /\ get_next_version_number db file_id = 1
  end.
Proof.
  unfold get_latest_version. rewrite head_firstn_1.
  set (mine := List.filter (fun v => String.eqb (Version.file_id v) file_id)
                 (versions db)).
  pose proof (sort_versions_desc_perm mine) as Hperm.
  pose proof (sort_versions_desc_sorted mine) as Hsort.
  destruct (fold_right insert_version_desc [] mine) as [|v l] eqn:Hs; cbn.
  - apply Permutation_nil_l in Hperm.
    assert (version_numbers db file_id = []) as Hnil.
    { unfold version_numbers. fold mine. by rewrite <- Hperm. }
    split; [done|].
    rewrite VersionNumbering.get_next_version_number_spec.
    apply VersionNumbering.max_version_number_None in Hnil. by rewrite Hnil.
  - assert (In v mine) as Hv.
    { apply list_elem_of_In. rewrite <- Hperm. by left. }
    apply filter_In in Hv as [Hv Hf]. apply String.eqb_eq in Hf.
    assert (forall w, In w (versions db) -> Version.file_id w = file_id ->
                      Version.version_number w <= Version.version_number v)
      as Hmax.
    { intros w Hw Hfw.
      assert (w ∈ v :: l) as Hin.
      { rewrite Hperm. apply list_elem_of_In, filter_In. split; [done|].
        by apply String.eqb_eq. }
      apply StronglySorted_inv in Hsort as [_ Hall].
      apply elem_of_cons in Hin as [->|Hin]; [lia|].
      rewrite Forall_forall in Hall. apply (Hall w Hin). }
    repeat split; try done.
    rewrite VersionNumbering.get_next_version_number_spec.
    destruct (max_version_number db file_id) as [m|] eqn:Hm.
    + apply VersionNumbering.max_version_number_Some in Hm as [Hin Hle].
      unfold version_numbers in Hin, Hle.
      apply in_map_iff in Hin as (w & <- & Hw).
      apply filter_In in Hw as [Hw Hfw]. apply String.eqb_eq in Hfw.
      specialize (Hmax w Hw Hfw).
      assert (Version.version_number v <= Version.version_number w).
      { apply Hle. apply in_map, filter_In. split; [done|].
        by apply String.eqb_eq. }
      lia.
    + apply VersionNumbering.max_version_number_None in Hm.
      unfold version_numbers in Hm.
      assert (In (Version.version_number v)
                (map Version.version_number
                   (List.filter
                      (fun v => String.eqb (Version.file_id v) file_id)
                      (versions db)))) as Hin.
      { apply in_map, filter_In. split; [done|]. by apply String.eqb_eq. }
      rewrite Hm in Hin. destruct Hin.
Qed.

End VersionQueryFacts.

Module EventFacts.
Import Py Pathlib Models DatabaseManager ListFacts SortFacts FileFlagFacts.

Lemma filter_delete_where_same {A} (p : A -> bool) (rows : list A) :
  List.filter p (delete_where p rows) = [].
Proof.
  unfold delete_where. induction rows as [|r rows IH]; cbn; [done|].
  destruct (p r) eqn:Hp; cbn; [done|]. by rewrite Hp.
Qed.

Lemma filter_delete_where_other {A} (p q : A -> bool) (rows : list A) :
  (forall r, p r = true -> q r = false) ->
  List.filter p (delete_where q rows) = List.filter p rows.
Proof.
  intros Hpq. unfold delete_where.
  induction rows as [|r rows IH]; cbn; [done|].
  destruct (q r) eqn:Hq; cbn.
  - destruct (p r) eqn:Hp; [|done]. rewrite (Hpq _ Hp) in Hq. discriminate.
  - destruct (p r); by rewrite IH.
Qed.

Lemma length_delete_where {A} (p : A -> bool) (rows : list A) :
  (length rows = length (delete_where p rows) + length (List.filter p rows))%nat.
Proof.
  unfold delete_where. induction rows as [|r rows IH]; cbn; [done|].
  destruct (p r); cbn; lia.
Qed.



(** X11. [delete_events_for_file] returns the number of events the file
    had and leaves the file without events: [get_events] then lists
    nothing, for either order and for every limit the query accepts. The
    events of every other file, and all other tables, are as they were. *)
Theorem delete_events_for_file_count db file_id :
  let '(db', deleted_count) := delete_events_for_file file_id db in
  (exists had,
     get_events db file_id None true = Ok had
     /\ deleted_count = Z.of_nat (length had))
  /\ (forall order_desc, get_events db' file_id None order_desc = Ok [])
  /\ (forall limit order_desc rows,
        get_events db' file_id limit order_desc = Ok rows -> rows = [])
  /\ (forall other limit order_desc, other <> file_id ->
        get_events db' other limit order_desc
        = get_events db other limit order_desc)
  /\ files db' = files db /\ versions db' = versions db
  /\ metadata db' = metadata db /\ tag_links db' = tag_links db.
Proof.
  unfold delete_events_for_file. cbn zeta.
  split; [|split; [|split; [|split]]].
  - eexists. split; [reflexivity|].
    rewrite (Permutation_length (sort_events_perm _ _)).
    pose proof (length_delete_where
                  (fun e => String.eqb (Event.file_id e) file_id) (events db)).
    lia.
  - intros order_desc. unfold get_events. cbn [events with_events truthy_int].
    by rewrite filter_delete_where_same.
  - intros limit order_desc rows. unfold get_events.
    cbn [events with_events].
    rewrite filter_delete_where_same. cbn [fold_right].
    destruct (truthy_int limit); [|by intros [= <-]]. unfold sql_limit.
    destruct (is_int64 _); [|discriminate].
    destruct (_ <? 0); [by intros [= <-]|]. rewrite firstn_nil.
    by intros [= <-].
  - intros other limit order_desc Hne. unfold get_events.
    cbn [events with_events].
    rewrite filter_delete_where_other; [done|].
    intros e He. apply String.eqb_eq in He. apply String.eqb_neq. congruence.
  - done.
Qed.

End EventFacts.

Module PinListingFacts.
Import Py Pathlib Os Models Verification FileService ListFacts OsFacts.
Import RestoreFacts PinFacts SortFacts FileFlagFacts ArchiveFacts.

Lemma In_pinned_all d v :
  In v (DatabaseManager.get_pinned_versions d None)
  <-> In v (DatabaseManager.versions d) /\ Version.is_pinned v = true.
Proof.
  unfold DatabaseManager.get_pinned_versions. cbn [truthy_str].
  rewrite <- list_elem_of_In, sort_versions_created_desc_perm,
    list_elem_of_In.
  apply filter_In.
Qed.

Section WithHash.
Context `{HashAlgorithm}.

Lemma keeps_db_ret {A} (a : A) : keeps_db (ret a).
Proof. by intros w w' r [= <- <-]. Qed.

Lemma keeps_db_gets {A} (f : World -> A) : keeps_db (gets f).
Proof. by intros w w' r [= <- <-]. Qed.

Lemma keeps_db_fs_do f : keeps_db (fs_do f).
Proof.
  intros w w' r. unfold fs_do. destruct (f (fs w)); by intros [= <- <-].
Qed.

Lemma keeps_db_any_entries p : keeps_db (any_entries p).
Proof.
  intros w w' r. unfold any_entries.
  destruct (is_dir (fs w) p); by intros [= <- <-].
Qed.

Lemma keeps_db_bind {A B} (m : M World A) (k : A -> M World B) :
  keeps_db m -> (forall a, keeps_db (k a)) -> keeps_db (bind m k).
Proof.
  intros Hm Hk w w' r. unfold bind.
  destruct (m w) as [wa [a|e]] eqn:E.
  - intros Hka. rewrite (Hk a _ _ _ Hka). by apply (Hm _ _ _ E).
  - intros [= <- <-]. by apply (Hm _ _ _ E).
Qed.

Create HintDb keeps_db.
#[local] Hint Resolve keeps_db_ret keeps_db_gets keeps_db_fs_do
  keeps_db_any_entries : keeps_db.

Ltac keeps_db :=
  repeat first
    [ apply keeps_db_bind; [|intros ?]
    | match goal with |- keeps_db (if ?c then _ else _) => destruct c end
    | match goal with
      | |- keeps_db (match ?c with Some _ => _ | None => _ end) => destruct c
      end
    | solve [auto with keeps_db] ].

(** A successful [unpin_version] ends with the UPDATE of the row. *)
Lemma unpin_version_db self f n w w' :
  unpin_version self f n w = (w', Ok true) ->
  db w' = DatabaseManager.set_version_pinned f n false None (db w).
Proof.
  unfold unpin_version. unfold bind at 1. unfold gets at 1.
  destruct (DatabaseManager.get_version_by_number (db w) f n) as [v|];
    [|discriminate].
  destruct (Version.is_pinned v); cbn [negb]; [|discriminate].
  unfold bind at 1.
  match goal with
  | |- (let (_, _) := ?m w in _) = _ -> _ =>
      assert (keeps_db m) as Hk by keeps_db;
      destruct (m w) as [wa [[]|e]] eqn:Hfs; [|discriminate]
  end.
  apply Hk in Hfs. unfold bind, db_do, ret. intros [= <-]. cbn.
  by rewrite Hfs.
Qed.

(** X12. The pinned listing follows [pin_version] and [unpin_version]:
    after a successful pin of a version that has a row, the row, now
    flagged and carrying the pinned path, is in [get_pinned_versions];
    after a successful unpin no version of the file with that number is
    listed. Every listed version is pinned, and the empty string as file
    id lists the pinned versions of all files. *)
Theorem pinned_listing_follows_pin_and_unpin self f n :
  (forall w w1 p v0,
     pin_version self f n w = (w1, Ok (Some p)) ->
     DatabaseManager.get_version_by_number (db w) f n = Some v0 ->
     In (DatabaseManager.set_pin_fields true (Some p) v0)
        (DatabaseManager.get_pinned_versions (db w1) None))
  /\ (forall w w2 v,
        unpin_version self f n w = (w2, Ok true) ->
        In v (DatabaseManager.get_pinned_versions (db w2) None) ->
        ~ (Version.file_id v = f /\ Version.version_number v = n))
  /\ (forall d v,
        In v (DatabaseManager.get_pinned_versions d None) ->
        Version.is_pinned v = true)
  /\ (forall d,
        DatabaseManager.get_pinned_versions d (Some "")
        = DatabaseManager.get_pinned_versions d None).
Proof.
  split; [|split; [|split]].
  - intros w w1 p v0 Hpin Hv.
    apply pin_version_ok in Hpin
      as (root & tf & backup & wa & diskb & _ & _ & _ & _ & _ & diskc & _ & ->).
    cbn [db]. apply In_pinned_all. split; [|done].
    unfold DatabaseManager.set_version_pinned.
    cbn [DatabaseManager.versions DatabaseManager.with_versions].
    apply In_update_where.
    unfold DatabaseManager.get_version_by_number,
      DatabaseManager.fetchone_where in Hv.
    apply find_some in Hv as [Hin Hm].
    exists v0. split; [done|]. by rewrite Hm.
  - intros w w2 v Hun Hin [Hf Hn].
    apply unpin_version_db in Hun. rewrite Hun in Hin.
    apply In_pinned_all in Hin as [Hin Hp].
    unfold DatabaseManager.set_version_pinned in Hin.
    cbn [DatabaseManager.versions DatabaseManager.with_versions] in Hin.
    apply In_update_where in Hin as (v1 & _ & ->).
    destruct (String.eqb (Version.file_id v1) f
              && (Version.version_number v1 =? n)) eqn:Hm.
    + discriminate Hp.
    + rewrite Hf, Hn, String.eqb_refl, Z.eqb_refl in Hm. discriminate.
  - intros d v Hin. by apply In_pinned_all in Hin as [_ ?].
  - done.
Qed.

End WithHash.
End PinListingFacts.

Module TogglePinFacts.
Import Py Pathlib Os Models Verification FileService ListFacts OsFacts.
Import RestoreFacts PinFacts PinListingFacts.

Section WithHash.
Context `{HashAlgorithm}.

(** A [pin_version] that returns [None] has not written the store. *)
Lemma pin_version_none_db self f n w w1 :
  pin_version self f n w = (w1, Ok None) -> db w1 = db w.
Proof.
  unfold pin_version.
  destruct (_pin_storage_path self) as [root|] eqn:Hroot; [|discriminate].
  unfold bind at 1. unfold gets at 1.
  destruct (DatabaseManager.get_file (db w) f) as [tf|];
    [|by intros [= <-]].
  unfold bind at 1.
  destruct (get_version_backup_path self f n w) as [wa [[backup|]|e]] eqn:Hb;
    try discriminate;
    apply get_version_backup_path_spec in Hb as (Hdb & _ & _).
  - unfold bind at 1. unfold gets at 1.
    destruct (Os.exists_ (fs wa) backup); cbn [negb];
      [|by intros [= <-]].
    unfold _get_pinned_version_path. rewrite Hroot.
    unfold bind, fs_do, db_do, ret.
    destruct (mkdir_p _ (fs wa)); [|discriminate]. cbn [fs db].
    destruct (copy2 _ _ _); discriminate.
  - by intros [= <-].
Qed.

(** X13. [toggle_pin_version] on a version that is not pinned returns
    [True] together with whatever [pin_version] returned. When
    [pin_version] returned [None] (no backup artifact was found), the
    caller is told [(True, None)] although the store is unchanged and the
    version is still not pinned. *)
Theorem toggle_pin_reports_pinned_when_pin_fails self f n w w1 v r :
  DatabaseManager.get_version_by_number (db w) f n = Some v ->
  Version.is_pinned v = false ->
  pin_version self f n w = (w1, Ok r) ->
  toggle_pin_version self f n w = (w1, Ok (true, r))
  /\ (r = None ->
      db w1 = db w
      /\ DatabaseManager.get_version_by_number (db w1) f n = Some v
      /\ ~ In v (DatabaseManager.get_pinned_versions (db w1) None)).
Proof.
  intros Hv Hp Hpin. split.
  - unfold toggle_pin_version, bind, gets, ret. rewrite Hv, Hp, Hpin. done.
  - intros ->. apply pin_version_none_db in Hpin. rewrite Hpin.
    split; [done|]. split; [done|].
    intros Hin%In_pinned_all. destruct Hin as [_ Hin]. congruence.
Qed.

End WithHash.

Lemma toggle_pin_reports_pinned_when_pin_fails_witness :
  (toggle_pin_version Demo.service "f1" 1
     (Demo.registered (Some "Quarterly report"))).2 = Ok (true, None).
Proof.
  pose proof (toggle_pin_reports_pinned_when_pin_fails
                Demo.service "f1" 1
                (Demo.registered (Some "Quarterly report"))
                (pin_version Demo.service "f1" 1
                   (Demo.registered (Some "Quarterly report"))).1
                (Version.mk "v1" "f1" 1 "init" 16 1000 "2024-01-01T00:00:01"
                   (Some (Demo.demo_hexdigest Demo.original_bytes)) false None)
                None) as Ht.
  destruct Ht as [Ht _].
  - vm_compute. reflexivity.
  - reflexivity.
  - vm_compute. reflexivity.
  - rewrite Ht. reflexivity.
Defined.

End TogglePinFacts.

Module VerifyFileFacts.
Import Py Pathlib Os Models Verification FileService ListFacts OsFacts.
Import RestoreFacts VerificationFacts.

Lemma get_file_update_file_status d f st :
  DatabaseManager.get_file (DatabaseManager.update_file_status f st d) f
  = option_map
      (fun r =>
         TrackedFile.mk (TrackedFile.id r) (TrackedFile.display_name r)
           (TrackedFile.file_path r) (TrackedFile.file_size r)
           (TrackedFile.modified_time r) st (TrackedFile.created_at r)
           (TrackedFile.file_hash r) (TrackedFile.is_favorite r)
           (TrackedFile.is_archived r) (TrackedFile.project_id r))
      (DatabaseManager.get_file d f).
Proof.
  unfold DatabaseManager.get_file, DatabaseManager.fetchone_where,
    DatabaseManager.update_file_status. cbn.
  by apply find_update_where.
Qed.

Section WithHash.
Context `{HashAlgorithm}.

Lemma check_file_status_missing disk tf use_hash :
  check_file_status disk tf use_hash = MISSING ->
  node_at disk (TrackedFile.file_path tf) = None.
Proof.
  unfold check_file_status, get_file_state, Os.stat.
  destruct (node_at disk (TrackedFile.file_path tf)) as [[?|?]|]; cbn;
    [| |done];
    repeat match goal with
           | |- context [if ?c then _ else _] => destruct c
           end; discriminate.
Qed.

(** [verify_file] spelled out. *)
Lemma verify_file_unfold self file_id w tf :
  DatabaseManager.get_file (db w) file_id = Some tf ->
  let st := check_file_status (fs w) tf true in
  let live := compute_file_hash (fs w) (TrackedFile.file_path tf) in
  verify_file self file_id w
  = ({| fs := fs w;
        db :=
          if negb (truthy_str (TrackedFile.file_hash tf))
             && negb (bool_decide (st = MISSING)) && truthy_str live
          then DatabaseManager.update_file_metadata file_id
                 (TrackedFile.file_size tf) (TrackedFile.modified_time tf)
                 st live (db w)
          else if bool_decide (st = TrackedFile.status tf) then db w
               else DatabaseManager.update_file_status file_id st (db w) |},
     Ok st).
Proof.
  intros Hf st live. unfold verify_file, bind, gets, ret. rewrite Hf.
  fold st live.
  destruct (negb (truthy_str (TrackedFile.file_hash tf))
            && negb (bool_decide (st = MISSING)) && truthy_str live).
  - done.
  - destruct (bool_decide (st = TrackedFile.status tf)); [|done].
    cbn. by destruct w.
Qed.

(** X14. [verify_file] never writes the disk. For an unknown id it
    raises [ValueError] and leaves the store as it is. Otherwise it
    returns the status [check_file_status] computes and records it in
    the row; the stored size, modification time, path and name stay as
    they were, and the stored hash changes only when there was none: it
    is then filled in with the hash of the live file, if that can be
    read. *)
Theorem verify_file_records_status self file_id w :
  match DatabaseManager.get_file (db w) file_id with
  | None =>
      verify_file self file_id w
      = (w, Raise (ValueError ("File not found: " +:+ file_id)))
  | Some tf =>
      let st := check_file_status (fs w) tf true in
      exists w' tf',
        verify_file self file_id w = (w', Ok st)
        /\ fs w' = fs w
        /\ DatabaseManager.get_file (db w') file_id = Some tf'
        /\ TrackedFile.status tf' = st
        /\ TrackedFile.file_size tf' = TrackedFile.file_size tf
        /\ TrackedFile.modified_time tf' = TrackedFile.modified_time tf
        /\ TrackedFile.file_path tf' = TrackedFile.file_path tf
        /\ TrackedFile.display_name tf' = TrackedFile.display_name tf
        /\ TrackedFile.file_hash tf'
           = if truthy_str (TrackedFile.file_hash tf)
             then TrackedFile.file_hash tf
             else match compute_file_hash (fs w) (TrackedFile.file_path tf)
                  with
                  | Some h => Some h
                  | None => TrackedFile.file_hash tf
                  end
  end.
Proof.
  destruct (DatabaseManager.get_file (db w) file_id) as [tf|] eqn:Hf.
  - cbn zeta. rewrite (verify_file_unfold _ _ _ _ Hf).
    set (st := check_file_status (fs w) tf true).
    set (live := compute_file_hash (fs w) (TrackedFile.file_path tf)).
    destruct (truthy_str (TrackedFile.file_hash tf)) eqn:Hstored; cbn [negb andb].
    + destruct (bool_decide (st = TrackedFile.status tf)) eqn:Hst.
      * apply bool_decide_eq_true_1 in Hst.
        exists {| fs := fs w; db := db w |}, tf. by repeat split.
      * eexists _, _. split; [done|]. cbn [fs db].
        rewrite get_file_update_file_status, Hf. cbn. by repeat split.
    + destruct (bool_decide (st = MISSING)) eqn:Hmiss; cbn [negb andb].
      * apply bool_decide_eq_true_1 in Hmiss.
        assert (live = None) as Hlive.
        { apply check_file_status_missing in Hmiss.
          unfold live, compute_file_hash, Os.exists_. by rewrite Hmiss. }
        rewrite Hlive.
        destruct (bool_decide (st = TrackedFile.status tf)) eqn:Hst.
        -- apply bool_decide_eq_true_1 in Hst.
           exists {| fs := fs w; db := db w |}, tf. by repeat split.
        -- eexists _, _. split; [done|]. cbn [fs db].
           rewrite get_file_update_file_status, Hf. cbn. by repeat split.
      * destruct live as [h|] eqn:Hlive.
        -- assert (truthy_str (Some h) = true) as ->.
           { unfold live, compute_file_hash in Hlive.
             destruct (negb _); [discriminate|].
             destruct (read_bytes _ _); [|discriminate].
             injection Hlive as <-. apply truthy_hexdigest. }
           eexists _, _. split; [done|]. cbn [fs db].
           rewrite get_file_update_file_metadata, Hf. cbn. by repeat split.
        -- cbn [truthy_str].
           destruct (bool_decide (st = TrackedFile.status tf)) eqn:Hst.
           ++ apply bool_decide_eq_true_1 in Hst.
              exists {| fs := fs w; db := db w |}, tf. by repeat split.
           ++ eexists _, _. split; [done|]. cbn [fs db].
              rewrite get_file_update_file_status, Hf. cbn. by repeat split.
  - unfold verify_file, bind, gets, raise. by rewrite Hf.
Qed.

End WithHash.
End VerifyFileFacts.

Module VerifyTwiceFacts.
Import Py Pathlib Os Models Verification FileService ListFacts OsFacts.
Import RestoreFacts VerificationFacts VerifyFileFacts.

Section WithHash.
Context `{HashAlgorithm}.

(** X15. A modified file whose row has no stored hash is reported
    MODIFIED only once. The first [verify_file] returns MODIFIED and
    fills in the hash of the live, modified content; a second
    [verify_file] on the same disk then finds that hash matching and
    returns OK, and the row says OK while still holding the old size and
    modification time. *)
Theorem second_verify_forgets_modification self file_id w tf data mtime :
  DatabaseManager.get_file (db w) file_id = Some tf ->
  truthy_str (TrackedFile.file_hash tf) = false ->
  node_at (fs w) (TrackedFile.file_path tf) = Some (File data mtime) ->
  Z.of_nat (length data) <> TrackedFile.file_size tf
  \/ mtime <> TrackedFile.modified_time tf ->
  exists w1 w2,
    verify_file self file_id w = (w1, Ok MODIFIED)
    /\ verify_file self file_id w1 = (w2, Ok OK)
    /\ fs w2 = fs w
    /\ DatabaseManager.get_file (db w2) file_id
       = Some (TrackedFile.mk (TrackedFile.id tf) (TrackedFile.display_name tf)
                 (TrackedFile.file_path tf) (TrackedFile.file_size tf)
                 (TrackedFile.modified_time tf) OK (TrackedFile.created_at tf)
                 (Some (hexdigest data)) (TrackedFile.is_favorite tf)
                 (TrackedFile.is_archived tf) (TrackedFile.project_id tf)).
Proof.
  intros Hf Hstored Hnode Hdrift.
  assert (negb (st_size {| st_size := Z.of_nat (length data);
                           st_mtime := mtime |}
                =? TrackedFile.file_size tf)
          || negb (mtime =? TrackedFile.modified_time tf) = true) as Hd.
  { cbn. apply orb_true_iff. destruct Hdrift as [Hs|Hm]; [left|right];
      by apply negb_true_iff, Z.eqb_neq. }
  assert (compute_file_hash (fs w) (TrackedFile.file_path tf)
          = Some (hexdigest data)) as Hlive.
  { unfold compute_file_hash, Os.exists_, read_bytes. by rewrite Hnode. }
  assert (check_file_status (fs w) tf true = MODIFIED) as Hst.
  { unfold check_file_status, get_file_state, Os.stat. rewrite Hnode. cbn.
    cbn in Hd. rewrite Hd, Hstored. done. }
  pose proof (verify_file_unfold self file_id w tf Hf) as H1.
  cbn zeta in H1. rewrite Hst, Hlive, Hstored, truthy_hexdigest in H1.
  cbn [negb andb] in H1.
  rewrite bool_decide_eq_false_2 in H1 by discriminate. cbn [negb andb] in H1.
  eexists _, _. split; [exact H1|].
  set (tf1 := DatabaseManager.set_metadata_fields (TrackedFile.file_size tf)
                (TrackedFile.modified_time tf) MODIFIED
                (Some (hexdigest data)) tf).
  assert (DatabaseManager.get_file
            (DatabaseManager.update_file_metadata file_id
               (TrackedFile.file_size tf) (TrackedFile.modified_time tf)
               MODIFIED (Some (hexdigest data)) (db w)) file_id = Some tf1)
    as Hf1 by (by rewrite get_file_update_file_metadata, Hf).
  pose proof (verify_file_unfold self file_id
                {| fs := fs w;
                   db := DatabaseManager.update_file_metadata file_id
                           (TrackedFile.file_size tf)
                           (TrackedFile.modified_time tf) MODIFIED
                           (Some (hexdigest data)) (db w) |} tf1 Hf1) as H2.
  cbn zeta in H2. cbn [fs db] in H2.
  assert (check_file_status (fs w) tf1 true = OK) as Hst2.
  { unfold check_file_status, get_file_state, Os.stat. cbn. rewrite Hnode.
    cbn. cbn in Hd. rewrite Hd, Hlive.
    assert (negb (String.eqb (hexdigest data) "") = true) as Hne
      by apply negb_true_iff, String.eqb_neq, hexdigest_nonempty.
    rewrite !Hne. cbn. rewrite ?Hne. by rewrite bool_decide_eq_true_2. }
  rewrite Hst2 in H2.
  assert (truthy_str (TrackedFile.file_hash tf1) = true) as Ht1
    by apply truthy_hexdigest.
  rewrite Ht1 in H2. cbn [negb andb] in H2.
  rewrite bool_decide_eq_false_2 in H2 by (cbn; discriminate).
  split; [exact H2|]. cbn [fs db]. split; [done|].
  by rewrite get_file_update_file_status, Hf1.
Qed.

End WithHash.

Lemma second_verify_forgets_modification_witness :
  let w := Demo.edit (Demo.restored None) in
  exists w1 w2,
    verify_file (H := Demo.demo_hash) Demo.service "f1" w = (w1, Ok MODIFIED)
    /\ verify_file (H := Demo.demo_hash) Demo.service "f1" w1 = (w2, Ok OK)
    /\ fs w2 = fs w.
Proof.
  cbn zeta.
  destruct (second_verify_forgets_modification (H := Demo.demo_hash)
              Demo.service "f1" (Demo.edit (Demo.restored None))
              (TrackedFile.mk "f1" "report.pdf" Demo.report_path 16 1000 OK
                 "2024-01-01T00:00:00" None false false None)
              Demo.edited_bytes 2000)
    as (w1 & w2 & H1 & H2 & H3 & _).
  - vm_compute. reflexivity.
  - reflexivity.
  - vm_compute. reflexivity.
  - left. vm_compute. discriminate.
  - exists w1, w2. auto.
Defined.

End VerifyTwiceFacts.

Module VerifyAllFacts.
Import Py Pathlib Os Models Verification FileService ListFacts OsFacts.
Import RestoreFacts VerificationFacts VerifyFileFacts SortFacts.

Lemma find_update_where_other {A} (p q : A -> bool) (g : A -> A) rows :
  (forall r, q r = true -> p r = false) ->
  (forall r, q r = true -> p (g r) = false) ->
  List.find p (DatabaseManager.update_where q g rows) = List.find p rows.
Proof.
  intros H1 H2. unfold DatabaseManager.update_where.
  induction rows as [|r rows IH]; cbn; [done|].
  destruct (q r) eqn:Hq.
  - by rewrite (H1 _ Hq), (H2 _ Hq).
  - by destruct (p r).
Qed.

Lemma find_by_unique_id (rows : list TrackedFile.t) tf :
  NoDup (map TrackedFile.id rows) -> In tf rows ->
  List.find (fun f => String.eqb (TrackedFile.id f) (TrackedFile.id tf)) rows
  = Some tf.
Proof.
  induction rows as [|r rows IH]; cbn; [done|].
  intros Hnd [->|Hin].
  - by rewrite String.eqb_refl.
  - apply NoDup_cons in Hnd as [Hr Hnd].
    destruct (String.eqb_spec (TrackedFile.id r) (TrackedFile.id tf)) as [E|E].
    + exfalso. apply Hr. rewrite E. apply list_elem_of_In. by apply in_map.
    + by apply IH.
Qed.

Section WithHash.
Context `{HashAlgorithm}.

(** [verify_file] leaves the rows of other files alone. *)
Lemma verify_file_other_rows self file_id w w' r other :
  verify_file self file_id w = (w', r) -> other <> file_id ->
  DatabaseManager.get_file (db w') other = DatabaseManager.get_file (db w) other.
Proof.
  intros Hv Hne.
  destruct (DatabaseManager.get_file (db w) file_id) as [tf|] eqn:Hf.
  - rewrite (verify_file_unfold _ _ _ _ Hf) in Hv. injection Hv as <- _.
    cbn [db].
    assert (forall g, (forall r, TrackedFile.id (g r) = TrackedFile.id r) ->
              List.find (fun f => String.eqb (TrackedFile.id f) other)
                (DatabaseManager.update_where
                   (fun f => String.eqb (TrackedFile.id f) file_id) g
                   (DatabaseManager.files (db w)))
              = List.find (fun f => String.eqb (TrackedFile.id f) other)
                  (DatabaseManager.files (db w))) as Hother.
    { intros g Hg. apply find_update_where_other.
      - intros r0 Hr%String.eqb_eq. apply String.eqb_neq. congruence.
      - intros r0 Hr%String.eqb_eq. rewrite Hg. apply String.eqb_neq.
        congruence. }
    unfold DatabaseManager.get_file, DatabaseManager.fetchone_where.
    destruct (_ && _ && _).
    + apply Hother. done.
    + destruct (bool_decide _); [done|]. apply Hother. done.
  - unfold verify_file, bind, gets, raise in Hv. rewrite Hf in Hv.
    by injection Hv as <- _.
Qed.

Lemma verify_all_files_loop_spec self (rows : list TrackedFile.t) :
  forall results w,
    NoDup (map TrackedFile.id rows) ->
    (forall tf, In tf rows ->
       DatabaseManager.get_file (db w) (TrackedFile.id tf) = Some tf) ->
    exists w' results',
      verify_all_files_loop self rows results w = (w', Ok results')
      /\ fs w' = fs w
      /\ (forall file_id,
            results' !! file_id
            = match List.find
                      (fun f => String.eqb (TrackedFile.id f) file_id) rows
              with
              | Some tf => Some (check_file_status (fs w) tf true)
              | None => results !! file_id
              end)
      /\ (forall file_id,
            (forall tf, In tf rows -> TrackedFile.id tf <> file_id) ->
            DatabaseManager.get_file (db w') file_id
            = DatabaseManager.get_file (db w) file_id).
Proof.
  induction rows as [|tf rows IH]; intros results w Hnd Hrows.
  - exists w, results. cbn. by repeat split.
  - apply NoDup_cons in Hnd as [Hfresh Hnd].
    assert (DatabaseManager.get_file (db w) (TrackedFile.id tf) = Some tf)
      as Hf by (apply Hrows; by left).
    pose proof (verify_file_unfold self _ w tf Hf) as Hv. cbn zeta in Hv.
    set (w1 := (verify_file self (TrackedFile.id tf) w).1).
    assert (verify_file self (TrackedFile.id tf) w
            = (w1, Ok (check_file_status (fs w) tf true))) as Hv1
      by (unfold w1; by rewrite Hv).
    assert (fs w1 = fs w) as Hfs by (unfold w1; by rewrite Hv).
    assert (forall other, other <> TrackedFile.id tf ->
              DatabaseManager.get_file (db w1) other
              = DatabaseManager.get_file (db w) other) as Hkeep.
    { intros other Hne. by eapply verify_file_other_rows. }
    destruct (IH (<[TrackedFile.id tf := check_file_status (fs w) tf true]>
                    results) w1 Hnd) as (w' & results' & Hl & Hfs' & Hres & Hdb).
    { intros tf' Hin. rewrite Hkeep; [apply Hrows; by right|].
      intros E. apply Hfresh. rewrite <- E. apply list_elem_of_In.
      by apply in_map. }
    exists w', results'. split; [|split; [|split]].
    + cbn [verify_all_files_loop]. unfold bind. rewrite Hv1. exact Hl.
    + congruence.
    + intros file_id. rewrite Hres, Hfs. cbn [List.find].
      destruct (String.eqb_spec (TrackedFile.id tf) file_id) as [E|E].
      * subst file_id.
        rewrite find_none_intro.
        -- by rewrite lookup_insert_eq.
        -- intros r Hr. apply String.eqb_neq. intros E. apply Hfresh.
           rewrite <- E. apply list_elem_of_In. by apply in_map.
      * destruct (List.find _ rows); [done|]. by rewrite lookup_insert_ne.
    + intros file_id Hnone. rewrite Hdb.
      * apply Hkeep. intros E. apply (Hnone tf); [by left|done].
      * intros tf' Hin. apply Hnone. by right.
Qed.

(** On the disk of the model, where looking at a path never fails, the
    loop over the listed files always comes to its end. *)
Lemma verify_all_files_spec self w :
  NoDup (map TrackedFile.id (DatabaseManager.files (db w))) ->
  exists w' results,
    verify_all_files self w = (w', Ok results)
    /\ fs w' = fs w
    /\ (forall file_id,
          results !! file_id
          = match DatabaseManager.get_file (db w) file_id with
            | Some tf =>
                if TrackedFile.is_archived tf then None
                else Some (check_file_status (fs w) tf true)
            | None => None
            end)
    /\ (forall file_id tf,
          DatabaseManager.get_file (db w) file_id = Some tf ->
          TrackedFile.is_archived tf = true ->
          DatabaseManager.get_file (db w') file_id = Some tf).
Proof.
  intros Hnd.
  set (listed := DatabaseManager.get_all_files (db w) false).
  assert (forall tf, In tf listed
                     <-> In tf (DatabaseManager.files (db w))
                         /\ TrackedFile.is_archived tf = false) as Hlisted.
  { intros tf. unfold listed, DatabaseManager.get_all_files.
    rewrite <- list_elem_of_In, order_by_created_at_desc_perm,
      list_elem_of_In, filter_In.
    by rewrite negb_true_iff. }
  assert (forall tf, In tf (DatabaseManager.files (db w)) ->
            DatabaseManager.get_file (db w) (TrackedFile.id tf) = Some tf)
    as Hget.
  { intros tf Hin. by apply find_by_unique_id. }
  assert (NoDup (map TrackedFile.id listed)) as Hnd'.
  { unfold listed, DatabaseManager.get_all_files.
    rewrite order_by_created_at_desc_perm.
    clear -Hnd. induction (DatabaseManager.files (db w)) as [|r rows IH];
      cbn; [constructor|].
    cbn in Hnd. apply NoDup_cons in Hnd as [Hr Hnd].
    destruct (negb (TrackedFile.is_archived r)); cbn; [|by apply IH].
    apply NoDup_cons. split; [|by apply IH].
    intros Hin. apply Hr. apply list_elem_of_In in Hin.
    apply in_map_iff in Hin as (r' & E & Hin). apply filter_In in Hin as [Hin _].
    rewrite <- E. apply list_elem_of_In. by apply in_map. }
  destruct (verify_all_files_loop_spec self listed ∅ w Hnd')
    as (w' & results & Hl & Hfs & Hres & Hdb).
  { intros tf Hin. apply Hget. by apply Hlisted in Hin as [? _]. }
  exists w', results. split; [|split; [done|split]].
  - unfold verify_all_files, bind, gets. fold listed. exact Hl.
  - intros file_id. rewrite Hres, lookup_empty.
    destruct (DatabaseManager.get_file (db w) file_id) as [tf|] eqn:Hf.
    + pose proof Hf as Hf'.
      unfold DatabaseManager.get_file, DatabaseManager.fetchone_where in Hf'.
      apply find_some in Hf' as [Hin Hid]. apply String.eqb_eq in Hid.
      destruct (TrackedFile.is_archived tf) eqn:Harch.
      * rewrite find_none_intro; [done|].
        intros r Hr. apply String.eqb_neq. intros E.
        apply Hlisted in Hr as [Hr Ha].
        apply Hget in Hr. rewrite E, Hf in Hr. injection Hr as ->.
        congruence.
      * assert (In tf listed) as Hl' by (by apply Hlisted).
        rewrite <- Hid. by rewrite (find_by_unique_id listed tf Hnd' Hl').
    + rewrite find_none_intro; [done|].
      intros r Hr. apply String.eqb_neq. intros E.
      apply Hlisted in Hr as [Hr _]. apply Hget in Hr.
      rewrite E, Hf in Hr. discriminate.
  - intros file_id tf Hf Harch. rewrite Hdb; [done|].
    intros tf' Hin E. apply Hlisted in Hin as [Hin Ha].
    apply Hget in Hin. rewrite E, Hf in Hin. injection Hin as ->. congruence.
Qed.

(** X16. When [verify_all_files] returns its dictionary, the disk is as
    it was; the result has an entry exactly for the files that are not
    archived, and the entry is the status [check_file_status] gives the
    row on the disk as it is; archived files are not verified, their rows
    stay as they are. (File ids are unique: [files.id] is the primary
    key.) *)
Theorem verify_all_files_results self w w' results :
  NoDup (map TrackedFile.id (DatabaseManager.files (db w))) ->
  verify_all_files self w = (w', Ok results) ->
  fs w' = fs w
  /\ (forall file_id,
        results !! file_id
        = match DatabaseManager.get_file (db w) file_id with
          | Some tf =>
              if TrackedFile.is_archived tf then None
              else Some (check_file_status (fs w) tf true)
          | None => None
          end)
  /\ (forall file_id tf,
        DatabaseManager.get_file (db w) file_id = Some tf ->
        TrackedFile.is_archived tf = true ->
        DatabaseManager.get_file (db w') file_id = Some tf).
Proof.
  intros Hnd Hrun.
  destruct (verify_all_files_spec self w Hnd)
    as (w1 & results1 & Hv & Hfs & Hres & Hdb).
  rewrite Hv in Hrun. injection Hrun as <- <-. done.
Qed.

End WithHash.

Lemma verify_all_files_results_witness :
  exists w' results,
    verify_all_files (H := Demo.demo_hash) Demo.service (Demo.edited None)
    = (w', Ok results)
    /\ fs w' = fs (Demo.edited None)
    /\ results !! "f1" = Some MODIFIED.
Proof.
  set (run := verify_all_files (H := Demo.demo_hash) Demo.service
                (Demo.edited None)).
  assert (run = (run.1, Ok match run.2 with Ok r => r | Raise _ => ∅ end))
    as Hrun by (vm_compute; reflexivity).
  destruct (verify_all_files_results (H := Demo.demo_hash) Demo.service
              (Demo.edited None) _ _ (NoDup_singleton "f1") Hrun)
    as (Hfs & Hres & _).
  eexists _, _. split; [exact Hrun|]. split; [exact Hfs|].
  rewrite Hres. vm_compute. reflexivity.
Defined.

End VerifyAllFacts.
Module CommitFacts.
Import Py Pathlib Os Models Verification FileService ListFacts OsFacts.
Import RestoreFacts VerificationFacts VerifyFileFacts.

(** What a successful [copy2] has done. *)
Lemma copy2_ok src dst disk disk' :
  copy2 src dst disk = Ok disk' ->
  exists data mtime,
    let target := if is_dir disk dst then joinpath dst (name src) else dst in
    node_at disk src = Some (File data mtime)
    /\ disk' = <[target := File data mtime]> disk
    /\ src <> target /\ target <> [].
Proof.
  unfold copy2. cbv zeta.
  set (target := if is_dir disk dst then joinpath dst (name src) else dst).
  destruct (bool_decide (src = target) && Os.exists_ disk src) eqn:Hsame;
    [discriminate|].
  destruct (node_at disk src) as [[data m|?]|] eqn:Hs; try discriminate.
  assert (src <> target) as Hne.
  { intros E. unfold Os.exists_ in Hsame. rewrite Hs in Hsame.
    rewrite bool_decide_eq_true_2 in Hsame by done. discriminate. }
  assert (target <> [] \/ target = []) as [Ht|Ht]
    by (destruct target; [by right|by left]).
  - destruct (node_at disk target) as [[?|?]|]; try discriminate;
      (destruct (node_at disk (parent target)) as [[?|?]|]; try discriminate;
       intros [= <-]; by exists data, m).
  - rewrite Ht. cbn. discriminate.
Qed.

Section WithHash.
Context `{HashAlgorithm}.

(** X17. A successful [create_new_version] takes the file as it is on
    the disk: the new version carries the next number and the size,
    modification time and hash of the live content; a backup artifact
    with that content exists (under the canonical name unless a
    directory is in the way); the tracked file itself is untouched; and
    the row of the file now describes the live content, so that
    [check_file_status] is OK right afterwards. *)
Theorem create_new_version_snapshots_live_file
  self version_uuid now file_id msg w w' v :
  create_new_version self version_uuid now file_id msg w = (w', Ok v) ->
  exists tf data mtime artifact,
    DatabaseManager.get_file (db w) file_id = Some tf
    /\ node_at (fs w) (TrackedFile.file_path tf) = Some (File data mtime)
    /\ v = Version.mk version_uuid file_id
             (DatabaseManager.get_next_version_number (db w) file_id) msg
             (Z.of_nat (length data)) mtime now (Some (hexdigest data))
             false None
    /\ In v (DatabaseManager.versions (db w'))
    /\ read_bytes (fs w') artifact = Ok data
    /\ (let canonical :=
          joinpath (_get_version_dir self file_id)
            (version_file_name (Version.version_number v)
               (name (TrackedFile.file_path tf))) in
        is_dir (fs w) canonical = false -> artifact = canonical)
    /\ node_at (fs w') (TrackedFile.file_path tf) = Some (File data mtime)
    /\ DatabaseManager.get_file (db w') file_id
       = Some (DatabaseManager.set_metadata_fields (Z.of_nat (length data))
                 mtime OK (Some (hexdigest data)) tf)
    /\ forall tf', DatabaseManager.get_file (db w') file_id = Some tf' ->
                   check_file_status (fs w') tf' true = OK.
Proof.
  unfold create_new_version. unfold bind at 1. unfold gets at 1.
  destruct (DatabaseManager.get_file (db w) file_id) as [tf|] eqn:Hf;
    [|discriminate].
  unfold bind at 1. unfold gets at 1.
  unfold get_file_state at 1.
  destruct (Os.stat (fs w) (TrackedFile.file_path tf)) as [st|] eqn:Hst;
    cbn [exists_ negb]; [|discriminate].
  unfold bind at 1. unfold db_try at 1.
  cbn [Verification.file_size Verification.modified_time Verification.file_hash
       get_file_state].
  unfold get_file_state. rewrite Hst.
  cbn [Verification.file_size Verification.modified_time Verification.file_hash].
  destruct (DatabaseManager.create_version _ _ _ _ _ _ _ (db w))
    as [[d2 v2]|e] eqn:Hcv; [|discriminate].
  apply VersionNumbering.create_version_inv in Hcv as [-> ->].
  unfold bind at 1. unfold _backup_file, _get_version_path.
  unfold bind at 1. unfold bind at 1. unfold fs_do at 1. cbn [fs db].
  destruct (mkdir_p (_get_version_dir self file_id) (fs w)) as [disk1|e]
    eqn:Hm; [|discriminate].
  unfold ret at 1. unfold bind at 1. unfold fs_do at 1. cbn [fs db].
  destruct (copy2 _ _ disk1) as [disk2|e] eqn:Hc; [|discriminate].
  unfold ret at 1. unfold bind, db_do, ret. cbn [fs db].
  intros [= <- <-].
  apply copy2_ok in Hc as (data & m & Hsrc & -> & Hne & Htgt).
  cbn zeta in Hsrc, Hne, Htgt.
  cbn [Version.version_number] in Hsrc, Hne, Htgt |- *.
  set (canonical :=
         joinpath (_get_version_dir self file_id)
           (version_file_name
              (DatabaseManager.get_next_version_number (db w) file_id)
              (name (TrackedFile.file_path tf)))) in *.
  set (target := if is_dir disk1 canonical
                 then joinpath canonical (name (TrackedFile.file_path tf))
                 else canonical) in *.
  pose proof (mkdir_p_ok _ _ _ Hm) as [Hg _].
  assert (TrackedFile.file_path tf <> []) as Hpne
    by (intros E; rewrite E in Hsrc; discriminate).
  assert (node_at (fs w) (TrackedFile.file_path tf) = Some (File data m))
    as Hsrc0.
  { rewrite node_at_lookup in Hsrc |- * by done.
    by apply (only_new_dirs_files _ _ _ _ _ Hg). }
  assert (st = {| st_size := Z.of_nat (length data); st_mtime := m |}) as ->.
  { unfold Os.stat in Hst. rewrite Hsrc0 in Hst. by injection Hst as <-. }
  assert (compute_file_hash (fs w) (TrackedFile.file_path tf)
          = Some (hexdigest data)) as Hh.
  { unfold compute_file_hash, Os.exists_, read_bytes. by rewrite Hsrc0. }
  rewrite Hh. cbn [st_size st_mtime].
  exists tf, data, m, target. cbn [fs db].
  split; [done|]. split; [done|]. split; [done|].
  split.
  { cbn. apply in_or_app. right. by left. }
  split.
  { unfold read_bytes. by rewrite node_at_insert_eq. }
  split.
  { cbn [Version.version_number]. fold canonical. intros Hnd.
    assert (is_dir disk1 canonical = false) as Hnd1.
    { unfold is_dir. rewrite node_at_lookup by apply joinpath_not_nil.
      unfold canonical. rewrite (mkdir_p_child _ _ _ _ Hm).
      fold canonical. rewrite <- node_at_lookup by apply joinpath_not_nil.
      exact Hnd. }
    unfold target. by rewrite Hnd1. }
  assert (node_at (<[target := File data m]> disk1) (TrackedFile.file_path tf)
          = Some (File data m)) as Hkept.
  { rewrite node_at_insert_ne by done. exact Hsrc. }
  split; [done|].
  assert (DatabaseManager.get_file
            (DatabaseManager.update_file_metadata file_id
               (Z.of_nat (length data)) m OK (Some (hexdigest data))
               (DatabaseManager.with_versions (db w)
                  (DatabaseManager.versions (db w)
                   ++ [Version.mk version_uuid file_id
                         (DatabaseManager.get_next_version_number (db w)
                            file_id) msg (Z.of_nat (length data)) m now
                         (Some (hexdigest data)) false None]))) file_id
          = Some (DatabaseManager.set_metadata_fields
                    (Z.of_nat (length data)) m OK (Some (hexdigest data)) tf))
    as Hrow.
  { rewrite get_file_update_file_metadata.
    unfold DatabaseManager.get_file in Hf |- *.
    cbn [DatabaseManager.files DatabaseManager.with_versions].
    by rewrite Hf. }
  split; [exact Hrow|].
  intros tf' Htf'. rewrite Hrow in Htf'. injection Htf' as <-.
  unfold check_file_status, get_file_state, Os.stat. cbn. rewrite Hkept. cbn.
  by rewrite !Z.eqb_refl.
Qed.

End WithHash.

Lemma create_new_version_snapshots_live_file_witness :
  exists tf data mtime artifact,
    DatabaseManager.get_file (db (Demo.edited None)) "f1" = Some tf
    /\ node_at (fs (Demo.edited None)) (TrackedFile.file_path tf)
       = Some (File data mtime)
    /\ read_bytes
         (fs (create_new_version (H := Demo.demo_hash) Demo.service "v2"
                "2024-01-03T00:00:00" "f1" "second" (Demo.edited None)).1)
         artifact = Ok data.
Proof.
  destruct (create_new_version_snapshots_live_file
              (H := Demo.demo_hash) Demo.service "v2" "2024-01-03T00:00:00"
              "f1" "second" (Demo.edited None)
              (create_new_version (H := Demo.demo_hash) Demo.service "v2"
                 "2024-01-03T00:00:00" "f1" "second" (Demo.edited None)).1
              (Version.mk "v2" "f1" 2 "second" 6 2000 "2024-01-03T00:00:00"
                 (Some (Demo.demo_hexdigest Demo.edited_bytes)) false None))
    as (tf & data & mtime & artifact & Hf & Hnode & _ & _ & Hread & _).
  - vm_compute. reflexivity.
  - exists tf, data, mtime, artifact. auto.
Defined.

End CommitFacts.
Module PartialFailureFacts.
Import Py Pathlib Os Models Verification FileService ListFacts OsFacts.
Import RestoreFacts VerificationFacts VerifyFileFacts CommitFacts.

Lemma find_none_existsb {A} (f : A -> bool) (l : list A) :
  List.find f l = None -> existsb f l = false.
Proof.
  intros Hf. destruct (existsb f l) eqn:E; [|done].
  apply find_some_existsb in E. done.
Qed.

Lemma find_app_fresh {A} (f : A -> bool) (l : list A) (a : A) :
  List.find f l = None -> f a = true -> List.find f (l ++ [a]) = Some a.
Proof.
  induction l as [|b l IH]; cbn; intros Hf Ha.
  - by rewrite Ha.
  - destruct (f b); [discriminate|]. by apply IH.
Qed.

(** [copy2] does not copy a directory. *)
Lemma copy2_directory src dst disk st :
  node_at disk src = Some (Dir st) -> exists e, copy2 src dst disk = Raise e.
Proof.
  intros Hs. unfold copy2. rewrite Hs.
  destruct (_ && _); by eexists.
Qed.

(** The backup of a directory fails, whatever the version directory. *)
Lemma _backup_file_directory self p file_id n w st :
  node_at (fs w) p = Some (Dir st) ->
  exists w' e,
    _backup_file self p file_id n w = (w', Raise e)
    /\ db w' = db w
    /\ only_new_dirs (fs w) (fs w').
Proof.
  intros Hp. unfold _backup_file, _get_version_path, bind, fs_do, ret.
  destruct (mkdir_p (_get_version_dir self file_id) (fs w)) as [disk1|e]
    eqn:Hm.
  - cbn [fs db]. apply mkdir_p_ok in Hm as [Hg _].
    assert (node_at disk1 p = Some (Dir st)) as Hp1.
    { destruct p as [|c p]; [done|]. cbn in Hp |- *.
      by apply (only_new_dirs_keeps _ _ _ _ Hg). }
    destruct (copy2_directory p
                (joinpath (_get_version_dir self file_id)
                   (version_file_name n (name p))) disk1 st Hp1) as [e He].
    rewrite He. exists {| fs := disk1; db := db w |}, e. by repeat split.
  - exists w, e. split; [done|]. split; [done|]. apply only_new_dirs_refl.
Qed.

Section WithHash.
Context `{HashAlgorithm}.

(** X18. Registering a directory fails half way. [register_file] on a
    path that is a directory passes the existence check, inserts the row
    of the file and the row of version 1, and only then raises, when the
    backup copy refuses the directory. The rows stay: the directory is
    listed as a tracked file with a version that has no backup, and a
    second attempt to register the path raises [ValueError]. *)
Theorem register_directory_leaves_rows
  self file_uuid version_uuid t1 t2 p msg display_name w st :
  node_at (fs w) p = Some (Dir st) ->
  DatabaseManager.get_file_by_path (db w) p = None ->
  DatabaseManager.get_file (db w) file_uuid = None ->
  existsb (fun v => String.eqb (Version.id v) version_uuid)
    (DatabaseManager.versions (db w)) = false ->
  exists w' e row v,
    register_file self file_uuid version_uuid t1 t2 p msg display_name w
    = (w', Raise e)
    /\ DatabaseManager.get_file_by_path (db w') p = Some row
    /\ TrackedFile.id row = file_uuid
    /\ TrackedFile.file_hash row = None
    /\ In v (DatabaseManager.versions (db w'))
    /\ Version.file_id v = file_uuid
    /\ (forall file_uuid' version_uuid' t1' t2' msg' display_name',
          exists text,
            register_file self file_uuid' version_uuid' t1' t2' p msg'
              display_name' w'
            = (w', Raise (ValueError text))).
Proof.
  intros Hp Hpath Hid Hvid.
  assert (Os.exists_ (fs w) p = true) as Hex
    by (unfold Os.exists_; by rewrite Hp).
  assert (get_file_state (fs w) p true
          = {| exists_ := true; Verification.file_size := st_size st;
               Verification.modified_time := st_mtime st;
               Verification.file_hash := None |}) as Hstate.
  { unfold get_file_state, Os.stat, compute_file_hash, read_bytes.
    by rewrite Hp, Hex. }
  set (row := TrackedFile.mk file_uuid (default (name p) display_name) p
                (st_size st) (st_mtime st) OK t1 None false false None).
  set (v := Version.mk version_uuid file_uuid
              (DatabaseManager.get_next_version_number
                 (DatabaseManager.mkDb (DatabaseManager.files (db w) ++ [row])
                    (DatabaseManager.versions (db w))
                    (DatabaseManager.events (db w))
                    (DatabaseManager.metadata (db w))
                    (DatabaseManager.tag_links (db w))) file_uuid)
              msg (st_size st) (st_mtime st) t2 None false None).
  set (d2 := DatabaseManager.mkDb (DatabaseManager.files (db w) ++ [row])
               (DatabaseManager.versions (db w) ++ [v])
               (DatabaseManager.events (db w))
               (DatabaseManager.metadata (db w))
               (DatabaseManager.tag_links (db w))).
  destruct (_backup_file_directory self p file_uuid (Version.version_number v)
              {| fs := fs w; db := d2 |} st Hp) as (w' & e & Hb & Hdb & Hg).
  cbn [fs db] in Hdb, Hg.
  assert (register_file self file_uuid version_uuid t1 t2 p msg display_name w
          = (w', Raise e)) as Hreg.
  { unfold register_file. unfold bind at 1. unfold gets at 1. rewrite Hex.
    cbn [negb]. unfold bind at 1. unfold gets at 1. rewrite Hpath.
    unfold bind at 1. unfold gets at 1. rewrite Hstate.
    cbn [Verification.file_size Verification.modified_time
         Verification.file_hash].
    unfold bind at 1. unfold db_try at 1.
    unfold DatabaseManager.create_file.
    unfold DatabaseManager.get_file, DatabaseManager.fetchone_where in Hid.
    unfold DatabaseManager.get_file_by_path, DatabaseManager.fetchone_where
      in Hpath.
    rewrite (find_none_existsb _ _ Hid), (find_none_existsb _ _ Hpath).
    cbn [TrackedFile.id fs db].
    unfold bind at 1. unfold db_try at 1. cbn [fs db].
    unfold DatabaseManager.create_version.
    cbn [DatabaseManager.versions DatabaseManager.foreign_keys
         DatabaseManager._get_connection andb].
    rewrite Hvid. fold row. cbn [DatabaseManager.with_versions
                                 DatabaseManager.versions
                                 DatabaseManager.files
                                 DatabaseManager.events
                                 DatabaseManager.metadata
                                 DatabaseManager.tag_links].
    fold v. unfold bind at 1. unfold DatabaseManager.with_versions.
    cbn [DatabaseManager.versions DatabaseManager.files
         DatabaseManager.events DatabaseManager.metadata
         DatabaseManager.tag_links].
    fold d2. by rewrite Hb. }
  assert (DatabaseManager.get_file_by_path (db w') p = Some row) as Hrow.
  { rewrite Hdb. unfold DatabaseManager.get_file_by_path,
      DatabaseManager.fetchone_where in Hpath |- *. cbn [DatabaseManager.files d2].
    apply find_app_fresh; [done|]. cbn. by apply bool_decide_eq_true_2. }
  exists w', e, row, v. split; [done|]. split; [done|].
  split; [done|]. split; [done|]. split.
  { rewrite Hdb. cbn. apply in_or_app. right. by left. }
  split; [done|].
  intros file_uuid' version_uuid' t1' t2' msg' display_name'.
  eexists. unfold register_file. unfold bind at 1. unfold gets at 1.
  assert (Os.exists_ (fs w') p = true) as ->.
  { unfold Os.exists_. destruct p as [|c p]; [done|]. cbn in Hp |- *.
    by rewrite (only_new_dirs_keeps _ _ _ _ Hg Hp). }
  cbn [negb]. unfold bind at 1. unfold gets at 1. rewrite Hrow.
  reflexivity.
Qed.

End WithHash.

Lemma register_directory_leaves_rows_witness :
  exists e row,
    (register_file (H := Demo.demo_hash) Demo.service "f2" "v2"
       "2024-01-02T00:00:00" "2024-01-02T00:00:01" ["docs"] "folder" None
       Demo.fresh_world).2 = Raise e
    /\ DatabaseManager.get_file_by_path
         (db (register_file (H := Demo.demo_hash) Demo.service "f2" "v2"
                "2024-01-02T00:00:00" "2024-01-02T00:00:01" ["docs"] "folder"
                None Demo.fresh_world).1) ["docs"] = Some row.
Proof.
  destruct (register_directory_leaves_rows (H := Demo.demo_hash)
              Demo.service "f2" "v2" "2024-01-02T00:00:00"
              "2024-01-02T00:00:01" ["docs"] "folder" None Demo.fresh_world
              fresh_dir_stat)
    as (w' & e & row & v & Hreg & Hrow & _).
  - vm_compute. reflexivity.
  - reflexivity.
  - reflexivity.
  - reflexivity.
  - exists e, row. rewrite Hreg. auto.
Defined.

End PartialFailureFacts.
Module IntegrityFacts.
Import Py Pathlib Os Models Verification FileService ListFacts OsFacts.
Import RestoreFacts VerificationFacts VerifyFileFacts CommitFacts.

Section WithHash.
Context `{HashAlgorithm}.

(** The version row a successful [register_file] has inserted. *)
Lemma register_file_rows self fid vid t1 t2 p msg dn w w1 tf v :
  register_file self fid vid t1 t2 p msg dn w = (w1, Ok (tf, v)) ->
  DatabaseManager.versions (db w1) = DatabaseManager.versions (db w) ++ [v]
  /\ Version.file_id v = fid
  /\ Version.file_hash v
     = Verification.file_hash (get_file_state (fs w) p true).
Proof.
  unfold register_file, bind, gets, ret, raise.
  destruct (Os.exists_ (fs w) p); [|discriminate]. cbn [negb].
  destruct (DatabaseManager.get_file_by_path (db w) p); [discriminate|].
  unfold db_try at 1. cbn [db fs].
  destruct (DatabaseManager.create_file _ _ _ _ _ _ _ (db w))
    as [[d1 tf1]|e] eqn:Hcf; [|discriminate].
  apply get_file_create_file in Hcf as (-> & Hvs & Hget).
  unfold db_try. cbn [db fs TrackedFile.id].
  destruct (DatabaseManager.create_version _ _ _ _ _ _ _ d1)
    as [[d2 v1]|e] eqn:Hcv; [|discriminate].
  apply VersionNumbering.create_version_inv in Hcv as [Hv ->].
  unfold _backup_file, _get_version_path, bind, ret, fs_do. cbn [db fs].
  destruct (mkdir_p (_get_version_dir self fid) (fs w)) as [disk1|e] eqn:Hm;
    [|discriminate].
  cbn [db fs].
  destruct (copy2 _ _ disk1) as [disk2|e] eqn:Hc; [|discriminate].
  intros [= <- <- <-]. cbn [db fs DatabaseManager.versions
                            DatabaseManager.with_versions].
  rewrite Hvs. split; [done|]. by rewrite Hv.
Qed.

(** X19. The version a registration has just made passes the integrity
    check: [verify_version_integrity] for version 1 of a file registered
    under its own name is valid, without an error text. If the backup
    artifact is then overwritten with content of another digest, the
    check is no longer valid and says "Hash mismatch". *)
Theorem registered_version_verifies
  self fid vid t1 t2 p msg w w1 tf v :
  register_file self fid vid t1 t2 p msg None w = (w1, Ok (tf, v)) ->
  DatabaseManager.version_numbers (db w) fid = [] ->
  Os.exists_ (fs w)
    (joinpath (_get_version_dir self fid) (version_file_name 1 (name p)))
  = false ->
  let backup :=
    joinpath (_get_version_dir self fid) (version_file_name 1 (name p)) in
  exists original,
    read_bytes (fs w) p = Ok original
    /\ (exists r,
          verify_version_integrity self fid 1 w1 = (w1, Ok r)
          /\ is_valid r = true /\ error r = None
          /\ actual_hash r = Some (hexdigest original))
    /\ (forall data' now' disk2,
          write_bytes backup data' now' (fs w1) = Ok disk2 ->
          hexdigest data' <> hexdigest original ->
          exists r,
            verify_version_integrity self fid 1 {| fs := disk2; db := db w1 |}
            = ({| fs := disk2; db := db w1 |}, Ok r)
            /\ is_valid r = false /\ error r = Some "Hash mismatch").
Proof.
  intros Hreg Hnew Hfree backup.
  pose proof (register_file_rows _ _ _ _ _ _ _ _ _ _ _ _ Hreg)
    as (Hvs & Hvf & Hvh).
  apply register_file_ok in Hreg as (disk1 & Hm & Hc & Hdn & Hp & Hn & Hget).
  assert (Version.version_number v = 1) as Hv1.
  { rewrite Hn, VersionNumbering.get_next_version_number_spec.
    apply VersionNumbering.max_version_number_None in Hnew. by rewrite Hnew. }
  rewrite Hv1 in Hc. cbn [default] in Hdn.
  set (vdir := _get_version_dir self fid) in *. fold backup in Hc, Hfree.
  assert (backup <> []) as Hbp by apply joinpath_not_nil.
  assert (node_at disk1 backup = None) as Habs.
  { rewrite node_at_lookup by done. unfold backup.
    rewrite (mkdir_p_child _ _ _ _ Hm). fold backup.
    rewrite <- node_at_lookup by done.
    unfold Os.exists_ in Hfree. by destruct (node_at (fs w) backup). }
  destruct (copy2_to_absent _ _ _ _ Habs Hc) as (data & m & Hsrc & Hw1 & Hne).
  assert (p <> []) as Hpne by (intros ->; discriminate Hsrc).
  assert (node_at (fs w) p = Some (File data m)) as Hsrc0.
  { rewrite node_at_lookup in Hsrc |- * by done.
    apply mkdir_p_ok in Hm as [Hg _].
    by apply (only_new_dirs_files _ _ _ _ _ Hg). }
  assert (Version.file_hash v = Some (hexdigest data)) as Hhash.
  { rewrite Hvh. unfold get_file_state, Os.stat, compute_file_hash,
      Os.exists_, read_bytes. by rewrite Hsrc0. }
  assert (List.find (fun x => Version.version_number x =? 1)
            (DatabaseManager.get_versions (db w1) fid) = Some v) as Hfind.
  { unfold DatabaseManager.get_versions. rewrite Hvs.
    rewrite List.filter_app.
    assert (List.filter (fun x => String.eqb (Version.file_id x) fid)
              (DatabaseManager.versions (db w)) = []) as ->.
    { unfold DatabaseManager.version_numbers in Hnew.
      by apply map_eq_nil in Hnew. }
    cbn. rewrite Hvf, String.eqb_refl. cbn. by rewrite Hv1. }
  (* the lookup of the artifact on a disk that has the version directory *)
  assert (forall disk,
            (forall q, q <> backup -> node_at disk q = node_at (fs w1) q) ->
            is_file disk backup = true ->
            get_version_backup_path self fid 1 {| fs := disk; db := db w1 |}
            = ({| fs := disk; db := db w1 |}, Ok (Some backup))) as Hlook.
  { intros disk Hsame Hfile.
    unfold get_version_backup_path, bind, gets, ret. cbn [db fs].
    rewrite Hget. unfold _get_version_path, bind, ret, fs_do. cbn [db fs].
    fold vdir.
    assert (mkdir_p vdir disk = Ok disk) as ->.
    { unfold mkdir_p. apply fold_mkdir_existing. intros q Hq.
      unfold mkdir_p in Hm. apply fold_mkdir_grows in Hm as [_ Hd].
      specialize (Hd q Hq). unfold is_dir in Hd |- *.
      rewrite Hsame.
      - rewrite Hw1, node_at_insert_ne; [done|].
        intros <-. by rewrite Habs in Hd.
      - intros ->. by rewrite Habs in Hd. }
    cbn [db fs]. rewrite Hdn. fold backup.
    unfold Os.exists_. unfold is_file in Hfile.
    by destruct (node_at disk backup) as [[?|?]|]. }
  exists data. split.
  { unfold read_bytes. by rewrite Hsrc0. }
  split.
  - eexists. unfold verify_version_integrity, bind, get_version, gets, ret.
    rewrite Hfind, Hhash, truthy_hexdigest. cbn [negb].
    assert (w1 = {| fs := fs w1; db := db w1 |}) as Hw by (by destruct w1).
    rewrite Hw at 1. rewrite Hlook.
    + cbn [fs db default from_option id].
      split; [by rewrite <- Hw|].
      unfold verify_file_hash, compute_file_hash, Os.exists_, read_bytes.
      rewrite Hw1, node_at_insert_eq by done. cbn.
      by rewrite String.eqb_refl.
    + done.
    + unfold is_file. by rewrite Hw1, node_at_insert_eq.
  - intros data' now' disk2 Hwr Hdiff.
    apply write_bytes_ok in Hwr as (-> & _ & _).
    eexists. unfold verify_version_integrity, bind, get_version, gets, ret.
    cbn [db fs].
    rewrite Hfind, Hhash, truthy_hexdigest. cbn [negb].
    rewrite Hlook.
    + cbn [fs db default from_option id]. split; [done|].
      unfold verify_file_hash, compute_file_hash, Os.exists_, read_bytes.
      rewrite node_at_insert_eq by done. cbn.
      by rewrite (proj2 (String.eqb_neq _ _) Hdiff).
    + intros q Hq. by apply node_at_insert_ne.
    + unfold is_file. by rewrite node_at_insert_eq.
Qed.

End WithHash.

Lemma registered_version_verifies_witness :
  exists r,
    verify_version_integrity (H := Demo.demo_hash) Demo.service "f1" 1
      (Demo.registered None) = (Demo.registered None, Ok r)
    /\ is_valid r = true.
Proof.
  destruct (registered_version_verifies (H := Demo.demo_hash)
              Demo.service "f1" "v1" "2024-01-01T00:00:00"
              "2024-01-01T00:00:01" Demo.report_path "init" Demo.fresh_world
              (Demo.registered None) (Demo.registered_row "report.pdf")
              (Version.mk "v1" "f1" 1 "init" 16 1000 "2024-01-01T00:00:01"
                 (Some (Demo.demo_hexdigest Demo.original_bytes)) false None))
    as (original & _ & (r & Hv & Hval & _) & _).
  - vm_compute. reflexivity.
  - reflexivity.
  - vm_compute. reflexivity.
  - exists r. split; [exact Hv|exact Hval].
Defined.

End IntegrityFacts.

Module TagFacts.
Import Py Pathlib Models ListFacts SortFacts ArchiveFacts ProjectFacts
  EventFacts PartialFailureFacts.
Import Tags.

Lemma insert_tag_by_name_perm t l : insert_tag_by_name t l ≡ₚ t :: l.
Proof. insert_perm l. Qed.

Lemma sort_tags_perm l : fold_right insert_tag_by_name [] l ≡ₚ l.
Proof.
  induction l as [|a l IH]; cbn; [done|].
  by rewrite insert_tag_by_name_perm, IH.
Qed.

(** A tag is among the tags of a file exactly when a link of the file
    names it. *)
Lemma In_get_file_tags s file_id t :
  In t (get_file_tags s file_id)
  <-> In t (tags s)
      /\ exists l, In l (tag_links s)
                   /\ DatabaseManager.opt_is file_id (TagLink.file_id l) = true
                   /\ TagLink.tag_id l = Tag.id t.
Proof.
  unfold get_file_tags.
  rewrite <- list_elem_of_In, sort_tags_perm, list_elem_of_In, in_flat_map.
  split.
  - intros (l & Hl & Ht). apply filter_In in Hl as [Hl Hf].
    apply filter_In in Ht as [Ht Hid]. apply String.eqb_eq in Hid.
    split; [done|]. exists l. auto.
  - intros (Ht & l & Hl & Hf & Hid). exists l. split.
    + apply filter_In. auto.
    + apply filter_In. split; [done|]. by apply String.eqb_eq.
Qed.

Lemma get_or_create_tag_inv new_id now tag_name s s1 tag :
  get_or_create_tag new_id now tag_name s = Ok (s1, tag) ->
  Tag.name tag = Tag.normalize tag_name
  /\ db s1 = db s
  /\ DatabaseManager.fetchone_where
       (fun t => String.eqb (Tag.name t) (Tag.normalize tag_name)) (tags s1)
     = Some tag
  /\ (tags s1 = tags s
      \/ (tags s1 = tags s ++ [tag]
          /\ Tag.id tag = new_id
          /\ DatabaseManager.fetchone_where
               (fun t => String.eqb (Tag.name t) (Tag.normalize tag_name))
               (tags s) = None)).
Proof.
  unfold get_or_create_tag. cbv zeta.
  destruct (DatabaseManager.fetchone_where _ (tags s)) as [row|] eqn:Hf.
  - intros [= <- <-]. pose proof Hf as Hf'.
    apply find_some in Hf' as [_ Hn]. apply String.eqb_eq in Hn. auto.
  - destruct (existsb _ (tags s)); [discriminate|].
    intros [= <- <-]. cbn. split; [done|]. split; [done|]. split.
    + apply find_app_fresh; [done|]. cbn. apply String.eqb_refl.
    + right. auto.
Qed.

(** X20. Tagging is idempotent up to spelling. [add_tag_to_file] returns
    a tag whose name is the normalized name, and the tag is among the
    tags of the file afterwards. Tagging the same file again with any
    name that normalizes to the same text returns the same tag and
    changes nothing: no second tag row, no second link. *)
Theorem add_tag_to_file_twice
  tag_uuid tag_now link_uuid link_now file_id tag_name s s1 tag :
  FileService.add_tag_to_file tag_uuid tag_now link_uuid link_now
    file_id tag_name s = (s1, Ok tag) ->
  Tag.name tag = Tag.normalize tag_name
  /\ In tag (get_file_tags s1 file_id)
  /\ forall tag_uuid' tag_now' link_uuid' link_now' tag_name',
       Tag.normalize tag_name' = Tag.normalize tag_name ->
       FileService.add_tag_to_file tag_uuid' tag_now' link_uuid' link_now'
         file_id tag_name' s1 = (s1, Ok tag).
Proof.
  unfold FileService.add_tag_to_file, bind, FileService.tags_try, ret.
  destruct (get_or_create_tag tag_uuid tag_now tag_name s) as [[sa t]|e]
    eqn:Hg; [|discriminate].
  destruct (add_tag_to_file link_uuid link_now (Tag.id t) file_id sa)
    as [sb|e] eqn:Ha; [|discriminate].
  intros [= <- <-].
  pose proof (get_or_create_tag_inv _ _ _ _ _ _ Hg) as (Hname & _ & Hfind & _).
  assert (tags sb = tags sa
          /\ exists l, DatabaseManager.fetchone_where
                         (links (Tag.id t) file_id) (tag_links sb) = Some l)
    as [Htags [l Hl]].
  { unfold add_tag_to_file in Ha.
    destruct (DatabaseManager.fetchone_where _ (tag_links sa)) as [l|] eqn:Hl.
    - injection Ha as <-. eauto.
    - destruct (existsb _ (tag_links sa)); [discriminate|].
      injection Ha as <-. split; [done|]. eexists.
      unfold tag_links, with_tag_links. cbn.
      apply find_app_fresh; [exact Hl|]. unfold links. cbn.
      by rewrite !String.eqb_refl. }
  split; [done|]. split.
  - apply In_get_file_tags. rewrite Htags. split.
    + by apply find_some in Hfind as [? _].
    + apply find_some in Hl as [Hin Hm]. unfold links in Hm.
      apply andb_true_iff in Hm as [Ht Hf]. apply String.eqb_eq in Ht.
      exists l. auto.
  - intros tag_uuid' tag_now' link_uuid' link_now' tag_name' Hsame.
    unfold get_or_create_tag. rewrite Hsame, Htags, Hfind.
    unfold add_tag_to_file. by rewrite Hl.
Qed.

Lemma add_tag_to_file_twice_witness :
  let s := {| db := DatabaseManager.empty_db; tags := [] |} in
  let tag := Tag.mk "t1" "work" "2024-01-01T00:00:00" in
  let s1 :=
    with_tag_links (with_tags s [tag])
      [TagLink.mk "l1" "t1" (Some "f1") None "2024-01-01T00:00:01"] in
  FileService.add_tag_to_file "t2" "2024-01-02T00:00:00" "l2"
    "2024-01-02T00:00:01" "f1" "  work" s1 = (s1, Ok tag).
Proof.
  cbn zeta.
  apply (add_tag_to_file_twice "t1" "2024-01-01T00:00:00" "l1"
           "2024-01-01T00:00:01" "f1" "#Work"
           {| db := DatabaseManager.empty_db; tags := [] |}).
  - vm_compute. reflexivity.
  - vm_compute. reflexivity.
Defined.

End TagFacts.
Module TagCleanupFacts.
Import Py Pathlib Models ListFacts SortFacts ArchiveFacts ProjectFacts
  EventFacts PartialFailureFacts TagFacts.
Import Tags.

Lemma opt_is_eq s o : DatabaseManager.opt_is s o = true <-> o = Some s.
Proof.
  unfold DatabaseManager.opt_is. destruct o as [x|]; [|done].
  rewrite String.eqb_eq. split; [by intros ->|by intros [= ->]].
Qed.

(** X21. [remove_tag_from_file] takes the tag off the file and then
    deletes every tag that no link names any more: a tag survives
    exactly when a link other than the removed one names it. So the tag
    itself is deleted when this was its last use, and tags that were
    already unused disappear with it. The tags of other files are as
    before. *)
Theorem remove_tag_from_file_cleans_up file_id tag_id s :
  let '(s', r) := FileService.remove_tag_from_file file_id tag_id s in
  r = Ok tt
  /\ (forall t, In t (get_file_tags s' file_id) -> Tag.id t <> tag_id)
  /\ (forall t,
        In t (tags s')
        <-> In t (tags s)
            /\ exists l, In l (tag_links s)
                         /\ TagLink.tag_id l = Tag.id t
                         /\ links tag_id file_id l = false)
  /\ (forall other t, other <> file_id ->
        In t (get_file_tags s' other) <-> In t (get_file_tags s other)).
Proof.
  unfold FileService.remove_tag_from_file, bind, modify, ret.
  set (s1 := remove_tag_from_file tag_id file_id s).
  assert (forall l, In l (tag_links s1)
                    <-> In l (tag_links s) /\ links tag_id file_id l = false)
    as Hlinks.
  { intros l. unfold s1, remove_tag_from_file, tag_links, with_tag_links.
    cbn. unfold DatabaseManager.delete_where. rewrite filter_In.
    by rewrite negb_true_iff. }
  assert (forall t, In t (tags (delete_unused_tags s1).1)
                    <-> In t (tags s)
                        /\ exists l, In l (tag_links s)
                                     /\ TagLink.tag_id l = Tag.id t
                                     /\ links tag_id file_id l = false)
    as Htags.
  { intros t. unfold delete_unused_tags. cbn [fst tags with_tags].
    rewrite filter_In. unfold is_linked. rewrite existsb_exists.
    split.
    - intros [Ht (l & Hl & Hid)]. apply String.eqb_eq in Hid.
      apply Hlinks in Hl as [Hl Hn]. split; [done|]. exists l. auto.
    - intros [Ht (l & Hl & Hid & Hn)]. split; [done|]. exists l. split.
      + apply Hlinks. auto.
      + by apply String.eqb_eq. }
  assert (tag_links (delete_unused_tags s1).1 = tag_links s1) as Hkeep by done.
  split; [done|]. split; [|split; [exact Htags|]].
  - intros t Hin Hid. apply In_get_file_tags in Hin as [_ (l & Hl & Hf & Ht)].
    rewrite Hkeep in Hl. apply Hlinks in Hl as [_ Hn].
    unfold links in Hn. rewrite Hf, andb_true_r in Hn.
    apply String.eqb_neq in Hn. congruence.
  - intros other t Hne. rewrite !In_get_file_tags, Htags, Hkeep.
    split.
    + intros [[Ht _] (l & Hl & Hf & Hid)]. split; [done|]. exists l.
      apply Hlinks in Hl as [Hl _]. auto.
    + intros [Ht (l & Hl & Hf & Hid)].
      assert (links tag_id file_id l = false) as Hn.
      { unfold links. apply andb_false_iff. right.
        apply opt_is_eq in Hf. rewrite Hf. cbn. apply String.eqb_neq.
        congruence. }
      split; [split; [done|]|]; exists l.
      * auto.
      * split; [apply Hlinks; auto|auto].
Qed.

(** X22. Tagging a file with a new tag and removing the tag again gives
    the tag store back: both rows the tagging made are gone and nothing
    else has changed, provided every tag was in use before (the clean-up
    would take unused ones along) and no link already names the fresh
    tag id. *)
Theorem add_then_remove_tag_round_trip
  tag_uuid tag_now link_uuid link_now file_id tag_name s s1 tag :
  FileService.add_tag_to_file tag_uuid tag_now link_uuid link_now
    file_id tag_name s = (s1, Ok tag) ->
  DatabaseManager.fetchone_where
    (fun t => String.eqb (Tag.name t) (Tag.normalize tag_name)) (tags s)
  = None ->
  (forall l, In l (tag_links s) -> TagLink.tag_id l <> tag_uuid) ->
  (forall t, In t (tags s) -> is_linked s t = true) ->
  FileService.remove_tag_from_file file_id (Tag.id tag) s1 = (s, Ok tt).
Proof.
  unfold FileService.add_tag_to_file, bind, FileService.tags_try, ret.
  intros Hadd Hnew Hfresh Hused.
  unfold get_or_create_tag in Hadd. cbv zeta in Hadd. rewrite Hnew in Hadd.
  destruct (existsb _ (tags s)) eqn:Hid; [discriminate|].
  set (t := Tag.mk tag_uuid (Tag.normalize tag_name) tag_now) in *.
  unfold add_tag_to_file in Hadd.
  assert (DatabaseManager.fetchone_where (links (Tag.id t) file_id)
            (tag_links (with_tags s (tags s ++ [t]))) = None) as Hnolink.
  { apply find_none_intro. intros l Hl. unfold links.
    apply andb_false_iff. left. apply String.eqb_neq. by apply Hfresh. }
  rewrite Hnolink in Hadd.
  destruct (existsb _ (tag_links (with_tags s (tags s ++ [t]))));
    [discriminate|].
  injection Hadd as <- <-.
  unfold FileService.remove_tag_from_file, bind, modify, ret.
  f_equal. unfold delete_unused_tags, remove_tag_from_file. cbn [fst].
  unfold with_tags, with_tag_links, tag_links, is_linked. cbn.
  assert (List.filter (fun r => negb (links tag_uuid file_id r))
            (DatabaseManager.tag_links (db s)
             ++ [TagLink.mk link_uuid tag_uuid (Some file_id) None link_now])
          = DatabaseManager.tag_links (db s)) as ->.
  { rewrite List.filter_app. cbn.
    unfold links at 2. cbn. rewrite !String.eqb_refl. cbn.
    rewrite app_nil_r. apply forallb_filter_id. apply forallb_forall.
    intros l Hl. apply negb_true_iff. unfold links. apply andb_false_iff.
    left. apply String.eqb_neq. by apply Hfresh. }
  assert (List.filter
            (fun t0 =>
               existsb (fun l => String.eqb (TagLink.tag_id l) (Tag.id t0))
                 (DatabaseManager.tag_links (db s)))
            (tags s ++ [t]) = tags s) as ->.
  { rewrite List.filter_app. cbn.
    assert (existsb (fun l => String.eqb (TagLink.tag_id l) tag_uuid)
              (DatabaseManager.tag_links (db s)) = false) as ->.
    { apply not_true_is_false. intros E. apply existsb_exists in E
        as (l & Hl & E). apply String.eqb_eq in E. by apply (Hfresh l). }
    rewrite app_nil_r. apply forallb_filter_id. apply forallb_forall.
    intros t0 Ht0. apply (Hused t0 Ht0). }
  destruct s as [d tl]. cbn. by destruct d.
Qed.

Lemma add_then_remove_tag_round_trip_witness :
  let s := {| db := DatabaseManager.empty_db; tags := [] |} in
  let tag := Tag.mk "t1" "work" "2024-01-01T00:00:00" in
  let s1 :=
    with_tag_links (with_tags s [tag])
      [TagLink.mk "l1" "t1" (Some "f1") None "2024-01-01T00:00:01"] in
  FileService.add_tag_to_file "t1" "2024-01-01T00:00:00" "l1"
    "2024-01-01T00:00:01" "f1" " #Work " s = (s1, Ok tag)
  /\ FileService.remove_tag_from_file "f1" (Tag.id tag) s1 = (s, Ok tt).
Proof.
  cbn zeta. split; [vm_compute; reflexivity|].
  apply (add_then_remove_tag_round_trip "t1" "2024-01-01T00:00:00" "l1"
           "2024-01-01T00:00:01" "f1" " #Work ").
  - vm_compute. reflexivity.
  - reflexivity.
  - intros l [].
  - intros t [].
Defined.

End TagCleanupFacts.
Module NormalizeFacts.
Import Py Pathlib Models.
Import Tags.

Lemma lower_ascii_idem c : lower_ascii (lower_ascii c) = lower_ascii c.
Proof.
  unfold lower_ascii.
  destruct ((65 <=? nat_of_ascii c)%nat && (nat_of_ascii c <=? 90)%nat) eqn:E.
  - apply andb_true_iff in E as [E1 E2].
    apply Nat.leb_le in E1, E2.
    rewrite nat_ascii_embedding by lia.
    assert ((nat_of_ascii c + 32 <=? 90)%nat = false) as ->
      by (apply Nat.leb_gt; lia).
    by rewrite andb_false_r.
  - by rewrite E.
Qed.

Lemma lower_idem s : lower (lower s) = lower s.
Proof. induction s as [|c s IH]; cbn; [done|]. by rewrite lower_ascii_idem, IH. Qed.

Lemma is_space_lower c : Tag.is_space (lower_ascii c) = Tag.is_space c.
Proof.
  unfold lower_ascii.
  destruct ((65 <=? nat_of_ascii c)%nat && (nat_of_ascii c <=? 90)%nat) eqn:E;
    [|done].
  apply andb_true_iff in E as [E1 E2]. apply Nat.leb_le in E1, E2.
  unfold Tag.is_space. rewrite nat_ascii_embedding by lia. cbv zeta.
  assert ((nat_of_ascii c + 32 <=? 13)%nat = false) as ->
    by (apply Nat.leb_gt; lia).
  assert ((nat_of_ascii c + 32 <=? 32)%nat = false) as ->
    by (apply Nat.leb_gt; lia).
  assert ((nat_of_ascii c <=? 13)%nat = false) as ->
    by (apply Nat.leb_gt; lia).
  assert ((nat_of_ascii c <=? 32)%nat = false) as ->
    by (apply Nat.leb_gt; lia).
  by rewrite !andb_false_r.
Qed.

Lemma rstrip_cons c s :
  Tag.rstrip (String c s)
  = match Tag.rstrip s with
    | EmptyString => if Tag.is_space c then EmptyString else String c EmptyString
    | r => String c r
    end.
Proof. done. Qed.

Lemma rstrip_idem s : Tag.rstrip (Tag.rstrip s) = Tag.rstrip s.
Proof.
  induction s as [|c s IH]; [done|].
  rewrite rstrip_cons.
  destruct (Tag.rstrip s) as [|d r] eqn:E.
  - destruct (Tag.is_space c) eqn:Hc; [done|].
    rewrite rstrip_cons. cbn. by rewrite Hc.
  - rewrite rstrip_cons, IH. done.
Qed.

Lemma rstrip_lower s : Tag.rstrip (lower s) = lower (Tag.rstrip s).
Proof.
  induction s as [|c s IH]; [done|].
  cbn [lower]. rewrite !rstrip_cons, IH.
  destruct (Tag.rstrip s) as [|d r]; cbn [lower].
  - rewrite is_space_lower. by destruct (Tag.is_space c).
  - done.
Qed.

Lemma rstrip_tail c s :
  Tag.rstrip (String c s) = String c s -> Tag.rstrip s = s.
Proof.
  rewrite rstrip_cons. destruct (Tag.rstrip s) as [|d r] eqn:E.
  - destruct (Tag.is_space c); [discriminate|]. by intros [= <-].
  - by intros [= <-].
Qed.

Lemma lstrip_keeps_clean_head c s :
  Tag.is_space c = false -> Tag.lstrip (String c s) = String c s.
Proof. intros Hc. cbn. by rewrite Hc. Qed.

Lemma rstrip_head c s :
  Tag.is_space c = false ->
  Tag.rstrip (String c s) = String c (Tag.rstrip s).
Proof.
  intros Hc. rewrite rstrip_cons. destruct (Tag.rstrip s); [by rewrite Hc|done].
Qed.

Lemma lstrip_rstrip_lstrip s :
  Tag.lstrip (Tag.rstrip (Tag.lstrip s)) = Tag.rstrip (Tag.lstrip s).
Proof.
  induction s as [|c s IH]; cbn; [done|].
  destruct (Tag.is_space c) eqn:Hc; [done|].
  change (Tag.lstrip (Tag.rstrip (String c s)) = Tag.rstrip (String c s)).
  rewrite rstrip_head by done. by apply lstrip_keeps_clean_head.
Qed.

Lemma strip_idem s : Tag.strip (Tag.strip s) = Tag.strip s.
Proof.
  unfold Tag.strip. by rewrite lstrip_rstrip_lstrip, rstrip_idem.
Qed.

(** X23. On ASCII text, [Tag.normalize] ignores surrounding white space,
    yields a lowercase name, and is undone by the display form: the
    [display_name] of a tag whose name came from [normalize] normalizes
    back to that name, so tagging with what the UI shows finds the same
    tag. Only one leading [#] is dropped: normalizing [##a] gives [#a],
    and normalizing that gives [a]. *)
Theorem normalize_round_trips_display_name tag_name tag_id created_at :
  Tag.normalize (Tag.strip tag_name) = Tag.normalize tag_name
  /\ lower (Tag.normalize tag_name) = Tag.normalize tag_name
  /\ Tag.normalize
       (Tag.display_name (Tag.mk tag_id (Tag.normalize tag_name) created_at))
     = Tag.normalize tag_name
  /\ Tag.normalize "##a" = "#a" /\ Tag.normalize "#a" = "a".
Proof.
  split; [|split; [|split; [|done]]].
  - unfold Tag.normalize. by rewrite strip_idem.
  - unfold Tag.normalize. cbv zeta.
    destruct (Tag.strip tag_name) as [|c r]; [done|].
    destruct (Ascii.eqb_spec c "#") as [->|Hc]; [by rewrite lower_idem|].
    assert (match c with
            | "#"%char => r
            | _ => String c r
            end = String c r) as ->.
    { destruct c as [[] [] [] [] [] [] [] []]; try done. }
    apply lower_idem.
  - set (n := Tag.normalize tag_name).
    assert (Tag.rstrip n = n) as Hn.
    { unfold n, Tag.normalize. cbv zeta.
      pose proof (rstrip_idem (Tag.lstrip tag_name)) as Hs.
      fold (Tag.strip tag_name) in Hs.
      destruct (Tag.strip tag_name) as [|c r]; [done|].
      assert (Tag.rstrip (lower (String c r)) = lower (String c r)) as Hfull
        by (by rewrite rstrip_lower, Hs).
      destruct (Ascii.eqb_spec c "#") as [->|Hc].
      - rewrite rstrip_lower. f_equal. by apply rstrip_tail in Hs.
      - assert (match c with
                | "#"%char => r
                | _ => String c r
                end = String c r) as ->; [|done].
        destruct c as [[] [] [] [] [] [] [] []]; try done. }
    unfold Tag.display_name. cbn [Tag.name].
    unfold Tag.normalize at 1. cbv zeta. unfold Tag.strip.
    change ("#" +:+ n) with (String "#" n).
    rewrite lstrip_keeps_clean_head by done.
    rewrite rstrip_head by done. rewrite Hn.
    unfold n. unfold Tag.normalize. cbv zeta.
    destruct (Tag.strip tag_name) as [|c r]; [done|].
    destruct (Ascii.eqb_spec c "#") as [->|Hc]; [apply lower_idem|].
    assert (match c with
            | "#"%char => r
            | _ => String c r
            end = String c r) as ->.
    { destruct c as [[] [] [] [] [] [] [] []]; try done. }
    apply lower_idem.
Qed.

End NormalizeFacts.
Module QueueControlFacts.
Import Py JobQueue.

Lemma set_status_status s j : status (set_status s j) = s.
Proof. done. Qed.

Lemma set_status_back j : set_status (status j) j = j.
Proof. by destruct j. Qed.

Lemma set_status_twice s s' j : set_status s (set_status s' j) = set_status s j.
Proof. done. Qed.

(** X24. [cancel_current] with jobs running: every running job that was
    RUNNING or PAUSED is CANCELED, the others keep their status, no entry
    is added or dropped, and the pause event is cleared; afterwards
    [wait_if_paused_or_canceled] returns at once for every running job,
    with [False] for the canceled ones. With no job running it does
    nothing at all: a pause event that is set stays set. *)
Theorem cancel_current_cancels q :
  let q' := cancel_current q in
  (_running_jobs q = [] -> q' = q)
  /\ (_running_jobs q <> [] ->
      _pause_event q' = false
      /\ _running_jobs q'
         = map (fun kv =>
                  (kv.1,
                   if bool_decide (status kv.2 = RUNNING \/ status kv.2 = PAUSED)
                   then set_status CANCELED kv.2 else kv.2))
             (_running_jobs q)
      /\ (forall id job, In (id, job) (_running_jobs q') ->
            status job <> RUNNING /\ status job <> PAUSED
            /\ wait_if_paused_or_canceled q' job
               = Some (negb (bool_decide (status job = CANCELED)))))
  /\ _queue q' = _queue q /\ _stop_event q' = _stop_event q.
Proof.
  cbn zeta. unfold cancel_current.
  destruct (_running_jobs q) as [|kv0 rest] eqn:Hr.
  - by repeat split.
  - remember (kv0 :: rest) as running eqn:Hrun. unfold restatus.
    cbn [_running_jobs _pause_event _queue _stop_event].
    assert (map (fun kv : string * Job =>
                   if bool_decide (status kv.2 ∈ [RUNNING; PAUSED])
                   then (kv.1, set_status CANCELED kv.2) else kv)
              running
            = map (fun kv =>
                     (kv.1,
                      if bool_decide (status kv.2 = RUNNING
                                      \/ status kv.2 = PAUSED)
                      then set_status CANCELED kv.2 else kv.2))
                running) as Hmap.
    { apply map_ext. intros [id j]. cbn.
      rewrite (bool_decide_ext (status j ∈ [RUNNING; PAUSED])
                 (status j = RUNNING \/ status j = PAUSED)).
      - by case_bool_decide.
      - rewrite !elem_of_cons, elem_of_nil. tauto. }
    split; [intros E; subst; discriminate|]. split; [|done].
    intros _. split; [done|]. split; [exact Hmap|].
    intros id job Hin. rewrite Hmap in Hin.
    apply in_map_iff in Hin as ([id0 j0] & [= <- <-] & _). cbn.
    unfold wait_if_paused_or_canceled. cbn [_pause_event].
    case_bool_decide as Hc.
    + rewrite set_status_status. by rewrite bool_decide_eq_true_2.
    + assert (status j0 <> RUNNING /\ status j0 <> PAUSED) as [H1 H2]
        by (split; intros E; apply Hc; auto).
      split; [done|]. split; [done|]. by case_bool_decide.
Qed.

End QueueControlFacts.
Module QueuePauseFacts.
Import Py JobQueue QueueControlFacts.

Lemma among_one (s a : JobStatus) : s ∈ [a] <-> s = a.
Proof. rewrite elem_of_cons, elem_of_nil. tauto. Qed.

Lemma pause_current_running q :
  _running_jobs q <> [] ->
  pause_current q
  = mkQueue (_queue q) (restatus [RUNNING] PAUSED (_running_jobs q)).1
      (_stop_event q) true (_workers q) (_max_workers q)
      (emitted q ++ (restatus [RUNNING] PAUSED (_running_jobs q)).2).
Proof. unfold pause_current. by destruct (_running_jobs q). Qed.

Lemma resume_current_running q :
  _running_jobs q <> [] ->
  resume_current q
  = mkQueue (_queue q) (restatus [PAUSED] RUNNING (_running_jobs q)).1
      (_stop_event q) false (_workers q) (_max_workers q)
      (emitted q ++ (restatus [PAUSED] RUNNING (_running_jobs q)).2).
Proof. unfold resume_current. by destruct (_running_jobs q). Qed.

Lemma restatus_nonempty from_ to running :
  running <> [] -> (restatus from_ to running).1 <> [].
Proof. by destruct running. Qed.

(** X25. Pausing and resuming: when no running job is already PAUSED,
    [pause_current] followed by [resume_current] leaves every running
    job with the status it had and the pause event clear; in between,
    the jobs that were RUNNING are PAUSED and
    [wait_if_paused_or_canceled] does not return for them. Both calls do
    nothing when no job is running: [pause_current] then leaves the pause
    event clear, and [resume_current] does not clear one that is set. *)
Theorem pause_then_resume q :
  (forall id job, In (id, job) (_running_jobs q) -> status job <> PAUSED) ->
  let paused := pause_current q in
  let resumed := resume_current paused in
  (_running_jobs q = [] -> paused = q /\ resume_current q = q)
  /\ (_running_jobs q <> [] ->
      _pause_event paused = true
      /\ _pause_event resumed = false
      /\ _running_jobs resumed = _running_jobs q
      /\ (forall id job, In (id, job) (_running_jobs paused) ->
            status job <> RUNNING
            /\ (status job <> CANCELED ->
                wait_if_paused_or_canceled paused job = None)))
  /\ _queue resumed = _queue q.
Proof.
  intros Hfresh. cbn zeta. split; [|split].
  - intros Hr. unfold pause_current, resume_current. by rewrite !Hr.
  - intros Hne. rewrite (pause_current_running q Hne).
    rewrite resume_current_running
      by (cbn [_running_jobs]; by apply restatus_nonempty).
    cbn [_running_jobs _pause_event]. unfold restatus. cbn [fst snd].
    split; [done|]. split; [done|]. split.
    + rewrite map_map.
      rewrite <- (map_id (_running_jobs q)) at 2. apply map_ext_in.
      intros [id j] Hin. cbn.
      rewrite (bool_decide_ext _ _ (among_one (status j) RUNNING)).
      destruct (bool_decide (status j = RUNNING)) eqn:Hs; cbn [fst snd].
      * apply bool_decide_eq_true_1 in Hs.
        rewrite (bool_decide_ext _ _ (among_one _ PAUSED)).
        rewrite bool_decide_eq_true_2 by done.
        cbn [fst snd]. rewrite set_status_twice, <- Hs.
        by rewrite set_status_back.
      * rewrite (bool_decide_ext _ _ (among_one (status j) PAUSED)).
        rewrite bool_decide_eq_false_2; [done|]. by apply (Hfresh id).
    + intros id job Hin.
      apply in_map_iff in Hin as ([id0 j0] & E & _). cbn in E.
      rewrite (bool_decide_ext _ _ (among_one (status j0) RUNNING)) in E.
      unfold wait_if_paused_or_canceled. cbn [_pause_event].
      case_bool_decide as Hs; injection E as <- <-.
      * split; [done|]. intros _. by rewrite bool_decide_eq_false_2.
      * split; [done|]. intros Hc. by rewrite bool_decide_eq_false_2.
  - destruct (_running_jobs q) as [|kv0 rest] eqn:Hr.
    + unfold pause_current. rewrite Hr. unfold resume_current.
      by rewrite Hr.
    + assert (_running_jobs q <> []) as Hne by (by rewrite Hr).
      rewrite (pause_current_running q Hne).
      by rewrite resume_current_running
        by (cbn [_running_jobs]; by apply restatus_nonempty).
Qed.

Lemma pause_then_resume_witness :
  let job := mkJob VERIFY_ALL "verify" [] "j1" RUNNING 0 None in
  let q := mkQueue [] [("j1", job)] false false 1 1 [] in
  _running_jobs (resume_current (pause_current q)) = [("j1", job)]
  /\ _pause_event (pause_current q) = true.
Proof.
  cbn zeta.
  destruct (pause_then_resume
              (mkQueue []
                 [("j1", mkJob VERIFY_ALL "verify" [] "j1" RUNNING 0 None)]
                 false false 1 1 []))
    as (_ & Hrun & _).
  - intros id job [[= <- <-]|[]]. discriminate.
  - destruct Hrun as (Hp & _ & Hr & _); [discriminate|]. split; [exact Hr|exact Hp].
Defined.

End QueuePauseFacts.
Module WorkerLoopFacts.
Import Py JobQueue.

Section WithState.
Context {S : Type}.
Implicit Types (handlers : Handlers S) (w : Worker S) (job : Job).

Lemma run_job_finished handlers job w :
  exists job',
    w_finished (run_job handlers job w) = w_finished w ++ [job']
    /\ (status job' = COMPLETED \/ status job' = FAILED
        \/ status job' = CANCELED)
    /\ (status job' = COMPLETED -> progress job' = 100).
Proof.
  unfold run_job. cbv zeta.
  destruct (handlers (job_type (set_progress 0 (set_status RUNNING job))))
    as [h|]; cbn [w_finished].
  - eexists. split; [done|].
    destruct (h_outcome (h _ _)) as [[]|exc].
    + case_bool_decide as Hc.
      * split; [destruct Hc as [Hc|Hc]; auto|].
        intros E. destruct Hc as [Hc|Hc]; congruence.
      * cbn. auto.
    + cbn. split; [auto|discriminate].
  - eexists. split; [done|]. cbn. split; [auto|discriminate].
Qed.

(** X26. Whatever the handlers do, a job the worker is done with is in
    a final state: COMPLETED, FAILED or CANCELED, never QUEUED, RUNNING
    or PAUSED; and a COMPLETED job has progress 100. This holds for all
    jobs of any queue content the worker consumes. *)
Theorem finished_jobs_are_final handlers stop_event queue (s : S) :
  Forall (fun job =>
            (status job = COMPLETED \/ status job = FAILED
             \/ status job = CANCELED)
            /\ (status job = COMPLETED -> progress job = 100))
    (w_finished (_run handlers stop_event queue (new_worker s)).1.1).
Proof.
  assert (forall w,
            Forall (fun job =>
                      (status job = COMPLETED \/ status job = FAILED
                       \/ status job = CANCELED)
                      /\ (status job = COMPLETED -> progress job = 100))
              (w_finished w) ->
            Forall (fun job =>
                      (status job = COMPLETED \/ status job = FAILED
                       \/ status job = CANCELED)
                      /\ (status job = COMPLETED -> progress job = 100))
              (w_finished (_run handlers stop_event queue w).1.1)) as Hgen.
  { induction queue as [|[job|] rest IH]; intros w Hw; cbn;
      destruct stop_event; cbn; try done.
    apply IH.
    destruct (run_job_finished handlers job w) as (job' & -> & Hs & Hp).
    apply Forall_app. split; [done|]. by constructor. }
  apply Hgen. constructor.
Qed.

(** A worker consumes the queue in order and leaves at the first
    sentinel: the jobs in front of it are run one after the other, the
    entries behind it stay on the queue for other workers, and the
    thread exits. With the stop event set it takes nothing off the
    queue. *)
Theorem run_stops_at_the_sentinel handlers (jobs : list Job)
  (behind : list (option Job)) w :
  _run handlers false (map Some jobs ++ None :: behind) w
  = (fold_left (fun w job => run_job handlers job w) jobs w, behind, Exited)
  /\ length (w_finished
               (fold_left (fun w job => run_job handlers job w) jobs w))
     = (length (w_finished w) + length jobs)%nat
  /\ _run handlers true (map Some jobs ++ None :: behind) w
     = (w, map Some jobs ++ None :: behind, Exited).
Proof.
  split; [|split].
  - revert w. induction jobs as [|job jobs IH]; intros w; cbn; [done|].
    apply IH.
  - revert w. induction jobs as [|job jobs IH]; intros w; cbn; [lia|].
    rewrite IH.
    destruct (run_job_finished handlers job w) as (job' & -> & _).
    rewrite length_app. cbn. lia.
  - by destruct jobs.
Qed.

(** X27. With handlers that leave [job.id] alone, the worker finishes
    the jobs in queue order under their ids, and forgets each one in
    [_running_jobs] when done: a worker that started with no running
    job has none when the queue is consumed. *)
Theorem worker_keeps_order_and_cleans_up handlers (jobs : list Job) w :
  (forall job handler s,
     handlers (job_type job) = Some handler ->
     id (h_job (handler job s)) = id job) ->
  let w' := (_run handlers false (map Some jobs) w).1.1 in
  map id (w_finished w') = map id (w_finished w) ++ map id jobs
  /\ (w_running_jobs w = ∅ -> w_running_jobs w' = ∅).
Proof.
  intros Hid. cbn zeta. revert w.
  induction jobs as [|job jobs IH]; intros w.
  - cbn. by rewrite app_nil_r.
  - cbn [map _run]. destruct (IH (run_job handlers job w)) as [Hf Hr].
    assert (map id (w_finished (run_job handlers job w))
            = map id (w_finished w) ++ [id job]
            /\ w_running_jobs (run_job handlers job w)
               = delete (id job) (w_running_jobs w)) as [Hf1 Hr1].
    { unfold run_job. cbv zeta.
      change (job_type (set_progress 0 (set_status RUNNING job)))
        with (job_type job).
      destruct (handlers (job_type job)) as [h|] eqn:Hh;
        cbn [w_finished w_running_jobs].
      - rewrite map_app. cbn [map].
        assert (id (match h_outcome (h (set_progress 0 (set_status RUNNING job))
                                       (w_state w)) with
                    | Ok _ =>
                        if bool_decide
                             (status (h_job (h (set_progress 0
                                                  (set_status RUNNING job))
                                               (w_state w))) = CANCELED
                              \/ status (h_job (h (set_progress 0
                                                     (set_status RUNNING job))
                                                  (w_state w))) = FAILED)
                        then h_job (h (set_progress 0 (set_status RUNNING job))
                                      (w_state w))
                        else set_progress 100
                               (set_status COMPLETED
                                  (h_job (h (set_progress 0
                                               (set_status RUNNING job))
                                            (w_state w))))
                    | Raise exc =>
                        set_error (Some (str_exn exc))
                          (set_status FAILED
                             (h_job (h (set_progress 0
                                          (set_status RUNNING job))
                                       (w_state w))))
                    end) = id job) as Hsame.
        { pose proof (Hid (set_progress 0 (set_status RUNNING job)) h
                        (w_state w) Hh) as E. cbn in E.
          destruct (h_outcome _) as [[]|exc]; [case_bool_decide|]; exact E. }
        rewrite Hsame. split; [done|].
        change (id (set_progress 0 (set_status RUNNING job))) with (id job).
        by rewrite delete_insert_eq.
      - rewrite map_app. cbn. split; [done|]. by rewrite delete_insert_eq. }
    split.
    + rewrite Hf, Hf1, <- app_assoc. done.
    + intros He. apply Hr. rewrite Hr1, He. apply delete_empty.
Qed.

End WithState.

Lemma worker_keeps_order_and_cleans_up_witness :
  let w' :=
    (_run Demo.demo_handlers false (map Some Demo.demo_queue)
       (new_worker tt)).1.1 in
  map id (w_finished w') = ["j1"; "j2"; "j3"]
  /\ w_running_jobs w' = ∅.
Proof.
  cbn zeta.
  destruct (worker_keeps_order_and_cleans_up Demo.demo_handlers
              Demo.demo_queue (new_worker tt)) as [Hf Hr].
  - intros job handler s. unfold Demo.demo_handlers, register_handler.
    destruct (decide (job_type job = RESTORE)).
    + by intros [= <-].
    + destruct (decide (job_type job = VERIFY_ALL)); [|discriminate].
      by intros [= <-].
  - split; [exact Hf|]. by apply Hr.
Defined.

End WorkerLoopFacts.

Module MigrationDataFacts.
Import Py Sqlite.

Lemma keeps_rows_refl db : keeps_rows db db.
Proof.
  split; [|done]. intros n t Ht. exists []. rewrite Ht. f_equal.
  destruct t as [cs tc rs]. cbn. rewrite app_nil_r. f_equal.
  rewrite <- (map_id rs) at 1. apply map_ext. intros r. by rewrite app_nil_r.
Qed.

Lemma keeps_rows_trans db1 db2 db3 :
  keeps_rows db1 db2 -> keeps_rows db2 db3 -> keeps_rows db1 db3.
Proof.
  intros [T12 I12] [T23 I23]. split; [|by auto].
  intros n t Ht. destruct (T12 n t Ht) as [a1 H2].
  destruct (T23 n _ H2) as [a2 H3]. cbn in H3.
  exists (a1 ++ a2). rewrite H3. f_equal.
  rewrite <- app_assoc. f_equal. rewrite map_map. apply map_ext.
  intros r. by rewrite map_app, app_assoc.
Qed.

Lemma preserving_ret {A} (a : A) : preserving (ret a).
Proof. intros c c' r [= <- <-]. apply keeps_rows_refl. Qed.

Lemma preserving_bind {A B} (m : M cursor A) (k : A -> M cursor B) :
  preserving m -> (forall a, preserving (k a)) -> preserving (bind m k).
Proof.
  intros Hm Hk c c' r. unfold bind.
  destruct (m c) as [c1 [a|e]] eqn:E.
  - intros Hka. eapply keeps_rows_trans; [by eapply Hm|by eapply Hk].
  - intros [= <- <-]. by eapply Hm.
Qed.

Lemma preserving_table_info tbl : preserving (table_info tbl).
Proof. intros c c' r [= <- <-]. apply keeps_rows_refl. Qed.

Lemma preserving_create_table name cols cons :
  preserving (create_table_if_not_exists name cols cons).
Proof.
  intros c c' r. unfold create_table_if_not_exists.
  destruct (tables (schema c) !! name) eqn:Ht;
    [intros [= <- <-]; apply keeps_rows_refl|].
  destruct (indexes (schema c) !! name);
    intros [= <- <-]; [apply keeps_rows_refl|].
  cbn. split; [|done]. intros n t Hn.
  destruct (keeps_rows_refl (schema c)) as [Hr _].
  destruct (Hr n t Hn) as [added Ha]. exists added. cbn [schema tables].
  rewrite lookup_insert_ne; [done|]. intros <-. congruence.
Qed.

Lemma preserving_create_index name tbl c0 :
  preserving (create_index_if_not_exists name tbl c0).
Proof.
  intros c c' r. unfold create_index_if_not_exists.
  destruct (tables (schema c) !! tbl);
    [|intros [= <- <-]; apply keeps_rows_refl].
  destruct (tables (schema c) !! name);
    [intros [= <- <-]; apply keeps_rows_refl|].
  destruct (indexes (schema c) !! name) eqn:Hi;
    [intros [= <- <-]; apply keeps_rows_refl|].
  destruct (existsb _ _); intros [= <- <-]; [|apply keeps_rows_refl].
  cbn. split.
  - apply (keeps_rows_refl (schema c)).
  - intros n i Hn. cbn [schema indexes].
    rewrite lookup_insert_ne; [done|]. intros <-. congruence.
Qed.

Lemma preserving_alter tbl cl : preserving (alter_table_add_column tbl cl).
Proof.
  intros c c' r. unfold alter_table_add_column.
  destruct (tables (schema c) !! tbl) as [t|] eqn:Ht;
    [|intros [= <- <-]; apply keeps_rows_refl].
  destruct (existsb _ _); intros [= <- <-]; [apply keeps_rows_refl|].
  cbn. split; [|done]. intros n t0 Hn. cbn [schema tables].
  destruct (decide (n = tbl)) as [->|Hne].
  - rewrite Ht in Hn. injection Hn as <-. exists [cl].
    by rewrite lookup_insert_eq.
  - rewrite lookup_insert_ne by done.
    destruct (keeps_rows_refl (schema c)) as [Hr _]. apply (Hr n t0 Hn).
Qed.

Create HintDb preserving.
#[local] Hint Resolve preserving_ret preserving_table_info
  preserving_create_table preserving_create_index preserving_alter
  : preserving.

Ltac preserving :=
  repeat first
    [ apply preserving_bind; [|intros ?]
    | match goal with |- preserving (if ?b then _ else _) => destruct b end
    | solve [auto with preserving] ].

Lemma preserving_init_database : preserving _init_database.
Proof.
  unfold _init_database, _migrate_add_hash_column,
    _migrate_add_favorite_column, _migrate_add_archived_column,
    _migrate_add_pin_columns, _migrate_add_project_column.
  preserving.
Qed.

(** X28. Opening the store loses no data, however the run ends: every
    table that existed is still there with its columns in their places
    and its rows in their order; a column the migration added comes
    after the old ones and the old rows read its declared default in
    it; every index that existed is still there. *)
Theorem init_database_keeps_rows db :
  let '(db', statements, outcome) := open_store db in
  keeps_rows db db'.
Proof.
  unfold open_store.
  destruct (_init_database {| schema := db; changes := [] |}) as [c r] eqn:E.
  apply preserving_init_database in E. exact E.
Qed.

End MigrationDataFacts.

Module BackupNameFacts.
Import Py Pathlib Os Models FileService OsFacts.

Lemma str_int_inj n m : str_int n = str_int m -> n = m.
Proof.
  unfold str_int. intros E.
  assert (forall z, Z.to_int z <> Decimal.Pos Decimal.Nil
                    /\ Z.to_int z <> Decimal.Neg Decimal.Nil) as Hnn.
  { intros [|p|p]; cbn; split; try discriminate;
      intros [= Hp]; by apply (Unsigned.to_uint_nonnil p). }
  pose proof (NilZero.isi (Z.to_int n) (proj1 (Hnn n)) (proj2 (Hnn n))) as Hn.
  pose proof (NilZero.isi (Z.to_int m) (proj1 (Hnn m)) (proj2 (Hnn m))) as Hm.
  rewrite E, Hm in Hn. injection Hn as Hn. symmetry. by apply to_int_inj.
Qed.

Lemma append_cons c (s t : string) : String c s +:+ t = String c (s +:+ t).
Proof. done. Qed.

Lemma append_inv_head (p s t : string) : p +:+ s = p +:+ t -> s = t.
Proof.
  induction p as [|c p IH]; [done|].
  rewrite !append_cons. intros [= E]. by apply IH.
Qed.

Lemma append_length (s t : string) :
  String.length (s +:+ t) = (String.length s + String.length t)%nat.
Proof.
  induction s as [|c s IH]; [done|].
  rewrite append_cons. cbn [String.length Nat.add]. by rewrite IH.
Qed.

Lemma append_inv_tail (s t u : string) : s +:+ u = t +:+ u -> s = t.
Proof.
  revert t. induction s as [|c s IH]; intros [|d t].
  - done.
  - intros E. apply (f_equal String.length) in E.
    rewrite !append_length in E. cbn in E. lia.
  - intros E. apply (f_equal String.length) in E.
    rewrite !append_length in E. cbn in E. lia.
  - rewrite !append_cons. intros [= -> E]. f_equal. by apply IH.
Qed.

(** X29. Two versions of a file never share an artifact path: for one
    file and one name, the backup path, the legacy backup path and the
    pinned path each determine the version number. So the backup of a new
    version cannot overwrite the backup of another version of the same
    file. *)
Theorem artifact_paths_tell_versions_apart self file_id nm n m :
  (joinpath (_get_version_dir self file_id) (version_file_name n nm)
   = joinpath (_get_version_dir self file_id) (version_file_name m nm)
   -> n = m)
  /\ (_get_legacy_version_path self file_id n nm
      = _get_legacy_version_path self file_id m nm -> n = m)
  /\ (pinned_file_name n nm = pinned_file_name m nm -> n = m).
Proof.
  split; [|split].
  - unfold joinpath, version_file_name. intros E.
    apply app_inv_head in E. injection E as E.
    apply append_inv_head, append_inv_head, append_inv_tail in E.
    by apply str_int_inj.
  - unfold _get_legacy_version_path, joinpath. intros E.
    apply app_inv_head in E. injection E as E.
    apply (append_inv_head ""), append_inv_tail in E.
    by apply str_int_inj.
  - unfold pinned_file_name. intros E.
    apply append_inv_head, append_inv_head in E.
    assert (forall a b c : string, a +:+ b +:+ c = (a +:+ b) +:+ c) as Hassoc.
    { intros a b c. induction a as [|x a IH]; [done|].
      rewrite !append_cons. by rewrite IH. }
    rewrite !Hassoc in E.
    apply append_inv_tail, append_inv_tail in E.
    by apply str_int_inj.
Qed.

End BackupNameFacts.

Module DeleteServiceFacts.
Import Py Pathlib Os Models Verification FileService ListFacts OsFacts.

(** What [rmtree] of a directory leaves. *)
Lemma rmtree_directory p disk st :
  node_at disk p = Some (Dir st) ->
  exists disk',
    rmtree p disk = Ok disk'
    /\ (forall q, p `prefix_of` q -> disk' !! q = None)
    /\ (forall q, ~ p `prefix_of` q -> disk' !! q = disk !! q).
Proof.
  intros Hp. unfold rmtree. rewrite Hp. eexists. split; [done|]. split.
  - intros q Hq. apply map_lookup_filter_None. right. intros n _ Hn.
    by apply Hn.
  - intros q Hq. destruct (disk !! q) as [n|] eqn:E.
    + apply map_lookup_filter_Some. done.
    + apply map_lookup_filter_None. by left.
Qed.

(** X30. [delete_file] of the service: when the version directory of
    the file exists, it is removed with everything below it, and nothing
    else on the disk changes, so the tracked file itself and any pinned
    copy stay; when there is none, the disk is left alone. In both cases
    the rows are then deleted as [DatabaseManager.delete_file] does. When
    a regular file sits at the place of the version directory, it raises
    before any row is deleted. *)
Theorem delete_file_removes_backups_only self file_id w :
  let version_dir := _get_version_dir self file_id in
  match node_at (fs w) version_dir with
  | Some (Dir _) =>
      exists w',
        delete_file self file_id w = (w', Ok tt)
        /\ db w' = DatabaseManager.delete_file file_id (db w)
        /\ (forall q, version_dir `prefix_of` q -> fs w' !! q = None)
        /\ (forall q, ~ version_dir `prefix_of` q -> fs w' !! q = fs w !! q)
  | None =>
      delete_file self file_id w
      = ({| fs := fs w; db := DatabaseManager.delete_file file_id (db w) |},
         Ok tt)
  | Some (File _ _) =>
      exists e, delete_file self file_id w = (w, Raise e)
  end.
Proof.
  cbn zeta. set (version_dir := _get_version_dir self file_id).
  unfold delete_file, _delete_version_backups, bind, gets, fs_do, db_do, ret.
  fold version_dir. unfold Os.exists_.
  destruct (node_at (fs w) version_dir) as [[data m|st]|] eqn:Hn.
  - unfold rmtree. rewrite Hn. by eexists.
  - destruct (rmtree_directory _ _ _ Hn) as (disk' & -> & Hgone & Hkept).
    cbn [fs db]. eexists. split; [done|]. cbn [fs db]. auto.
  - done.
Qed.

End DeleteServiceFacts.
